(** * Shallow-shelf velocity solver: a shallow embedding

    The development follows the two translation units of the solver:
    [ice_surface.cpp] (the closed-form surface elevation) and
    [shallow_shelf.cpp] (viscosity closure, element assemblers, the global
    system builder, the Picard driver and the adaptive refinement loop).

    The program computes on C++ [double]s.  The embedding is written over
    an abstract scalar type carrying the operations the source applies to
    doubles (class [Arith]; [pow] and [exp] of the C math library are the
    class [Libm]); every definition is a function of that interface, so it
    runs on any instance, among them the real numbers and IEEE 754 binary64
    numbers.  Statements that only concern which expression is evaluated
    hold for every instance.  Statements that a contribution vanishes rest
    on the laws of sums and products with zero (class [ZeroArith]), which
    hold for the reals and for binary64 numbers alike: there a product with
    zero is zero when the other factor is finite, and NaN otherwise.
    Symmetry of a bilinear form is proved for instances whose operations
    form a commutative ring (class [ExactArith]), that is, for arithmetic
    without rounding, overflow or NaN. *)

From Stdlib Require Import List Bool Arith Lia ZArith QArith String Ascii.
From Stdlib Require Import Reals Lra Qreals.
From Stdlib Require Import Floats Uint63 SpecFloat.
From Stdlib Require Import Ring.
Import ListNotations.

Set Implicit Arguments.
Close Scope R_scope.
Close Scope Q_scope.
Open Scope nat_scope.

(* ===================================================================== *)
(** ** Scalars *)
(* ===================================================================== *)

(** The operations the source applies to [double]: literals (a decimal
    constant or a promoted integer), the four arithmetic operators, unary
    minus and the comparison [<] used by [std::max]. *)
Class Arith (double : Type) := {
  lit : Q -> double;
  add : double -> double -> double;
  sub : double -> double -> double;
  mul : double -> double -> double;
  div : double -> double -> double;
  neg : double -> double;
  ltb : double -> double -> bool
}.

(** The two functions of the C math library that the source calls. *)
Class Libm (double : Type) := {
  pow : double -> double -> double;
  exp : double -> double
}.

Declare Scope double_scope.
Delimit Scope double_scope with D.
Infix "+" := add : double_scope.
Infix "-" := sub : double_scope.
Infix "*" := mul : double_scope.
Infix "/" := div : double_scope.
Notation "- x" := (neg x) : double_scope.
Abbreviation zero := (lit 0).
Abbreviation one := (lit 1).

(** Arithmetic without rounding: the operations satisfy the laws of a
    commutative ring whose zero and one are the literals [0.0] and [1.0]. *)
Class ExactArith (double : Type) {A : Arith double} : Prop := {
  exact_ring : ring_theory zero one add mul sub neg (@eq double)
}.
Arguments ExactArith double {A}.

(** What [std::isfinite (x)] and [x == 0.0] say of a scalar. *)
Class Classify (double : Type) := {
  isfinite : double -> Prop;
  iszero : double -> Prop
}.

(** Arithmetic with zero: the literals [0.0] and [2.0] are what they say, a
    zero is finite, sums and differences of zeros are zero, and the product
    of a zero with a finite scalar is zero. *)
Class ZeroArith (double : Type) {A : Arith double} {F : Classify double}
  : Prop := {
  iszero_zero : iszero zero;
  isfinite_two : isfinite (lit 2);
  iszero_isfinite : forall a, iszero a -> isfinite a;
  iszero_add : forall a b, iszero a -> iszero b -> iszero (a + b)%D;
  iszero_sub : forall a b, iszero a -> iszero b -> iszero (a - b)%D;
  iszero_mul_l : forall a b, iszero a -> isfinite b -> iszero (a * b)%D;
  iszero_mul_r : forall a b, isfinite a -> iszero b -> iszero (a * b)%D
}.
Arguments ZeroArith double {A F}.

(** [std::max (a, b)] is [(a < b) ? b : a]. *)
Definition std_max {double} `{Arith double} (a b : double) : double :=
  if ltb a b then b else a.

(** The real numbers as scalars: the instance on which exact arithmetic is
    exercised. *)
#[export] Instance R_Arith : Arith R := {
  lit := Q2R;
  add := Rplus;
  sub := Rminus;
  mul := Rmult;
  div := Rdiv;
  neg := Ropp;
  ltb := fun a b => if Rlt_dec a b then true else false
}.

#[export] Instance R_Libm : Libm R := {
  pow := Rpower;
  exp := Rtrigo_def.exp
}.

(** Every real number is finite. *)
#[export] Instance R_Classify : Classify R := {
  isfinite := fun _ => True;
  iszero := fun x => x = 0%R
}.

(** IEEE 754 binary64 numbers as scalars: a literal is the quotient, rounded
    to nearest, of its numerator and denominator, both converted from
    integers. *)
Definition float_of_Z (z : Z) : float :=
  match z with
  | Z0 => 0%float
  | Zpos _ => PrimFloat.of_uint63 (Uint63.of_Z z)
  | Zneg p => PrimFloat.opp (PrimFloat.of_uint63 (Uint63.of_Z (Zpos p)))
  end.

#[export] Instance binary64 : Arith float | 10 := {
  lit := fun q =>
    PrimFloat.div (float_of_Z (Qnum q)) (float_of_Z (Zpos (Qden q)));
  add := PrimFloat.add;
  sub := PrimFloat.sub;
  mul := PrimFloat.mul;
  div := PrimFloat.div;
  neg := PrimFloat.opp;
  ltb := PrimFloat.ltb
}.

(** A binary64 number is finite when it is neither an infinity nor NaN, and
    zero when it compares equal to [0.0], as both signed zeros do. *)
#[export] Instance binary64_Classify : Classify float | 10 := {
  isfinite := fun x => PrimFloat.is_finite x = true;
  iszero := fun x => PrimFloat.is_zero x = true
}.

(* ===================================================================== *)
(** ** Tensors, fields and containers of the finite-element library *)
(* ===================================================================== *)

Section Geometry.
Context {double : Type} {A : Arith double}.
Local Open Scope double_scope.

(** [Point<2>]. *)
Record Point := mkPoint { px : double; py : double }.

(** [Tensor<1,2>]: [Tensor<1,2>()] is the zero tensor, [t[c]] reads a
    component and [a * t] scales every component. *)
Record Tensor1 := mkTensor1 { t_0 : double; t_1 : double }.

Definition Tensor1_zero : Tensor1 := mkTensor1 zero zero.

Definition tensor_at (t : Tensor1) (c : nat) : double :=
  match c with O => t_0 t | _ => t_1 t end.

Definition scale (a : double) (t : Tensor1) : Tensor1 :=
  mkTensor1 (a * t_0 t) (a * t_1 t).

(** [SymmetricTensor<2,2>] stores the three independent components. *)
Record SymmetricTensor2 := mkSym2 {
  s_00 : double;
  s_11 : double;
  s_01 : double
}.

(** [first_invariant] is the trace; [second_invariant] of a 2x2 symmetric
    tensor is [t[0][0]*t[1][1] - t[0][1]*t[0][1]]. *)
Definition first_invariant (t : SymmetricTensor2) : double :=
  s_00 t + s_11 t.

Definition second_invariant (t : SymmetricTensor2) : double :=
  s_00 t * s_11 t - s_01 t * s_01 t.

(** [SymmetricTensor<4,2>]: a table indexed by two symmetric index pairs. *)
Inductive SymIndex := XX | YY | XY.

Definition sym_indices (a : SymIndex) : nat * nat :=
  match a with XX => (0, 0) | YY => (1, 1) | XY => (0, 1) end%nat.

Definition SymmetricTensor4 := SymIndex -> SymIndex -> double.

(** Double contraction [s * C] of a rank-2 with a rank-4 symmetric tensor:
    the off-diagonal pair is met twice in the sum over both indices. *)
Definition contract_2_4 (s : SymmetricTensor2) (C : SymmetricTensor4)
  : SymmetricTensor2 :=
  let col b := s_00 s * C XX b + s_11 s * C YY b
               + lit 2 * (s_01 s * C XY b) in
  mkSym2 (col XX) (col YY) (col XY).

(** Scalar product [a * b] of two rank-2 symmetric tensors. *)
Definition scalar_product (a b : SymmetricTensor2) : double :=
  s_00 a * s_00 b + s_11 a * s_11 b + lit 2 * (s_01 a * s_01 b).

(** [Function<2>]: [value (p, component)] and [gradient (p, component)];
    the list versions evaluate at every point in order, with the default
    component 0. *)
Record Function2 := mkFunction2 {
  value : Point -> nat -> double;
  gradient : Point -> nat -> Tensor1
}.

Definition value_list (f : Function2) (points : list Point) : list double :=
  map (fun p => value f p 0%nat) points.

Definition gradient_list (f : Function2) (points : list Point) : list Tensor1 :=
  map (fun p => gradient f p 0%nat) points.

(** [ConstantFunction<2> nu (c)]. *)
Definition ConstantFunction (c : double) : Function2 :=
  mkFunction2 (fun _ _ => c) (fun _ _ => Tensor1_zero).

(** [TensorFunction<1,2>]. *)
Definition TensorFunction := Point -> Tensor1.

(** [Vector<double>]: a size and the entries.  [v = 0.0] clears the
    entries and keeps the size, [reinit (n)] gives a zero vector of size
    [n]. *)
Record Vector := mkVector { vec_size : nat; vec_at : nat -> double }.

Definition Vector_reinit (n : nat) : Vector := mkVector n (fun _ => zero).

Definition Vector_clear (v : Vector) : Vector :=
  mkVector (vec_size v) (fun _ => zero).

(** [v(i) += x] and [v(i) = x]. *)
Definition Vector_add_at (v : Vector) (i : nat) (x : double) : Vector :=
  mkVector (vec_size v)
           (fun k => if Nat.eqb k i then vec_at v k + x else vec_at v k).

Definition Vector_set (v : Vector) (i : nat) (x : double) : Vector :=
  mkVector (vec_size v) (fun k => if Nat.eqb k i then x else vec_at v k).

(** [FullMatrix<double>]: [m = 0.0] clears the entries and keeps the
    shape. *)
Record FullMatrix := mkFullMatrix {
  fm_rows : nat;
  fm_cols : nat;
  fm_at : nat -> nat -> double
}.

Definition FullMatrix_new (m n : nat) : FullMatrix :=
  mkFullMatrix m n (fun _ _ => zero).

Definition FullMatrix_clear (M : FullMatrix) : FullMatrix :=
  mkFullMatrix (fm_rows M) (fm_cols M) (fun _ _ => zero).

(** [M(i,j) += x]. *)
Definition FullMatrix_add_at (M : FullMatrix) (i j : nat) (x : double)
  : FullMatrix :=
  mkFullMatrix (fm_rows M) (fm_cols M)
    (fun k l => if Nat.eqb k i && Nat.eqb l j then fm_at M k l + x
                else fm_at M k l).

(** [FiniteElement]: the number of local degrees of freedom and, for each,
    the vector component it belongs to
    ([system_to_component_index (i).first]). *)
Record FiniteElement := mkFiniteElement {
  fe_dofs_per_cell : nat;
  system_to_component_index : nat -> nat
}.
End Geometry.

Arguments Point double : clear implicits.
Arguments Tensor1 double : clear implicits.
Arguments SymmetricTensor2 double : clear implicits.
Arguments SymmetricTensor4 double : clear implicits.
Arguments Function2 double : clear implicits.
Arguments TensorFunction double : clear implicits.
Arguments Vector double : clear implicits.
Arguments FullMatrix double : clear implicits.

(** [FEValues<2>] after [reinit (cell)]: the quadrature points of the cell
    (as many as the quadrature formula has), integration weights, shape
    values, the gradient of each vector component of a shape function, and
    the gradients of a finite-element field at a quadrature point
    ([get_function_gradients (u, out)] fills [out[q][c]] with the gradient
    of component [c] of [u] at point [q]). *)
Module FEValues.
Record t (double : Type) := mk {
  n_quadrature_points : nat;
  quadrature_point : nat -> Point double;
  JxW : nat -> double;
  shape_value : nat -> nat -> double;
  shape_grad_component : nat -> nat -> nat -> Tensor1 double;
  function_gradients_at : Vector double -> nat -> list (Tensor1 double)
}.

Definition get_quadrature_points {double} (fe_values : t double)
  : list (Point double) :=
  map (quadrature_point fe_values) (seq 0 (n_quadrature_points fe_values)).

Definition get_function_gradients {double} (fe_values : t double)
  (u : Vector double) : list (list (Tensor1 double)) :=
  map (function_gradients_at fe_values u)
      (seq 0 (n_quadrature_points fe_values)).
End FEValues.

(** [FEFaceValues<2>] after [reinit (cell, face_number)]. *)
Module FEFaceValues.
Record t (double : Type) := mk {
  quadrature_point : nat -> Point double;
  normal_vector : nat -> Tensor1 double;
  JxW : nat -> double;
  shape_value : nat -> nat -> double
}.
End FEFaceValues.

(** A face of a cell: [at_boundary ()], [boundary_indicator ()] and the face
    values obtained by [fe_face_values.reinit (cell, face_number)]. *)
Module Face.
Record t (double : Type) := mk {
  at_boundary : bool;
  boundary_indicator : nat;
  fe_face_values : FEFaceValues.t double
}.
End Face.

(** An active cell as the assembly loop sees it: the values obtained by
    [fe_values.reinit (cell)], its faces and [get_dof_indices]. *)
Module Cell.
Record t (double : Type) := mk {
  fe_values : FEValues.t double;
  face : nat -> Face.t double;
  get_dof_indices : nat -> nat
}.
End Cell.

(** [GeometryInfo<2>::faces_per_cell]. *)
Definition faces_per_cell : nat := 4.

(* ===================================================================== *)
(** ** Physical constants *)
(* ===================================================================== *)

(** The values of [physical_constants.hpp] are parameters of the
    development. *)
Class PhysicalConstants (double : Type) := {
  rho_ice : double;
  rho_water : double;
  gravity : double;
  A0_cold : double;
  Q_cold : double;
  idealgas : double;
  Temp : double
}.

(* ===================================================================== *)
(** ** ice_surface.cpp *)
(* ===================================================================== *)

Module IceSurface.
Section IceSurface.
Context {double : Type} {A : Arith double} {PC : PhysicalConstants double}.
Local Open Scope double_scope.

Record t := mk {
  bed : Function2 double;
  thickness : Function2 double
}.

Definition value (self : t) (x : Point double) (component : nat) : double :=
  let h := value (thickness self) x 0%nat in
  let b := value (bed self) x 0%nat in
  std_max (b + h) ((lit 1 - rho_ice / rho_water) * h).

End IceSurface.
Arguments t double : clear implicits.
End IceSurface.

(* ===================================================================== *)
(** ** The helpers of namespace EllipticSystems *)
(* ===================================================================== *)

Module EllipticSystems.
Section EllipticSystems.
Context {double : Type} {A : Arith double}.
Local Open Scope double_scope.

(** Modelled from the spec: [get_strain] of [elliptic_systems.hpp], the
    symmetric 2x2 tensor built from the gradient of the two velocity
    components at a point ([grad[c]] is the gradient of component [c]). *)
Definition get_strain (grad : list (Tensor1 double))
  : SymmetricTensor2 double :=
  let g0 := nth 0 grad Tensor1_zero in
  let g1 := nth 1 grad Tensor1_zero in
  mkSym2 (t_0 g0) (t_1 g1) ((t_1 g0 + t_0 g1) / lit 2).

(** Modelled from the spec: [stress_strain_tensor] of
    [elliptic_systems.hpp], the symmetric rank-4 tensor with two scalar
    parameters that maps a strain rate to a stress: the isotropic tensor
    [C[i][j][k][l] = mu (d_ik d_jl + d_il d_jk) + lambda d_ij d_kl]. *)
Definition stress_strain_tensor (lambda mu : double)
  : SymmetricTensor4 double :=
  fun a b =>
    let '(i, j) := sym_indices a in
    let '(k, l) := sym_indices b in
    (if Nat.eqb i k && Nat.eqb j l then mu else zero)
    + (if Nat.eqb i l && Nat.eqb j k then mu else zero)
    + (if Nat.eqb i j && Nat.eqb k l then lambda else zero).

(** The symmetric gradient of shape function [i] at quadrature point [q]. *)
Definition shape_strain (fe_values : FEValues.t double) (i q : nat)
  : SymmetricTensor2 double :=
  get_strain [FEValues.shape_grad_component fe_values i q 0;
              FEValues.shape_grad_component fe_values i q 1].

(** Modelled from the spec: [fill_cell_matrix] of [elliptic_systems.hpp],
    the bilinear-form assembly at one quadrature point: entry (i,j) grows by
    [grad phi_i : C : grad phi_j] times the quadrature weight. *)
Definition fill_cell_matrix (cell_matrix : FullMatrix double)
  (stress_strain : SymmetricTensor4 double) (fe_values : FEValues.t double)
  (q_point dofs_per_cell : nat) : FullMatrix double :=
  fold_left (fun M i =>
    fold_left (fun M j =>
      let eps_phi_i := shape_strain fe_values i q_point in
      let eps_phi_j := shape_strain fe_values j q_point in
      FullMatrix_add_at M i j
        (scalar_product (contract_2_4 eps_phi_i stress_strain) eps_phi_j
         * FEValues.JxW fe_values q_point))
      (seq 0 dofs_per_cell) M)
    (seq 0 dofs_per_cell) cell_matrix.

(** Modelled from the spec: [fill_cell_rhs_field] of [elliptic_systems.hpp],
    the load of a body force at one quadrature point: entry [i] grows by the
    shape value times the force component of that degree of freedom times
    the quadrature weight. *)
Definition fill_cell_rhs_field (cell_rhs : Vector double)
  (field_value : Tensor1 double) (fe : FiniteElement)
  (fe_values : FEValues.t double) (q_point dofs_per_cell : nat)
  : Vector double :=
  fold_left (fun rhs i =>
    let component_i := system_to_component_index fe i in
    Vector_add_at rhs i
      (FEValues.shape_value fe_values i q_point
       * tensor_at field_value component_i
       * FEValues.JxW fe_values q_point))
    (seq 0 dofs_per_cell) cell_rhs.

(** Modelled from the spec: [fill_cell_rhs_neumann] of
    [elliptic_systems.hpp], the same sum on a face. *)
Definition fill_cell_rhs_neumann (cell_rhs : Vector double)
  (neumann_value : Tensor1 double) (fe : FiniteElement)
  (fe_face_values : FEFaceValues.t double) (q_point dofs_per_cell : nat)
  : Vector double :=
  fold_left (fun rhs i =>
    let component_i := system_to_component_index fe i in
    Vector_add_at rhs i
      (FEFaceValues.shape_value fe_face_values i q_point
       * tensor_at neumann_value component_i
       * FEFaceValues.JxW fe_face_values q_point))
    (seq 0 dofs_per_cell) cell_rhs.

End EllipticSystems.
End EllipticSystems.

(* ===================================================================== *)
(** ** shallow_shelf.cpp: constants and the two element assemblers *)
(* ===================================================================== *)

Section FlowLaw.
Context {double : Type} {A : Arith double} {L : Libm double}.
Context {PC : PhysicalConstants double}.
Local Open Scope double_scope.

Definition strain_rate : double := lit 0.2.

Definition B : double :=
  lit 0.5 * pow (A0_cold * exp (- Q_cold / (idealgas * Temp)))
                (- lit 1 / lit 3).

Definition nu_guess : double :=
  B * pow (strain_rate * strain_rate) (- lit 1 / lit 3).

End FlowLaw.

(** The abstract base [AssembleMatrix<2>]: an assembler object is called
    with the values of a cell and the cell matrix, which it takes by
    reference; the call returns the object (its scratch vectors are
    rewritten) and the matrix. *)
Class AssembleMatrix (double : Type) (T : Type) := {
  assemble_matrix : T -> FEValues.t double -> FullMatrix double
                    -> T * FullMatrix double
}.

Module AssembleMatrixLinear.
Section AssembleMatrixLinear.
Context {double : Type} {A : Arith double}.
Local Open Scope double_scope.

Record t := mk {
  n_q_points : nat;
  dofs_per_cell : nat;
  thickness : Function2 double;
  nu : Function2 double;
  thickness_values : list double;
  nu_values : list double
}.

Definition new (_n_q_points _dofs_per_cell : nat)
  (_thickness _nu : Function2 double) : t :=
  mk _n_q_points _dofs_per_cell _thickness _nu
     (repeat zero _n_q_points) (repeat zero _n_q_points).

Definition operator_call (self : t) (fe_values : FEValues.t double)
  (cell_matrix : FullMatrix double) : t * FullMatrix double :=
  let cell_matrix := FullMatrix_clear cell_matrix in
  let nu_values :=
    value_list (nu self) (FEValues.get_quadrature_points fe_values) in
  let thickness_values :=
    value_list (thickness self) (FEValues.get_quadrature_points fe_values) in
  let cell_matrix :=
    fold_left (fun cell_matrix q_point =>
      let nu_q := nth q_point nu_values zero
                  * nth q_point thickness_values zero in
      let stress_strain :=
        EllipticSystems.stress_strain_tensor (lit 2 * nu_q) nu_q in
      EllipticSystems.fill_cell_matrix cell_matrix stress_strain fe_values
        q_point (dofs_per_cell self))
      (seq 0 (n_q_points self)) cell_matrix in
  (mk (n_q_points self) (dofs_per_cell self) (thickness self) (nu self)
      thickness_values nu_values,
   cell_matrix).

End AssembleMatrixLinear.
Arguments t double : clear implicits.
End AssembleMatrixLinear.

Module AssembleMatrixNonLinear.
Section AssembleMatrixNonLinear.
Context {double : Type} {A : Arith double} {L : Libm double}.
Context {PC : PhysicalConstants double}.
Local Open Scope double_scope.

Record t := mk {
  n_q_points : nat;
  dofs_per_cell : nat;
  thickness : Function2 double;
  solution : Vector double;
  thickness_values : list double;
  velocity_gradient_values : list (list (Tensor1 double))
}.

Definition new (_n_q_points _dofs_per_cell : nat)
  (_thickness : Function2 double) (_solution : Vector double) : t :=
  mk _n_q_points _dofs_per_cell _thickness _solution
     (repeat zero _n_q_points)
     (repeat (repeat Tensor1_zero 2) _n_q_points).

Definition operator_call (self : t) (fe_values : FEValues.t double)
  (cell_matrix : FullMatrix double) : t * FullMatrix double :=
  let cell_matrix := FullMatrix_clear cell_matrix in
  let thickness_values :=
    value_list (thickness self) (FEValues.get_quadrature_points fe_values) in
  let velocity_gradient_values :=
    FEValues.get_function_gradients fe_values (solution self) in
  let cell_matrix :=
    fold_left (fun cell_matrix q_point =>
      let eps :=
        EllipticSystems.get_strain (nth q_point velocity_gradient_values []) in
      let trace_eps := first_invariant eps in
      let eps2 := trace_eps * trace_eps - second_invariant eps in
      let nu := B * pow eps2 (- lit 1 / lit 3)
                * nth q_point thickness_values zero in
      let stress_strain :=
        EllipticSystems.stress_strain_tensor (lit 2 * nu) nu in
      EllipticSystems.fill_cell_matrix cell_matrix stress_strain fe_values
        q_point (dofs_per_cell self))
      (seq 0 (n_q_points self)) cell_matrix in
  (mk (n_q_points self) (dofs_per_cell self) (thickness self) (solution self)
      thickness_values velocity_gradient_values,
   cell_matrix).

End AssembleMatrixNonLinear.
Arguments t double : clear implicits.
End AssembleMatrixNonLinear.

#[export] Instance AssembleMatrix_Linear {double} {A : Arith double}
  : AssembleMatrix double (AssembleMatrixLinear.t double) :=
  {| assemble_matrix := AssembleMatrixLinear.operator_call |}.

#[export] Instance AssembleMatrix_NonLinear {double} {A : Arith double}
  {L : Libm double} {PC : PhysicalConstants double}
  : AssembleMatrix double (AssembleMatrixNonLinear.t double) :=
  {| assemble_matrix := AssembleMatrixNonLinear.operator_call |}.

(* ===================================================================== *)
(** ** The collaborators of the solver *)
(* ===================================================================== *)

(** [SparseMatrix<double>]: the sparsity pattern it was initialised with and
    its entries.  [reinit (pattern)] gives the zero matrix on the pattern,
    [A = 0.0] clears the entries, [A.add (i, j, x)] adds to one entry. *)
Module SparseMatrix.
Section SparseMatrix.
Context {double : Type} {A : Arith double} {SparsityPattern : Type}.
Local Open Scope double_scope.

Record t := mk {
  pattern : SparsityPattern;
  at_ : nat -> nat -> double
}.

Definition reinit (sparsity_pattern : SparsityPattern) : t :=
  mk sparsity_pattern (fun _ _ => zero).

Definition clear (M : t) : t := mk (pattern M) (fun _ _ => zero).

Definition add_at (M : t) (i j : nat) (x : double) : t :=
  mk (pattern M)
     (fun k l => if Nat.eqb k i && Nat.eqb l j then at_ M k l + x
                 else at_ M k l).

End SparseMatrix.
Arguments t : clear implicits.
End SparseMatrix.

(** [SolverControl (n, tol)]. *)
Record SolverControl (double : Type) := mkSolverControl {
  max_steps : nat;
  tolerance : double
}.

(** The mesh, degree-of-freedom, constraint, sparsity, solver, estimator and
    transfer facilities of the finite-element library, with the types they
    keep to themselves.  An object that the source updates in place is
    passed in and returned.  A [DoFHandler] value stands for the handler
    together with the mesh it enumerates; handlers and transfers that point
    to an object changed later receive that object at the call that reads
    it. *)
Class DealII (double : Type) := {
  Triangulation : Type;
  DoFHandler : Type;
  ConstraintMatrix : Type;
  SparsityPattern : Type;
  SparseILU : Type;
  VectorFloat : Type;
  SolutionTransfer : Type;
  (* Triangulation<2> *)
  refine_global : Triangulation -> nat -> Triangulation;
  n_active_cells : Triangulation -> nat;
  prepare_coarsening_and_refinement : Triangulation -> Triangulation;
  execute_coarsening_and_refinement : Triangulation -> Triangulation;
  (* DoFHandler<2> *)
  DoFHandler_new : Triangulation -> DoFHandler;
  distribute_dofs : Triangulation -> FiniteElement -> DoFHandler;
  n_dofs : DoFHandler -> nat;
  max_couplings_between_dofs : DoFHandler -> nat;
  active_cell_iterators : DoFHandler -> list (Cell.t double);
  (* ConstraintMatrix and DoFTools *)
  ConstraintMatrix_new : ConstraintMatrix;
  ConstraintMatrix_clear : ConstraintMatrix -> ConstraintMatrix;
  make_hanging_node_constraints :
    DoFHandler -> ConstraintMatrix -> ConstraintMatrix;
  ConstraintMatrix_close : ConstraintMatrix -> ConstraintMatrix;
  condense_pattern : ConstraintMatrix -> SparsityPattern -> SparsityPattern;
  condense_matrix :
    ConstraintMatrix -> SparseMatrix.t double SparsityPattern
    -> SparseMatrix.t double SparsityPattern;
  condense_vector : ConstraintMatrix -> Vector double -> Vector double;
  distribute : ConstraintMatrix -> Vector double -> Vector double;
  (* SparsityPattern *)
  SparsityPattern_new : SparsityPattern;
  SparsityPattern_reinit : nat -> nat -> nat -> SparsityPattern;
  make_sparsity_pattern : DoFHandler -> SparsityPattern -> SparsityPattern;
  compress : SparsityPattern -> SparsityPattern;
  (* VectorTools and MatrixTools.  [apply_boundary_values] rewrites the
     matrix and the right-hand side and stores the boundary values in the
     solution vector, which it does not read. *)
  interpolate :
    DoFHandler -> TensorFunction double -> Vector double -> Vector double;
  interpolate_boundary_values :
    DoFHandler -> nat -> TensorFunction double -> list (nat * double);
  apply_boundary_values_matrix :
    list (nat * double) -> SparseMatrix.t double SparsityPattern
    -> SparseMatrix.t double SparsityPattern;
  apply_boundary_values_rhs :
    list (nat * double) -> SparseMatrix.t double SparsityPattern
    -> Vector double -> Vector double;
  (* SparseILU<double>::initialize and SolverCG<>::solve: the iterate left
     in the solution vector, and whether the control reported success. *)
  SparseILU_initialize : SparseMatrix.t double SparsityPattern -> SparseILU;
  SolverCG_solve :
    SolverControl double -> SparseMatrix.t double SparsityPattern
    -> Vector double -> Vector double -> SparseILU -> Vector double * bool;
  (* KellyErrorEstimator<2>, GridRefinement, SolutionTransfer<2> *)
  VectorFloat_new : nat -> VectorFloat;
  KellyErrorEstimator_estimate :
    DoFHandler -> nat -> Vector double -> VectorFloat -> VectorFloat;
  refine_and_coarsen_fixed_number :
    Triangulation -> VectorFloat -> double -> double -> Triangulation;
  SolutionTransfer_new : DoFHandler -> SolutionTransfer;
  prepare_for_coarsening_and_refinement :
    SolutionTransfer -> Vector double -> SolutionTransfer;
  SolutionTransfer_interpolate :
    SolutionTransfer -> DoFHandler -> Vector double -> Vector double
    -> Vector double;
  (* FE_Q, FESystem and the quadrature formulas of the constructor *)
  FESystem_FE_Q : nat -> nat -> FiniteElement;
  QGauss_size : nat -> nat -> nat
}.

(** [ice_thickness.hpp] is not among the sources: the thickness field that
    the solver derives from surface and bed is a parameter. *)
Class IceThicknessModel (double : Type) := {
  IceThickness : Function2 double -> Function2 double -> Function2 double
}.

(* ===================================================================== *)
(** ** shallow_shelf.cpp: class ShallowShelf *)
(* ===================================================================== *)

Module ShallowShelf.
Section ShallowShelf.
Context {double : Type} {A : Arith double} {L : Libm double}.
Context {PC : PhysicalConstants double}.
Context {FEM : DealII double} {ITM : IceThicknessModel double}.
Local Open Scope double_scope.

(** What a run leaves outside the object: the lines sent to [std::cout]
    and the files written by [output_results]. *)
Inductive Output :=
| CoutCycle (cycle : nat)
| CoutActiveCells (n : nat)
| CoutDegreesOfFreedom (n : nat)
| WriteVtk (filename : string) (handler : DoFHandler)
           (data : Vector double) (names : list string).

(** The members of the class; [quadrature_formula] and
    [face_quadrature_formula] are kept by their number of points. *)
Record t := mk {
  surface : Function2 double;
  bed : Function2 double;
  thickness : Function2 double;
  boundary_velocity : TensorFunction double;
  triangulation : Triangulation;
  dof_handler : DoFHandler;
  fe : FiniteElement;
  quadrature_formula : nat;
  face_quadrature_formula : nat;
  hanging_node_constraints : ConstraintMatrix;
  sparsity_pattern : SparsityPattern;
  system_matrix : SparseMatrix.t double SparsityPattern;
  system_rhs : Vector double;
  solution : Vector double;
  output : list Output
}.

(** The constructor. The header that declares the members is not among
    the sources; the two quadrature members, built with argument 2, are
    taken to be Gauss formulas on cells and on faces. *)
Definition new (_triangulation : Triangulation)
  (_surface _bed : Function2 double)
  (_boundary_velocity : TensorFunction double) : t :=
  mk _surface _bed (IceThickness _surface _bed) _boundary_velocity
     _triangulation (DoFHandler_new _triangulation)
     (FESystem_FE_Q 1 2) (QGauss_size 2 2) (QGauss_size 1 2)
     ConstraintMatrix_new SparsityPattern_new
     (SparseMatrix.reinit SparsityPattern_new)
     (Vector_reinit 0) (Vector_reinit 0) [].

(** Member updates. *)
Definition set_triangulation (self : t) (x : Triangulation) : t :=
  mk (surface self) (bed self) (thickness self) (boundary_velocity self)
     x (dof_handler self) (fe self) (quadrature_formula self)
     (face_quadrature_formula self) (hanging_node_constraints self)
     (sparsity_pattern self) (system_matrix self) (system_rhs self)
     (solution self) (output self).

Definition set_dof_handler (self : t) (x : DoFHandler) : t :=
  mk (surface self) (bed self) (thickness self) (boundary_velocity self)
     (triangulation self) x (fe self) (quadrature_formula self)
     (face_quadrature_formula self) (hanging_node_constraints self)
     (sparsity_pattern self) (system_matrix self) (system_rhs self)
     (solution self) (output self).

Definition set_hanging_node_constraints (self : t) (x : ConstraintMatrix) : t :=
  mk (surface self) (bed self) (thickness self) (boundary_velocity self)
     (triangulation self) (dof_handler self) (fe self)
     (quadrature_formula self) (face_quadrature_formula self) x
     (sparsity_pattern self) (system_matrix self) (system_rhs self)
     (solution self) (output self).

Definition set_sparsity_pattern (self : t) (x : SparsityPattern) : t :=
  mk (surface self) (bed self) (thickness self) (boundary_velocity self)
     (triangulation self) (dof_handler self) (fe self)
     (quadrature_formula self) (face_quadrature_formula self)
     (hanging_node_constraints self) x (system_matrix self)
     (system_rhs self) (solution self) (output self).

Definition set_system_matrix (self : t)
  (x : SparseMatrix.t double SparsityPattern) : t :=
  mk (surface self) (bed self) (thickness self) (boundary_velocity self)
     (triangulation self) (dof_handler self) (fe self)
     (quadrature_formula self) (face_quadrature_formula self)
     (hanging_node_constraints self) (sparsity_pattern self) x
     (system_rhs self) (solution self) (output self).

Definition set_system_rhs (self : t) (x : Vector double) : t :=
  mk (surface self) (bed self) (thickness self) (boundary_velocity self)
     (triangulation self) (dof_handler self) (fe self)
     (quadrature_formula self) (face_quadrature_formula self)
     (hanging_node_constraints self) (sparsity_pattern self)
     (system_matrix self) x (solution self) (output self).

Definition set_solution (self : t) (x : Vector double) : t :=
  mk (surface self) (bed self) (thickness self) (boundary_velocity self)
     (triangulation self) (dof_handler self) (fe self)
     (quadrature_formula self) (face_quadrature_formula self)
     (hanging_node_constraints self) (sparsity_pattern self)
     (system_matrix self) (system_rhs self) x (output self).

Definition put_output (self : t) (x : Output) : t :=
  mk (surface self) (bed self) (thickness self) (boundary_velocity self)
     (triangulation self) (dof_handler self) (fe self)
     (quadrature_formula self) (face_quadrature_formula self)
     (hanging_node_constraints self) (sparsity_pattern self)
     (system_matrix self) (system_rhs self) (solution self)
     (output self ++ [x]).

(** *** setup_system *)
Definition setup_system (initial_step : bool) (self : t) : t :=
  let self :=
    if initial_step then
      let self := set_dof_handler self
                    (distribute_dofs (triangulation self) (fe self)) in
      let self := set_hanging_node_constraints self
                    (ConstraintMatrix_clear (hanging_node_constraints self)) in
      let self := set_hanging_node_constraints self
                    (make_hanging_node_constraints (dof_handler self)
                       (hanging_node_constraints self)) in
      let self := set_hanging_node_constraints self
                    (ConstraintMatrix_close (hanging_node_constraints self)) in
      let self := set_solution self
                    (Vector_reinit (n_dofs (dof_handler self))) in
      set_solution self
        (interpolate (dof_handler self) (boundary_velocity self)
           (solution self))
    else self in
  let self := set_sparsity_pattern self
                (SparsityPattern_reinit (n_dofs (dof_handler self))
                   (n_dofs (dof_handler self))
                   (max_couplings_between_dofs (dof_handler self))) in
  let self := set_sparsity_pattern self
                (make_sparsity_pattern (dof_handler self)
                   (sparsity_pattern self)) in
  let self := set_sparsity_pattern self
                (condense_pattern (hanging_node_constraints self)
                   (sparsity_pattern self)) in
  let self := set_sparsity_pattern self (compress (sparsity_pattern self)) in
  let self := set_system_matrix self
                (SparseMatrix.reinit (sparsity_pattern self)) in
  set_system_rhs self (Vector_reinit (n_dofs (dof_handler self))).

(** *** assemble_system *)

(** The loop over the quadrature points of a cell that adds the driving
    stress to the cell right-hand side. *)
Definition driving_stress (h : double) (grad_s : Tensor1 double)
  : Tensor1 double :=
  scale (- rho_ice * gravity * h) grad_s.

Definition add_driving_stress (self : t) (fe_values : FEValues.t double)
  (thickness_values : list double)
  (surface_gradient_values : list (Tensor1 double))
  (cell_rhs : Vector double) : Vector double :=
  let dofs_per_cell := fe_dofs_per_cell (fe self) in
  let n_q_points := quadrature_formula self in
  fold_left (fun cell_rhs q_point =>
    EllipticSystems.fill_cell_rhs_field cell_rhs
      (driving_stress (nth q_point thickness_values zero)
                      (nth q_point surface_gradient_values Tensor1_zero))
      (fe self) fe_values q_point dofs_per_cell)
    (seq 0 n_q_points) cell_rhs.

(** The loop over the faces of a cell that adds the boundary condition at
    the ice calving front. *)
Definition neumann_value (self : t) (x : Point double)
  (normal : Tensor1 double) : Tensor1 double :=
  let h := value (thickness self) x 0%nat in
  let b := value (surface self) x 0%nat - value (thickness self) x 0%nat in
  scale (lit 0.5 * gravity * (rho_ice * h * h - rho_water * b * b)) normal.

Definition add_calving_front (self : t) (cell : Cell.t double)
  (cell_rhs : Vector double) : Vector double :=
  let dofs_per_cell := fe_dofs_per_cell (fe self) in
  let n_face_q_points := face_quadrature_formula self in
  fold_left (fun cell_rhs face_number =>
    if Face.at_boundary (Cell.face cell face_number)
       && Nat.eqb (Face.boundary_indicator (Cell.face cell face_number)) 1
    then
      let fe_face_values := Face.fe_face_values (Cell.face cell face_number) in
      fold_left (fun cell_rhs q_point =>
        let x := FEFaceValues.quadrature_point fe_face_values q_point in
        EllipticSystems.fill_cell_rhs_neumann cell_rhs
          (neumann_value self x
             (FEFaceValues.normal_vector fe_face_values q_point))
          (fe self) fe_face_values q_point dofs_per_cell)
        (seq 0 n_face_q_points) cell_rhs
    else cell_rhs)
    (seq 0 faces_per_cell) cell_rhs.

(** Adding the cell matrix and right-hand side to their global
    counterparts. *)
Definition add_to_global (self : t) (cell : Cell.t double)
  (cell_matrix : FullMatrix double) (cell_rhs : Vector double)
  (system : SparseMatrix.t double SparsityPattern * Vector double)
  : SparseMatrix.t double SparsityPattern * Vector double :=
  let dofs_per_cell := fe_dofs_per_cell (fe self) in
  let local_dof_indices := Cell.get_dof_indices cell in
  fold_left (fun system i =>
    let system_matrix :=
      fold_left (fun system_matrix j =>
        SparseMatrix.add_at system_matrix (local_dof_indices i)
          (local_dof_indices j) (fm_at cell_matrix i j))
        (seq 0 dofs_per_cell) (fst system) in
    (system_matrix,
     Vector_add_at (snd system) (local_dof_indices i) (vec_at cell_rhs i)))
    (seq 0 dofs_per_cell) system.

(** The local variables of [assemble_system] that live across cells. *)
Record Locals (T : Type) := mkLocals {
  the_assembler : T;
  cell_matrix : FullMatrix double;
  cell_rhs : Vector double;
  thickness_values : list double;
  surface_gradient_values : list (Tensor1 double);
  global_matrix : SparseMatrix.t double SparsityPattern;
  global_rhs : Vector double
}.

(** The body of the loop over the cells. *)
Definition assemble_cell {T : Type} {AM : AssembleMatrix double T}
  (self : t) (loc : Locals T) (cell : Cell.t double) : Locals T :=
  let cell_matrix := FullMatrix_clear (cell_matrix loc) in
  let cell_rhs := Vector_clear (cell_rhs loc) in
  let fe_values := Cell.fe_values cell in
  let thickness_values :=
    value_list (thickness self) (FEValues.get_quadrature_points fe_values) in
  let surface_gradient_values :=
    gradient_list (surface self)
      (FEValues.get_quadrature_points fe_values) in
  let '(assembler, cell_matrix) :=
    assemble_matrix (the_assembler loc) fe_values cell_matrix in
  let cell_rhs :=
    add_driving_stress self fe_values thickness_values
      surface_gradient_values cell_rhs in
  let cell_rhs := add_calving_front self cell cell_rhs in
  let system :=
    add_to_global self cell cell_matrix cell_rhs
      (global_matrix loc, global_rhs loc) in
  mkLocals assembler cell_matrix cell_rhs thickness_values
    surface_gradient_values (fst system) (snd system).

(** [for (const auto& dof_val: boundary_values) v(dof_val.first) =
    dof_val.second]. *)
Definition set_boundary_values (boundary_values : list (nat * double))
  (v : Vector double) : Vector double :=
  fold_left (fun v dof_val => Vector_set v (fst dof_val) (snd dof_val))
    boundary_values v.

Definition assemble_system {T : Type} {AM : AssembleMatrix double T}
  (assembler : T) (self : t) : t :=
  let self := set_system_matrix self
                (SparseMatrix.clear (system_matrix self)) in
  let self := set_system_rhs self (Vector_clear (system_rhs self)) in
  let dofs_per_cell := fe_dofs_per_cell (fe self) in
  let n_q_points := quadrature_formula self in
  let loc :=
    fold_left (assemble_cell self)
      (active_cell_iterators (dof_handler self))
      (mkLocals assembler
         (FullMatrix_new dofs_per_cell dofs_per_cell)
         (Vector_reinit dofs_per_cell)
         (repeat zero n_q_points)
         (repeat Tensor1_zero n_q_points)
         (system_matrix self) (system_rhs self)) in
  let self := set_system_matrix self (global_matrix loc) in
  let self := set_system_rhs self (global_rhs loc) in
  let self := set_system_matrix self
                (condense_matrix (hanging_node_constraints self)
                   (system_matrix self)) in
  let self := set_system_rhs self
                (condense_vector (hanging_node_constraints self)
                   (system_rhs self)) in
  let boundary_values :=
    interpolate_boundary_values (dof_handler self) 0
      (boundary_velocity self) in
  (* MatrixTools::apply_boundary_values (boundary_values, system_matrix,
     solution, system_rhs) *)
  let matrix_before := system_matrix self in
  let self := set_system_matrix self
                (apply_boundary_values_matrix boundary_values matrix_before) in
  let self := set_solution self
                (set_boundary_values boundary_values (solution self)) in
  set_system_rhs self
    (apply_boundary_values_rhs boundary_values matrix_before
       (system_rhs self)).

(** *** Member functions that can fail *)

(** [cg.solve] throws [SolverControl::NoConvergence] when the control
    reports failure.  [Assert (.., ExcInternalError ())] is checked in a
    debug build only, which is the build modelled here, with the failure
    taken as the exception; a release build compiles the assertion out.
    [run] calls [output_results] for the cycles 0, 1 and 2 only, where the
    condition holds in every build. *)
Inductive Exception := NoConvergence | ExcInternalError.

Inductive Outcome (X : Type) :=
| Returns (x : X)
| Throws (e : Exception).
Arguments Returns {X} x.
Arguments Throws {X} e.

(** A member function: from the object to what it returns or throws, and
    the object it leaves. *)
Definition Method (X : Type) : Type := t -> Outcome X * t.

Definition ret {X : Type} (x : X) : Method X := fun self => (Returns x, self).

Definition throw {X : Type} (e : Exception) : Method X :=
  fun self => (Throws e, self).

Definition bind {X Y : Type} (m : Method X) (k : X -> Method Y) : Method Y :=
  fun self =>
    match m self with
    | (Returns x, self') => k x self'
    | (Throws e, self') => (Throws e, self')
    end.

Definition update (f : t -> t) : Method unit :=
  fun self => (Returns tt, f self).

Definition cout (x : t -> Output) : Method unit :=
  update (fun self => put_output self (x self)).

Notation "m ;; k" := (bind m (fun _ => k))
  (at level 61, right associativity).

(** [for (unsigned int i = from; i < from + count; ++i) body (i)]. *)
Fixpoint for_loop (from count : nat) (body : nat -> Method unit)
  : Method unit :=
  match count with
  | O => ret tt
  | S count' => body from ;; for_loop (S from) count' body
  end.

(** *** solve *)

(** The assembly step of one pass of the loop in [solve]. *)
Definition assemble_for (iteration : nat) (self : t) : t :=
  if Nat.eqb iteration 0 then
    let nu := ConstantFunction nu_guess in
    let assemble_matrix :=
      AssembleMatrixLinear.new (quadrature_formula self)
        (fe_dofs_per_cell (fe self)) (thickness self) nu in
    assemble_system assemble_matrix self
  else
    let assemble_matrix :=
      AssembleMatrixNonLinear.new (quadrature_formula self)
        (fe_dofs_per_cell (fe self)) (thickness self) (solution self) in
    assemble_system assemble_matrix self.

(** [cg.solve (system_matrix, solution, system_rhs, preconditioner)]. *)
Definition cg_solve (solver_control : SolverControl double)
  (preconditioner : SparseILU) : Method unit :=
  fun self =>
    let '(x, converged) :=
      SolverCG_solve solver_control (system_matrix self) (solution self)
        (system_rhs self) preconditioner in
    if converged then (Returns tt, set_solution self x)
    else (Throws NoConvergence, set_solution self x).

Definition solver_control : SolverControl double :=
  mkSolverControl 1000 (lit 1.0e-12).

Definition picard_iteration (iteration : nat) : Method unit :=
  update (assemble_for iteration) ;;
  (fun self =>
     let preconditioner := SparseILU_initialize (system_matrix self) in
     (cg_solve solver_control preconditioner ;;
      update (fun self =>
        set_solution self
          (distribute (hanging_node_constraints self) (solution self))))
       self).

Definition solve : Method unit := for_loop 0 5 picard_iteration.

(** *** refine_grid *)
Definition refine_grid (self : t) : t :=
  let estimated_error_per_cell :=
    VectorFloat_new (n_active_cells (triangulation self)) in
  let estimated_error_per_cell :=
    KellyErrorEstimator_estimate (dof_handler self) 2 (solution self)
      estimated_error_per_cell in
  let self := set_triangulation self
                (refine_and_coarsen_fixed_number (triangulation self)
                   estimated_error_per_cell (lit 0.3) (lit 0.03)) in
  let self := set_triangulation self
                (prepare_coarsening_and_refinement (triangulation self)) in
  let solution_transfer := SolutionTransfer_new (dof_handler self) in
  let solution_transfer :=
    prepare_for_coarsening_and_refinement solution_transfer
      (solution self) in
  let self := set_triangulation self
                (execute_coarsening_and_refinement (triangulation self)) in
  let self := set_dof_handler self
                (distribute_dofs (triangulation self) (fe self)) in
  let tmp := Vector_reinit (n_dofs (dof_handler self)) in
  let tmp := SolutionTransfer_interpolate solution_transfer
               (dof_handler self) (solution self) tmp in
  let self := set_solution self tmp in
  let boundary_values :=
    interpolate_boundary_values (dof_handler self) 0
      (boundary_velocity self) in
  let self := set_solution self
                (set_boundary_values boundary_values (solution self)) in
  let self := set_hanging_node_constraints self
                (ConstraintMatrix_clear (hanging_node_constraints self)) in
  let self := set_hanging_node_constraints self
                (make_hanging_node_constraints (dof_handler self)
                   (hanging_node_constraints self)) in
  let self := set_hanging_node_constraints self
                (ConstraintMatrix_close (hanging_node_constraints self)) in
  let self := set_solution self
                (distribute (hanging_node_constraints self)
                   (solution self)) in
  setup_system false self.

(** *** output_results *)
Definition output_results (cycle : nat) : Method unit :=
  let filename := "solution-"%string in
  let filename :=
    (filename
     ++ String (ascii_of_nat (nat_of_ascii "0" + cycle)) EmptyString)%string in
  (if Nat.ltb cycle 10 then ret tt else throw ExcInternalError) ;;
  let filename := (filename ++ ".vtk")%string in
  let solution_names := ["x_velocity"%string; "y_velocity"%string] in
  update (fun self =>
    put_output self
      (WriteVtk filename (dof_handler self) (solution self) solution_names)).

(** *** run *)
Definition run_cycle (cycle : nat) : Method unit :=
  cout (fun _ => CoutCycle cycle) ;;
  (if Nat.eqb cycle 0 then
     update (fun self =>
       set_triangulation self (refine_global (triangulation self) 2))
   else update refine_grid) ;;
  cout (fun self => CoutActiveCells (n_active_cells (triangulation self))) ;;
  update (setup_system (Nat.eqb cycle 0)) ;;
  cout (fun self => CoutDegreesOfFreedom (n_dofs (dof_handler self))) ;;
  solve ;;
  output_results cycle.

Definition run : Method unit := for_loop 0 3 run_cycle.

End ShallowShelf.
Arguments t double {FEM}.
Arguments Output double {FEM}.
Arguments Method double {FEM} X.
Arguments Locals double {FEM} T.
Arguments Returns {X} x.
Arguments Throws {X} e.
End ShallowShelf.

(* ===================================================================== *)
(** ** Statements written from the documentation *)
(* ===================================================================== *)

Section Documented.
Context {double : Type} {A : Arith double} {L : Libm double}.
Context {F : Classify double}.
Context {PC : PhysicalConstants double}.
Local Open Scope double_scope.

(** The effective strain rate squared of a strain-rate tensor and the
    viscosity of Glen's flow law at it. *)
Definition effective_strain_rate_squared (eps : SymmetricTensor2 double)
  : double :=
  first_invariant eps * first_invariant eps - second_invariant eps.

Definition glen_viscosity (eps : SymmetricTensor2 double) : double :=
  B * pow (effective_strain_rate_squared eps) (- lit 1 / lit 3).

(** The stress-strain operator of the nonlinear mode at quadrature point
    [q] of a cell: the viscosity of the velocity [u] there, integrated over
    the thickness [h] there. *)
Definition nonlinear_operator (thickness : Function2 double)
  (u : Vector double) (fe_values : FEValues.t double) (q : nat)
  : SymmetricTensor4 double :=
  let eps :=
    EllipticSystems.get_strain (FEValues.function_gradients_at fe_values u q) in
  let nu := glen_viscosity eps in
  let h := value thickness (FEValues.quadrature_point fe_values q) 0%nat in
  EllipticSystems.stress_strain_tensor (lit 2 * (nu * h)) (nu * h).

(** The stress-strain operator of the constant mode. *)
Definition linear_operator (thickness nu : Function2 double)
  (fe_values : FEValues.t double) (q : nat) : SymmetricTensor4 double :=
  let x := FEValues.quadrature_point fe_values q in
  let nu_h := value nu x 0%nat * value thickness x 0%nat in
  EllipticSystems.stress_strain_tensor (lit 2 * nu_h) nu_h.

(** The stiffness matrix of a cell for a stress-strain operator given at
    every quadrature point. *)
Definition stiffness (operator : nat -> SymmetricTensor4 double)
  (fe_values : FEValues.t double) (n_q_points dofs_per_cell : nat)
  (cell_matrix : FullMatrix double) : FullMatrix double :=
  fold_left (fun M q =>
    EllipticSystems.fill_cell_matrix M (operator q) fe_values q dofs_per_cell)
    (seq 0 n_q_points) cell_matrix.

(** The contribution of one quadrature point to entry (i,j). *)
Definition stiffness_term (C : SymmetricTensor4 double)
  (fe_values : FEValues.t double) (q i j : nat) : double :=
  scalar_product
    (contract_2_4 (EllipticSystems.shape_strain fe_values i q) C)
    (EllipticSystems.shape_strain fe_values j q)
  * FEValues.JxW fe_values q.

(** Symmetric and null local matrices, null local vectors and tensors. *)
Definition symmetric (M : FullMatrix double) : Prop :=
  forall i j, fm_at M i j = fm_at M j i.


Definition null_vector (v : Vector double) : Prop :=
  forall i, iszero (vec_at v i).

Definition null_tensor (t : Tensor1 double) : Prop :=
  iszero (t_0 t) /\ iszero (t_1 t).

(** Tensors with finite components; cell and face values all of whose
    weights, shape values, shape strains and normals are finite; finite
    physical constants, as far as the load uses them. *)
Definition finite_tensor (t : Tensor1 double) : Prop :=
  isfinite (t_0 t) /\ isfinite (t_1 t).

Definition finite_strain (s : SymmetricTensor2 double) : Prop :=
  isfinite (s_00 s) /\ isfinite (s_11 s) /\ isfinite (s_01 s).

Definition finite_values (fe_values : FEValues.t double) : Prop :=
  forall i q,
    isfinite (FEValues.shape_value fe_values i q)
    /\ isfinite (FEValues.JxW fe_values q)
    /\ finite_strain (EllipticSystems.shape_strain fe_values i q).

Definition finite_face_values (fe_face_values : FEFaceValues.t double)
  : Prop :=
  forall i q,
    isfinite (FEFaceValues.shape_value fe_face_values i q)
    /\ isfinite (FEFaceValues.JxW fe_face_values q)
    /\ finite_tensor (FEFaceValues.normal_vector fe_face_values q).

Definition finite_constants : Prop :=
  isfinite rho_ice /\ isfinite rho_water
  /\ isfinite (lit 0.5 * gravity) /\ isfinite (- rho_ice * gravity).

End Documented.

(* ===================================================================== *)
(** ** The load, the Picard driver and the refinement loop, as documented *)
(* ===================================================================== *)

Declare Scope method_scope.
Delimit Scope method_scope with method.
Notation "m ;; k" := (ShallowShelf.bind m (fun _ => k))
  (at level 61, right associativity) : method_scope.

Section DocumentedDriver.
Context {double : Type} {A : Arith double} {L : Libm double}.
Context {F : Classify double}.
Context {PC : PhysicalConstants double}.
Context {FEM : DealII double}.
Local Open Scope double_scope.

(** A face on the calving front: on the boundary of the mesh, with boundary
    tag 1. *)
Definition calving_front (face : Face.t double) : bool :=
  Face.at_boundary face && Nat.eqb (Face.boundary_indicator face) 1.

(** The load that the sea and the ice exert through a face, summed over
    the quadrature points of the face. *)
Definition front_load (self : ShallowShelf.t double) (rhs : Vector double)
  (face : Face.t double) : Vector double :=
  let fe_face_values := Face.fe_face_values face in
  fold_left (fun rhs q =>
    let x := FEFaceValues.quadrature_point fe_face_values q in
    let n := FEFaceValues.normal_vector fe_face_values q in
    let h := value (ShallowShelf.thickness self) x 0%nat in
    let b := value (ShallowShelf.surface self) x 0%nat
             - value (ShallowShelf.thickness self) x 0%nat in
    EllipticSystems.fill_cell_rhs_neumann rhs
      (scale (lit 0.5 * gravity * (rho_ice * h * h - rho_water * b * b)) n)
      (ShallowShelf.fe self) fe_face_values q
      (fe_dofs_per_cell (ShallowShelf.fe self)))
    (seq 0 (ShallowShelf.face_quadrature_formula self)) rhs.

(** A face at whose quadrature points there is no ice and the surface is at
    sea level. *)
Definition open_sea (self : ShallowShelf.t double) (face : Face.t double)
  : Prop :=
  forall q, q < ShallowShelf.face_quadrature_formula self ->
    let x := FEFaceValues.quadrature_point (Face.fe_face_values face) q in
    iszero (value (ShallowShelf.thickness self) x 0%nat)
    /\ iszero (value (ShallowShelf.surface self) x 0%nat).

(** One Picard iteration: build the system (constant viscosity in iteration
    0, the viscosity of the current velocity afterwards), solve it by
    conjugate gradients preconditioned from the matrix just assembled, and
    redistribute the hanging-node constraints on the solution. *)
Definition picard_step (iteration : nat) (self : ShallowShelf.t double)
  : ShallowShelf.Outcome unit * ShallowShelf.t double :=
  let n_q_points := ShallowShelf.quadrature_formula self in
  let dofs_per_cell := fe_dofs_per_cell (ShallowShelf.fe self) in
  let assembled :=
    match iteration with
    | O =>
        ShallowShelf.assemble_system
          (AssembleMatrixLinear.new n_q_points dofs_per_cell
             (ShallowShelf.thickness self) (ConstantFunction nu_guess))
          self
    | S _ =>
        ShallowShelf.assemble_system
          (AssembleMatrixNonLinear.new n_q_points dofs_per_cell
             (ShallowShelf.thickness self) (ShallowShelf.solution self))
          self
    end in
  let system_matrix := ShallowShelf.system_matrix assembled in
  let solved :=
    SolverCG_solve (mkSolverControl 1000 (lit 1.0e-12)) system_matrix
      (ShallowShelf.solution assembled) (ShallowShelf.system_rhs assembled)
      (SparseILU_initialize system_matrix) in
  if snd solved then
    (ShallowShelf.Returns tt,
     ShallowShelf.set_solution assembled
       (distribute (ShallowShelf.hanging_node_constraints assembled)
          (fst solved)))
  else
    (ShallowShelf.Throws ShallowShelf.NoConvergence,
     ShallowShelf.set_solution assembled (fst solved)).

(** The global system reinitialised for a handler and its constraints. *)
Definition rebuilt_pattern (handler : DoFHandler)
  (constraints : ConstraintMatrix) : SparsityPattern :=
  compress
    (condense_pattern constraints
       (make_sparsity_pattern handler
          (SparsityPattern_reinit (n_dofs handler) (n_dofs handler)
             (max_couplings_between_dofs handler)))).

(** The object at the start of the nonlinear solve of cycle 0: the mesh
    refined globally, degrees of freedom distributed, constraints built,
    the boundary velocity interpolated as the initial guess, the global
    system sized for the mesh. *)
Definition fresh_setup (self : ShallowShelf.t double) : ShallowShelf.t double :=
  let mesh := refine_global (ShallowShelf.triangulation self) 2 in
  let handler := distribute_dofs mesh (ShallowShelf.fe self) in
  let constraints :=
    ConstraintMatrix_close
      (make_hanging_node_constraints handler
         (ConstraintMatrix_clear
            (ShallowShelf.hanging_node_constraints self))) in
  let guess :=
    interpolate handler (ShallowShelf.boundary_velocity self)
      (Vector_reinit (n_dofs handler)) in
  ShallowShelf.mk (ShallowShelf.surface self) (ShallowShelf.bed self)
    (ShallowShelf.thickness self) (ShallowShelf.boundary_velocity self)
    mesh handler (ShallowShelf.fe self)
    (ShallowShelf.quadrature_formula self)
    (ShallowShelf.face_quadrature_formula self)
    constraints (rebuilt_pattern handler constraints)
    (SparseMatrix.reinit (rebuilt_pattern handler constraints))
    (Vector_reinit (n_dofs handler)) guess
    (ShallowShelf.output self
     ++ [ShallowShelf.CoutCycle 0;
         ShallowShelf.CoutActiveCells (n_active_cells mesh);
         ShallowShelf.CoutDegreesOfFreedom (n_dofs handler)]).

(** The object at the start of the nonlinear solve of a later cycle: the
    error estimated from the solution of the cycle before, the top 30% of
    the cells refined and the bottom 3% coarsened (fixed number), the old
    solution interpolated to the new mesh, the values on boundary 0 imposed
    exactly, the constraints rebuilt and distributed, the global system
    sized for the new mesh. *)
Definition refined_setup (cycle : nat) (self : ShallowShelf.t double)
  : ShallowShelf.t double :=
  let old_mesh := ShallowShelf.triangulation self in
  let old_handler := ShallowShelf.dof_handler self in
  let old_solution := ShallowShelf.solution self in
  let error :=
    KellyErrorEstimator_estimate old_handler 2 old_solution
      (VectorFloat_new (n_active_cells old_mesh)) in
  let mesh :=
    execute_coarsening_and_refinement
      (prepare_coarsening_and_refinement
         (refine_and_coarsen_fixed_number old_mesh error
            (lit 0.3) (lit 0.03))) in
  let handler := distribute_dofs mesh (ShallowShelf.fe self) in
  let transferred :=
    SolutionTransfer_interpolate
      (prepare_for_coarsening_and_refinement
         (SolutionTransfer_new old_handler) old_solution)
      handler old_solution (Vector_reinit (n_dofs handler)) in
  let dirichlet :=
    ShallowShelf.set_boundary_values
      (interpolate_boundary_values handler 0
         (ShallowShelf.boundary_velocity self))
      transferred in
  let constraints :=
    ConstraintMatrix_close
      (make_hanging_node_constraints handler
         (ConstraintMatrix_clear
            (ShallowShelf.hanging_node_constraints self))) in
  ShallowShelf.mk (ShallowShelf.surface self) (ShallowShelf.bed self)
    (ShallowShelf.thickness self) (ShallowShelf.boundary_velocity self)
    mesh handler (ShallowShelf.fe self)
    (ShallowShelf.quadrature_formula self)
    (ShallowShelf.face_quadrature_formula self)
    constraints (rebuilt_pattern handler constraints)
    (SparseMatrix.reinit (rebuilt_pattern handler constraints))
    (Vector_reinit (n_dofs handler)) (distribute constraints dirichlet)
    (ShallowShelf.output self
     ++ [ShallowShelf.CoutCycle cycle;
         ShallowShelf.CoutActiveCells (n_active_cells mesh);
         ShallowShelf.CoutDegreesOfFreedom (n_dofs handler)]).

Definition before_solve (cycle : nat) (self : ShallowShelf.t double)
  : ShallowShelf.t double :=
  match cycle with
  | O => fresh_setup self
  | S _ => refined_setup cycle self
  end.

End DocumentedDriver.

(* ===================================================================== *)
(** ** A one-cell shelf to run the definitions on *)
(* ===================================================================== *)

Module Sample.
Section Sample.
Context {double : Type} {A : Arith double}.
Local Open Scope double_scope.

(** Densities in kg/m^3, gravity in m/s^2, the flow-law parameters of cold
    ice. *)
Definition constants : PhysicalConstants double := {|
  rho_ice := lit 917;
  rho_water := lit 1024;
  gravity := lit 9.81;
  A0_cold := lit 3.985e-13;
  Q_cold := lit 60000;
  idealgas := lit 8.3144621;
  Temp := lit 263.15
|}.

(** Grounded ice: the thickness is the surface elevation less the bed
    elevation. *)
Definition thickness_model : IceThicknessModel double := {|
  IceThickness surface bed :=
    mkFunction2
      (fun x c => value surface x c - value bed x c)
      (fun x c =>
         mkTensor1 (t_0 (gradient surface x c) - t_0 (gradient bed x c))
                   (t_1 (gradient surface x c) - t_1 (gradient bed x c)))
|}.

Definition origin : Point double := mkPoint zero zero.

(** One quadrature point with unit weight; every shape function has value
    1 and gradient (1,0) in its own component. *)
Definition fe_values : FEValues.t double :=
  FEValues.mk 1 (fun _ => origin) (fun _ => one) (fun _ _ => one)
    (fun i _ c =>
       if Nat.eqb (i mod 2) c then mkTensor1 one zero else Tensor1_zero)
    (fun u _ => [mkTensor1 (vec_at u 0) zero; mkTensor1 zero (vec_at u 1)]).

(** A face with one quadrature point, unit weight and normal (1,0). *)
Definition fe_face_values : FEFaceValues.t double :=
  FEFaceValues.mk (fun _ => origin) (fun _ => mkTensor1 one zero)
    (fun _ => one) (fun _ _ => one).

Definition front_face : Face.t double := Face.mk true 1 fe_face_values.

Definition inner_face : Face.t double := Face.mk false 0 fe_face_values.

(** A cell whose face 0 is on the calving front, and a cell in the
    interior. *)
Definition front_cell : Cell.t double :=
  Cell.mk fe_values
    (fun face_number =>
       match face_number with O => front_face | S _ => inner_face end)
    (fun i => i).

Definition inner_cell : Cell.t double :=
  Cell.mk fe_values (fun _ => inner_face) (fun i => i).

(** A stand-in for the finite-element library: a mesh is its refinement
    level, which is also its number of degrees of freedom; the only cell is
    [front_cell]; constraints, boundary values and sparsity are trivial;
    the linear solver returns the right-hand side in a vector one entry
    longer than its starting vector, and reports success while the
    starting vector is shorter than [limit]. *)
Definition fem (limit : nat) : DealII double := {|
  Triangulation := nat;
  DoFHandler := nat;
  ConstraintMatrix := unit;
  SparsityPattern := nat * nat;
  SparseILU := unit;
  VectorFloat := nat;
  SolutionTransfer := unit;
  refine_global := fun mesh times => (mesh + times)%nat;
  n_active_cells := fun mesh => mesh;
  prepare_coarsening_and_refinement := fun mesh => mesh;
  execute_coarsening_and_refinement := fun mesh => S mesh;
  DoFHandler_new := fun _ => 0;
  distribute_dofs := fun mesh _ => mesh;
  n_dofs := fun handler => handler;
  max_couplings_between_dofs := fun handler => handler;
  active_cell_iterators := fun _ => [front_cell];
  ConstraintMatrix_new := tt;
  ConstraintMatrix_clear := fun c => c;
  make_hanging_node_constraints := fun _ c => c;
  ConstraintMatrix_close := fun c => c;
  condense_pattern := fun _ p => p;
  condense_matrix := fun _ M => M;
  condense_vector := fun _ v => v;
  distribute := fun _ v => v;
  SparsityPattern_new := (0, 0);
  SparsityPattern_reinit := fun m n _ => (m, n);
  make_sparsity_pattern := fun _ p => p;
  compress := fun p => p;
  interpolate := fun _ _ v => v;
  interpolate_boundary_values := fun _ _ _ => [];
  apply_boundary_values_matrix := fun _ M => M;
  apply_boundary_values_rhs := fun _ _ v => v;
  SparseILU_initialize := fun _ => tt;
  SolverCG_solve := fun _ _ x b _ =>
    (mkVector (S (vec_size x)) (vec_at b), Nat.ltb (vec_size x) limit);
  VectorFloat_new := fun n => n;
  KellyErrorEstimator_estimate := fun _ _ _ e => e;
  refine_and_coarsen_fixed_number := fun mesh _ _ _ => mesh;
  SolutionTransfer_new := fun _ => tt;
  prepare_for_coarsening_and_refinement := fun t _ => t;
  SolutionTransfer_interpolate := fun _ _ _ tmp => tmp;
  FESystem_FE_Q := fun _ components =>
    mkFiniteElement components (fun i => i mod components);
  QGauss_size := fun _ _ => 1
|}.

(** Bare ground at the front: no ice on a flat bed one metre above sea
    level; the surface is the one [IceSurface] gives for that bed and
    thickness. *)
Definition bed : Function2 double := ConstantFunction one.

Definition no_ice : Function2 double := ConstantFunction zero.

Definition surface : Function2 double :=
  mkFunction2 (IceSurface.value (PC := constants) (IceSurface.mk bed no_ice))
              (fun _ _ => Tensor1_zero).

Definition bare_ground (limit : nat)
  : ShallowShelf.t double (FEM := fem limit) :=
  ShallowShelf.new (FEM := fem limit) (ITM := thickness_model)
    0 surface bed (fun _ => Tensor1_zero).

(** Open water at the front: no ice over a flat bed 500 m below sea level;
    the surface [IceSurface] gives is the sea level. *)
Definition sea_bed : Function2 double := ConstantFunction (- lit 500).

Definition sea_surface : Function2 double :=
  mkFunction2
    (IceSurface.value (PC := constants) (IceSurface.mk sea_bed no_ice))
    (fun _ _ => Tensor1_zero).

Definition open_water (limit : nat)
  : ShallowShelf.t double (FEM := fem limit) :=
  ShallowShelf.mk (FEM := fem limit) sea_surface sea_bed no_ice
    (fun _ => Tensor1_zero) 0 0 (mkFiniteElement 2 (fun i => i mod 2)) 1 1
    tt (0, 0) (SparseMatrix.reinit (0, 0)) (Vector_reinit 0)
    (Vector_reinit 0) [].

(** The locals of [assemble_system] before the first cell, with a
    constant-viscosity assembler. *)
Definition locals (limit : nat) (nu : double)
  : ShallowShelf.Locals double (FEM := fem limit)
      (AssembleMatrixLinear.t double) :=
  ShallowShelf.mkLocals (FEM := fem limit)
    (AssembleMatrixLinear.new 1 2 no_ice (ConstantFunction nu))
    (FullMatrix_new 2 2) (Vector_reinit 2) (repeat zero 1)
    (repeat Tensor1_zero 1) (SparseMatrix.reinit (0, 0)) (Vector_reinit 0).

(** The names of the files a run has written, in order. *)
Definition files_written (limit : nat)
  (out : list (ShallowShelf.Output double (FEM := fem limit))) : list string :=
  flat_map (fun x =>
    match x with
    | ShallowShelf.WriteVtk filename _ _ _ => [filename]
    | _ => []
    end) out.

(** A floating shelf: 300 m of ice over a bed 500 m below sea level. *)
Definition shelf : IceSurface.t double :=
  IceSurface.mk (ConstantFunction (- lit 500)) (ConstantFunction (lit 300)).

End Sample.
End Sample.

(* ===================================================================== *)
(** ** What the member functions leave alone, and the files of a run *)
(* ===================================================================== *)

Section DocumentedFrame.
Context {double : Type} {A : Arith double} {FEM : DealII double}.

(** Two objects that differ at most in the global system and the solution:
    the fields, the mesh, the degrees of freedom, the element, the
    quadrature formulas, the constraints, the sparsity pattern and what was
    printed and written are the same. *)
Definition same_setting (s s' : ShallowShelf.t double) : Prop :=
  ShallowShelf.surface s' = ShallowShelf.surface s
  /\ ShallowShelf.bed s' = ShallowShelf.bed s
  /\ ShallowShelf.thickness s' = ShallowShelf.thickness s
  /\ ShallowShelf.boundary_velocity s' = ShallowShelf.boundary_velocity s
  /\ ShallowShelf.triangulation s' = ShallowShelf.triangulation s
  /\ ShallowShelf.dof_handler s' = ShallowShelf.dof_handler s
  /\ ShallowShelf.fe s' = ShallowShelf.fe s
  /\ ShallowShelf.quadrature_formula s' = ShallowShelf.quadrature_formula s
  /\ ShallowShelf.face_quadrature_formula s'
     = ShallowShelf.face_quadrature_formula s
  /\ ShallowShelf.hanging_node_constraints s'
     = ShallowShelf.hanging_node_constraints s
  /\ ShallowShelf.sparsity_pattern s' = ShallowShelf.sparsity_pattern s
  /\ ShallowShelf.output s' = ShallowShelf.output s.

(** The names of the files among the outputs, in the order of writing. *)
Definition written_files (out : list (ShallowShelf.Output double))
  : list string :=
  flat_map (fun x =>
    match x with
    | ShallowShelf.WriteVtk filename _ _ _ => [filename]
    | _ => []
    end) out.

(** The decimal digit of a number below ten, and the file name with that
    digit. *)
Definition digit (c : nat) : ascii :=
  nth c ["0"; "1"; "2"; "3"; "4"; "5"; "6"; "7"; "8"; "9"]%char "0"%char.

Definition results_file (cycle : nat) : string :=
  ("solution-" ++ String (digit cycle) ".vtk")%string.

End DocumentedFrame.

Section FloatingShelf.
Context {double : Type} {A : Arith double}.
Local Open Scope double_scope.

(** A floating shelf at the front: 300 m of ice over a bed 500 m below sea
    level, with the surface [IceSurface] gives. *)
Definition floating_surface : Function2 double :=
  mkFunction2 (IceSurface.value (PC := Sample.constants) Sample.shelf)
              (fun _ _ => Tensor1_zero).

Definition floating_shelf (limit : nat)
  : ShallowShelf.t double (FEM := Sample.fem limit) :=
  ShallowShelf.mk (FEM := Sample.fem limit) floating_surface
    (IceSurface.bed Sample.shelf) (IceSurface.thickness Sample.shelf)
    (fun _ => Tensor1_zero) 0 0 (mkFiniteElement 2 (fun i => i mod 2)) 1 1
    tt (0, 0) (SparseMatrix.reinit (0, 0)) (Vector_reinit 0)
    (Vector_reinit 0) [].

End FloatingShelf.

Section QuadraticForm.
Context {double : Type} {A : Arith double}.
Local Open Scope double_scope.

(** The sum of [f 0], ..., [f (n - 1)], accumulated from zero in that
    order, and the quadratic form of the leading block of a cell matrix on
    a vector of local coefficients. *)
Definition sum_upto (n : nat) (f : nat -> double) : double :=
  fold_left (fun acc i => acc + f i) (seq 0 n) zero.

Definition quadratic_form (K : FullMatrix double) (n : nat)
  (v : nat -> double) : double :=
  sum_upto n (fun i => sum_upto n (fun j => v i * fm_at K i j * v j)).

End QuadraticForm.

Section DocumentedGlobal.
Context {double : Type} {A : Arith double} {FEM : DealII double}.

(** A symmetric global matrix, and a cell whose local degrees of freedom
    have distinct global indices. *)
Definition symmetric_global (M : SparseMatrix.t double SparsityPattern)
  : Prop :=
  forall k l, SparseMatrix.at_ M k l = SparseMatrix.at_ M l k.

Definition distinct_dof_indices (n : nat) (cell : Cell.t double) : Prop :=
  forall a b, a < n -> b < n -> a <> b ->
    Cell.get_dof_indices cell a <> Cell.get_dof_indices cell b.

(** The members that no member function assigns: the fields, the element
    and the quadrature formulas. *)
Definition same_configuration (s s' : ShallowShelf.t double) : Prop :=
  ShallowShelf.surface s' = ShallowShelf.surface s
  /\ ShallowShelf.bed s' = ShallowShelf.bed s
  /\ ShallowShelf.thickness s' = ShallowShelf.thickness s
  /\ ShallowShelf.boundary_velocity s' = ShallowShelf.boundary_velocity s
  /\ ShallowShelf.fe s' = ShallowShelf.fe s
  /\ ShallowShelf.quadrature_formula s' = ShallowShelf.quadrature_formula s
  /\ ShallowShelf.face_quadrature_formula s'
     = ShallowShelf.face_quadrature_formula s.

End DocumentedGlobal.

(* ===================================================================== *)
(** ** Finite load values, the stopping rule of the solver control, and
       doubles at their limits *)
(* ===================================================================== *)

Section DocumentedLoad.
Context {double : Type} {A : Arith double} {F : Classify double}.

(** Cell values whose shape values and quadrature weights are finite: what
    the load vector reads of them. *)
Definition finite_load_values (fe_values : FEValues.t double) : Prop :=
  forall i q,
    isfinite (FEValues.shape_value fe_values i q)
    /\ isfinite (FEValues.JxW fe_values q).

End DocumentedLoad.

(** The comparison [a <= b] of doubles, which the stopping rule uses. *)
Class Leq (double : Type) := {
  leq : double -> double -> bool
}.

#[export] Instance R_Leq : Leq R := {
  leq := fun a b => if Rle_dec a b then true else false
}.

#[export] Instance binary64_Leq : Leq float | 10 := {
  leq := PrimFloat.leb
}.


Section StoppingRule.
Context {double : Type} {A : Arith double} {C : Leq double}.


End StoppingRule.

Section Extremes.

(** Ice [2^1015] m thick, about [3.5e305], under a flat surface at sea
    level: a finite thickness for which [- rho_ice * gravity * h]
    overflows. *)
Definition thick_ice : Function2 float := ConstantFunction 0x1p1015%float.

Definition heavy_shelf : ShallowShelf.t float (FEM := Sample.fem 4) :=
  ShallowShelf.mk (FEM := Sample.fem 4) (ConstantFunction 0%float)
    (ConstantFunction (-0x1p1015)%float) thick_ice
    (fun _ => Tensor1_zero) 0 0 (mkFiniteElement 2 (fun i => i mod 2)) 1 1
    tt (0, 0) (SparseMatrix.reinit (0, 0)) (Vector_reinit 0)
    (Vector_reinit 0) [].





End Extremes.

(* ===================================================================== *)
(** ** Loops over index ranges *)
(* ===================================================================== *)

Section Loops.
Context {X Y : Type}.

Lemma fold_left_ext_in (f g : X -> Y -> X) (l : list Y) (x : X) :
  (forall a y, In y l -> f a y = g a y) ->
  fold_left f l x = fold_left g l x.
Proof.
  revert x. induction l as [|y l IH]; intros x H; simpl.
  - reflexivity.
  - rewrite (H x y) by (left; reflexivity).
    apply IH. intros a z Hz. apply H. right. exact Hz.
Qed.

Lemma fold_left_invariant (P : X -> Prop) (f : X -> Y -> X) (l : list Y)
  (x : X) :
  P x -> (forall a y, In y l -> P a -> P (f a y)) -> P (fold_left f l x).
Proof.
  revert x. induction l as [|y l IH]; intros x Hx H; simpl.
  - exact Hx.
  - apply IH.
    + apply H; [left; reflexivity | exact Hx].
    + intros a z Hz. apply H. right. exact Hz.
Qed.

Lemma fold_left_filter (c : Y -> bool) (f : X -> Y -> X) (l : list Y)
  (x : X) :
  fold_left (fun a y => if c y then f a y else a) l x
  = fold_left f (filter c l) x.
Proof.
  revert x. induction l as [|y l IH]; intros x; simpl.
  - reflexivity.
  - destruct (c y); simpl; apply IH.
Qed.

Lemma nth_map_seq (g : nat -> X) (n q : nat) (d : X) :
  q < n -> nth q (map g (seq 0 n)) d = g q.
Proof.
  intros Hq.
  rewrite (nth_indep _ d (g 0)) by (rewrite length_map, length_seq; exact Hq).
  rewrite (map_nth g (seq 0 n) 0 q), seq_nth by exact Hq.
  reflexivity.
Qed.

End Loops.

Section Sampling.
Context {double : Type} {A : Arith double}.

(** Sampling a field at the quadrature points of a cell gives, at index
    [q], the field at the [q]-th point. *)
Lemma nth_value_list (f : Function2 double) (fe_values : FEValues.t double)
  (q : nat) (d : double) :
  q < FEValues.n_quadrature_points fe_values ->
  nth q (value_list f (FEValues.get_quadrature_points fe_values)) d
  = value f (FEValues.quadrature_point fe_values q) 0.
Proof.
  intros Hq. unfold value_list, FEValues.get_quadrature_points.
  rewrite map_map.
  exact (nth_map_seq
           (fun k => value f (FEValues.quadrature_point fe_values k) 0)
           d Hq).
Qed.

Lemma nth_gradient_list (f : Function2 double)
  (fe_values : FEValues.t double) (q : nat) (d : Tensor1 double) :
  q < FEValues.n_quadrature_points fe_values ->
  nth q (gradient_list f (FEValues.get_quadrature_points fe_values)) d
  = gradient f (FEValues.quadrature_point fe_values q) 0.
Proof.
  intros Hq. unfold gradient_list, FEValues.get_quadrature_points.
  rewrite map_map.
  exact (nth_map_seq
           (fun k => gradient f (FEValues.quadrature_point fe_values k) 0)
           d Hq).
Qed.

Lemma nth_function_gradients (fe_values : FEValues.t double)
  (u : Vector double) (q : nat) (d : list (Tensor1 double)) :
  q < FEValues.n_quadrature_points fe_values ->
  nth q (FEValues.get_function_gradients fe_values u) d
  = FEValues.function_gradients_at fe_values u q.
Proof.
  intros Hq. unfold FEValues.get_function_gradients.
  apply nth_map_seq. exact Hq.
Qed.

End Sampling.

(* ===================================================================== *)
(** ** The viscosity closure and the element assemblers *)
(* ===================================================================== *)

Section Assemblers.
Context {double : Type} {A : Arith double} {L : Libm double}.
Context {PC : PhysicalConstants double}.
Local Open Scope double_scope.

(** The constant-mode assembler builds, at every quadrature point, the
    operator of the viscosity field times the thickness. *)
Lemma linear_assembler_stiffness (self : AssembleMatrixLinear.t double)
  (fe_values : FEValues.t double) (cell_matrix : FullMatrix double) :
  AssembleMatrixLinear.n_q_points self
    <= FEValues.n_quadrature_points fe_values ->
  snd (AssembleMatrixLinear.operator_call self fe_values cell_matrix)
  = stiffness
      (linear_operator (AssembleMatrixLinear.thickness self)
         (AssembleMatrixLinear.nu self) fe_values)
      fe_values (AssembleMatrixLinear.n_q_points self)
      (AssembleMatrixLinear.dofs_per_cell self)
      (FullMatrix_clear cell_matrix).
Proof.
  intros Hn. unfold AssembleMatrixLinear.operator_call, stiffness. simpl.
  apply fold_left_ext_in. intros M q Hq.
  apply in_seq in Hq.
  unfold linear_operator.
  rewrite !nth_value_list by lia.
  reflexivity.
Qed.

(** The nonlinear-mode assembler builds, at every quadrature point, the
    operator of the viscosity of the velocity there times the thickness. *)
Lemma nonlinear_assembler_stiffness (self : AssembleMatrixNonLinear.t double)
  (fe_values : FEValues.t double) (cell_matrix : FullMatrix double) :
  AssembleMatrixNonLinear.n_q_points self
    <= FEValues.n_quadrature_points fe_values ->
  snd (AssembleMatrixNonLinear.operator_call self fe_values cell_matrix)
  = stiffness
      (nonlinear_operator (AssembleMatrixNonLinear.thickness self)
         (AssembleMatrixNonLinear.solution self) fe_values)
      fe_values (AssembleMatrixNonLinear.n_q_points self)
      (AssembleMatrixNonLinear.dofs_per_cell self)
      (FullMatrix_clear cell_matrix).
Proof.
  intros Hn. unfold AssembleMatrixNonLinear.operator_call, stiffness. simpl.
  apply fold_left_ext_in. intros M q Hq.
  apply in_seq in Hq.
  unfold nonlinear_operator, glen_viscosity, effective_strain_rate_squared.
  rewrite nth_value_list by lia.
  rewrite nth_function_gradients by lia.
  reflexivity.
Qed.

(** C1. In the nonlinear mode the assembler computes, at every quadrature
    point, the viscosity [nu = B * eps2^(-1/3)] from the strain rate of the
    current velocity gradient, with
    [eps2 = trace(eps)^2 - second_invariant(eps)] and
    [B = 0.5 * (A0_cold * exp(-Q_cold/(idealgas*Temp)))^(-1/3)], and builds
    the operator [stress_strain (2 * nu * h, nu * h)] with the thickness [h]
    sampled at that point. *)
Theorem nonlinear_assembler_viscosity (self : AssembleMatrixNonLinear.t double)
  (fe_values : FEValues.t double) (cell_matrix : FullMatrix double) :
  AssembleMatrixNonLinear.n_q_points self
    <= FEValues.n_quadrature_points fe_values ->
  snd (AssembleMatrixNonLinear.operator_call self fe_values cell_matrix)
  = stiffness
      (fun q =>
         let eps :=
           EllipticSystems.get_strain
             (FEValues.function_gradients_at fe_values
                (AssembleMatrixNonLinear.solution self) q) in
         let eps2 :=
           first_invariant eps * first_invariant eps - second_invariant eps in
         let nu := B * pow eps2 (- lit 1 / lit 3) in
         let h :=
           value (AssembleMatrixNonLinear.thickness self)
             (FEValues.quadrature_point fe_values q) 0%nat in
         EllipticSystems.stress_strain_tensor (lit 2 * (nu * h)) (nu * h))
      fe_values (AssembleMatrixNonLinear.n_q_points self)
      (AssembleMatrixNonLinear.dofs_per_cell self)
      (FullMatrix_clear cell_matrix)
  /\ B = lit 0.5 * pow (A0_cold * exp (- Q_cold / (idealgas * Temp)))
                       (- lit 1 / lit 3).
Proof.
  intros Hn. split; [|reflexivity].
  rewrite nonlinear_assembler_stiffness by exact Hn.
  reflexivity.
Qed.

End Assemblers.

Section AssemblerFrame.
Context {double : Type} {A : Arith double} {L : Libm double}.
Context {PC : PhysicalConstants double}.
Local Open Scope double_scope.

(** Two cell matrices of one shape are cleared to the same matrix. *)
Lemma FullMatrix_clear_shape (M M' : FullMatrix double) :
  fm_rows M = fm_rows M' -> fm_cols M = fm_cols M' ->
  FullMatrix_clear M = FullMatrix_clear M'.
Proof.
  intros Hr Hc. unfold FullMatrix_clear. rewrite Hr, Hc. reflexivity.
Qed.

(** C10. A call of either assembler first resets the cell matrix it is
    given, so the matrix it produces does not depend on what the buffer (or
    the assembler's scratch vectors) held before; besides the buffer the
    call rewrites only the scratch vectors of the assembler: the members it
    was constructed from are left as they were. *)
Theorem assembler_resets_cell_matrix (fe_values : FEValues.t double)
  (cell_matrix cell_matrix' : FullMatrix double) :
  fm_rows cell_matrix = fm_rows cell_matrix' ->
  fm_cols cell_matrix = fm_cols cell_matrix' ->
  (forall n_q_points dofs_per_cell thickness nu scratch1 scratch2
          scratch1' scratch2',
      let self := AssembleMatrixLinear.mk n_q_points dofs_per_cell thickness
                    nu scratch1 scratch2 in
      let self' := AssembleMatrixLinear.mk n_q_points dofs_per_cell thickness
                     nu scratch1' scratch2' in
      let result := assemble_matrix self fe_values cell_matrix in
      result = assemble_matrix self' fe_values cell_matrix'
      /\ snd result
         = snd (assemble_matrix self fe_values (FullMatrix_clear cell_matrix))
      /\ AssembleMatrixLinear.n_q_points (fst result) = n_q_points
      /\ AssembleMatrixLinear.dofs_per_cell (fst result) = dofs_per_cell
      /\ AssembleMatrixLinear.thickness (fst result) = thickness
      /\ AssembleMatrixLinear.nu (fst result) = nu)
  /\
  (forall n_q_points dofs_per_cell thickness solution scratch1 scratch2
          scratch1' scratch2',
      let self := AssembleMatrixNonLinear.mk n_q_points dofs_per_cell
                    thickness solution scratch1 scratch2 in
      let self' := AssembleMatrixNonLinear.mk n_q_points dofs_per_cell
                     thickness solution scratch1' scratch2' in
      let result := assemble_matrix self fe_values cell_matrix in
      result = assemble_matrix self' fe_values cell_matrix'
      /\ snd result
         = snd (assemble_matrix self fe_values (FullMatrix_clear cell_matrix))
      /\ AssembleMatrixNonLinear.n_q_points (fst result) = n_q_points
      /\ AssembleMatrixNonLinear.dofs_per_cell (fst result) = dofs_per_cell
      /\ AssembleMatrixNonLinear.thickness (fst result) = thickness
      /\ AssembleMatrixNonLinear.solution (fst result) = solution).
Proof.
  intros Hr Hc. split.
  - intros n_q dofs th nu s1 s2 s1' s2' self self' result.
    subst result self self'. simpl.
    unfold AssembleMatrixLinear.operator_call. simpl.
    rewrite (FullMatrix_clear_shape _ _ Hr Hc).
    repeat split; reflexivity.
  - intros n_q dofs th u s1 s2 s1' s2' self self' result.
    subst result self self'. simpl.
    unfold AssembleMatrixNonLinear.operator_call. simpl.
    rewrite (FullMatrix_clear_shape _ _ Hr Hc).
    repeat split; reflexivity.
Qed.

End AssemblerFrame.

(* ===================================================================== *)
(** ** The ice surface *)
(* ===================================================================== *)

Section Surface.
Context {double : Type} {A : Arith double} {L : Libm double}.
Context {PC : PhysicalConstants double}.
Local Open Scope double_scope.

(** C9. At every point and for every component index, [IceSurface::value]
    returns the maximum of the grounded surface elevation
    [bed + thickness] and the flotation height
    [(1 - rho_ice/rho_water) * thickness]: the flotation height when the
    grounded elevation compares less than it, the grounded elevation
    otherwise; the component index has no effect. *)
Theorem ice_surface_value (self : IceSurface.t double) (x : Point double)
  (component : nat) :
  let h := value (IceSurface.thickness self) x 0%nat in
  let b := value (IceSurface.bed self) x 0%nat in
  let grounded := b + h in
  let flotation := (lit 1 - rho_ice / rho_water) * h in
  IceSurface.value self x component = std_max grounded flotation
  /\ IceSurface.value self x component
     = (if ltb grounded flotation then flotation else grounded)
  /\ forall component',
       IceSurface.value self x component'
       = IceSurface.value self x component.
Proof.
  intros h b grounded flotation.
  unfold IceSurface.value, std_max.
  fold h. fold b. fold grounded. fold flotation.
  destruct (ltb grounded flotation); repeat split; intros; reflexivity.
Qed.

End Surface.

(* ===================================================================== *)
(** ** Entries written by the helper loops *)
(* ===================================================================== *)

Section Entries.
Context {double : Type} {A : Arith double}.
Local Open Scope double_scope.

Lemma fm_at_add_row (g : nat -> double) (i n : nat) (M : FullMatrix double)
  (a b : nat) :
  fm_at (fold_left (fun M j => FullMatrix_add_at M i j (g j)) (seq 0 n) M) a b
  = if Nat.eqb a i && Nat.ltb b n then fm_at M a b + g b else fm_at M a b.
Proof.
  induction n as [|n IH].
  - simpl. rewrite andb_false_r. reflexivity.
  - rewrite seq_S, fold_left_app. simpl. rewrite IH.
    destruct (Nat.eqb_spec a i) as [->|Hai]; simpl.
    + destruct (Nat.eqb_spec b n) as [->|Hbn].
      * rewrite Nat.ltb_irrefl.
        replace (n <? S n) with true by (symmetry; apply Nat.ltb_lt; lia).
        reflexivity.
      * destruct (Nat.ltb_spec b n) as [Hlt|Hge].
        -- replace (b <? S n) with true by (symmetry; apply Nat.ltb_lt; lia).
           reflexivity.
        -- replace (b <? S n) with false by (symmetry; apply Nat.ltb_ge; lia).
           reflexivity.
    + reflexivity.
Qed.

Lemma fm_at_add_block (g : nat -> nat -> double) (m n : nat)
  (M : FullMatrix double) (a b : nat) :
  fm_at (fold_left (fun M i =>
           fold_left (fun M j => FullMatrix_add_at M i j (g i j)) (seq 0 n) M)
           (seq 0 m) M) a b
  = if Nat.ltb a m && Nat.ltb b n then fm_at M a b + g a b else fm_at M a b.
Proof.
  induction m as [|m IH].
  - reflexivity.
  - rewrite seq_S, fold_left_app. simpl.
    rewrite (fm_at_add_row (g m)), IH.
    destruct (Nat.eqb_spec a m) as [->|Ham]; simpl.
    + rewrite Nat.ltb_irrefl. simpl.
      replace (m <? S m) with true by (symmetry; apply Nat.ltb_lt; lia).
      reflexivity.
    + destruct (Nat.ltb_spec a m) as [Hlt|Hge].
      * replace (a <? S m) with true by (symmetry; apply Nat.ltb_lt; lia).
        reflexivity.
      * replace (a <? S m) with false by (symmetry; apply Nat.ltb_ge; lia).
        reflexivity.
Qed.

(** Entry (a,b) after [fill_cell_matrix]. *)
Lemma fm_at_fill_cell_matrix (M : FullMatrix double)
  (C : SymmetricTensor4 double) (fe_values : FEValues.t double)
  (q n a b : nat) :
  fm_at (EllipticSystems.fill_cell_matrix M C fe_values q n) a b
  = if Nat.ltb a n && Nat.ltb b n
    then fm_at M a b + stiffness_term C fe_values q a b
    else fm_at M a b.
Proof.
  unfold EllipticSystems.fill_cell_matrix.
  exact (fm_at_add_block (stiffness_term C fe_values q) n n M a b).
Qed.

Lemma vec_at_add_entries (g : nat -> double) (n : nat) (v : Vector double)
  (k : nat) :
  vec_at (fold_left (fun v i => Vector_add_at v i (g i)) (seq 0 n) v) k
  = if Nat.ltb k n then vec_at v k + g k else vec_at v k.
Proof.
  induction n as [|n IH].
  - reflexivity.
  - rewrite seq_S, fold_left_app. simpl. rewrite IH.
    destruct (Nat.eqb_spec k n) as [->|Hkn].
    + rewrite Nat.ltb_irrefl.
      replace (n <? S n) with true by (symmetry; apply Nat.ltb_lt; lia).
      reflexivity.
    + destruct (Nat.ltb_spec k n) as [Hlt|Hge].
      * replace (k <? S n) with true by (symmetry; apply Nat.ltb_lt; lia).
        reflexivity.
      * replace (k <? S n) with false by (symmetry; apply Nat.ltb_ge; lia).
        reflexivity.
Qed.

(** Entry [k] after [fill_cell_rhs_field] and [fill_cell_rhs_neumann]. *)
Lemma vec_at_fill_cell_rhs_field (v : Vector double) (f : Tensor1 double)
  (fe : FiniteElement) (fe_values : FEValues.t double) (q n k : nat) :
  vec_at (EllipticSystems.fill_cell_rhs_field v f fe fe_values q n) k
  = if Nat.ltb k n
    then vec_at v k
         + FEValues.shape_value fe_values k q
           * tensor_at f (system_to_component_index fe k)
           * FEValues.JxW fe_values q
    else vec_at v k.
Proof.
  unfold EllipticSystems.fill_cell_rhs_field.
  exact (vec_at_add_entries
           (fun i => FEValues.shape_value fe_values i q
                     * tensor_at f (system_to_component_index fe i)
                     * FEValues.JxW fe_values q) n v k).
Qed.

Lemma vec_at_fill_cell_rhs_neumann (v : Vector double) (f : Tensor1 double)
  (fe : FiniteElement) (fe_face_values : FEFaceValues.t double)
  (q n k : nat) :
  vec_at (EllipticSystems.fill_cell_rhs_neumann v f fe fe_face_values q n) k
  = if Nat.ltb k n
    then vec_at v k
         + FEFaceValues.shape_value fe_face_values k q
           * tensor_at f (system_to_component_index fe k)
           * FEFaceValues.JxW fe_face_values q
    else vec_at v k.
Proof.
  unfold EllipticSystems.fill_cell_rhs_neumann.
  exact (vec_at_add_entries
           (fun i => FEFaceValues.shape_value fe_face_values i q
                     * tensor_at f (system_to_component_index fe i)
                     * FEFaceValues.JxW fe_face_values q) n v k).
Qed.

End Entries.

(* ===================================================================== *)
(** ** Exact arithmetic: symmetry *)
(* ===================================================================== *)

Section Exact.
Context {double : Type} {A : Arith double} {E : ExactArith double}.
Context {L : Libm double} {PC : PhysicalConstants double}.
Local Open Scope double_scope.

Add Ring double_ring : exact_ring.

(** The bilinear form of the stress-strain operator is symmetric. *)
Lemma stress_strain_form_symmetric (lambda mu : double)
  (a b : SymmetricTensor2 double) :
  scalar_product
    (contract_2_4 a (EllipticSystems.stress_strain_tensor lambda mu)) b
  = scalar_product
      (contract_2_4 b (EllipticSystems.stress_strain_tensor lambda mu)) a.
Proof.
  unfold scalar_product, contract_2_4, EllipticSystems.stress_strain_tensor.
  simpl. ring.
Qed.

Lemma stiffness_term_symmetric (lambda mu : double)
  (fe_values : FEValues.t double) (q i j : nat) :
  stiffness_term (EllipticSystems.stress_strain_tensor lambda mu)
    fe_values q i j
  = stiffness_term (EllipticSystems.stress_strain_tensor lambda mu)
      fe_values q j i.
Proof.
  unfold stiffness_term. rewrite stress_strain_form_symmetric. reflexivity.
Qed.

Lemma FullMatrix_clear_symmetric (M : FullMatrix double) :
  symmetric (FullMatrix_clear M).
Proof. intros i j. reflexivity. Qed.

End Exact.

Section ExactAssemblers.
Context {double : Type} {A : Arith double} {E : ExactArith double}.
Context {L : Libm double} {PC : PhysicalConstants double}.
Local Open Scope double_scope.

Add Ring double_ring' : exact_ring.

Lemma fill_cell_matrix_symmetric (lambda mu : double)
  (fe_values : FEValues.t double) (q n : nat) (M : FullMatrix double) :
  symmetric M ->
  symmetric
    (EllipticSystems.fill_cell_matrix M
       (EllipticSystems.stress_strain_tensor lambda mu) fe_values q n).
Proof.
  intros HM i j.
  rewrite !fm_at_fill_cell_matrix.
  rewrite (andb_comm (j <? n)).
  rewrite (HM i j), (stiffness_term_symmetric lambda mu fe_values q i j).
  reflexivity.
Qed.


End ExactAssemblers.

(* ===================================================================== *)
(** ** Vanishing contributions *)
(* ===================================================================== *)

Lemma isfinite_zero {double : Type} {A : Arith double}
  {F : Classify double} {Z : ZeroArith double} :
  isfinite (zero : double).
Proof. apply iszero_isfinite, iszero_zero. Qed.

(** Sums, differences and products one of whose factors is zero and the
    other finite. *)
Ltac finite :=
  solve [ assumption | apply isfinite_two | apply isfinite_zero
        | apply iszero_isfinite; assumption ].

Ltac vanish :=
  solve [ auto 2
        | apply iszero_zero
        | apply iszero_add; vanish
        | apply iszero_sub; vanish
        | apply iszero_mul_r; [finite | vanish]
        | apply iszero_mul_l; [vanish | finite] ].

Section Vanishing.
Context {double : Type} {A : Arith double}.
Context {F : Classify double} {Z : ZeroArith double}.
Context {L : Libm double} {PC : PhysicalConstants double}.
Local Open Scope double_scope.


Lemma Vector_clear_null (v : Vector double) : null_vector (Vector_clear v).
Proof. intros i. apply iszero_zero. Qed.








End Vanishing.

(* ===================================================================== *)
(** ** The local load vector *)
(* ===================================================================== *)

Section Loads.
Context {double : Type} {A : Arith double} {L : Libm double}.
Context {PC : PhysicalConstants double}.
Context {FEM : DealII double}.
Local Open Scope double_scope.

Lemma fold_left_map_list {X Y Z : Type} (f : X -> Z -> X) (g : Y -> Z)
  (l : list Y) (x : X) :
  fold_left f (map g l) x = fold_left (fun a y => f a (g y)) l x.
Proof.
  revert x. induction l as [|y l IH]; intros x; simpl.
  - reflexivity.
  - apply IH.
Qed.

(** What the loop over the cells leaves in the cell right-hand side and
    in the cell matrix. *)
Lemma assemble_cell_rhs {T : Type} {AM : AssembleMatrix double T}
  (self : ShallowShelf.t double) (loc : ShallowShelf.Locals double T)
  (cell : Cell.t double) :
  ShallowShelf.cell_rhs (ShallowShelf.assemble_cell self loc cell)
  = ShallowShelf.add_calving_front self cell
      (ShallowShelf.add_driving_stress self (Cell.fe_values cell)
         (value_list (ShallowShelf.thickness self)
            (FEValues.get_quadrature_points (Cell.fe_values cell)))
         (gradient_list (ShallowShelf.surface self)
            (FEValues.get_quadrature_points (Cell.fe_values cell)))
         (Vector_clear (ShallowShelf.cell_rhs loc))).
Proof.
  unfold ShallowShelf.assemble_cell.
  destruct (assemble_matrix _ _ _) as [assembler M]. reflexivity.
Qed.

Lemma assemble_cell_matrix {T : Type} {AM : AssembleMatrix double T}
  (self : ShallowShelf.t double) (loc : ShallowShelf.Locals double T)
  (cell : Cell.t double) :
  ShallowShelf.cell_matrix (ShallowShelf.assemble_cell self loc cell)
  = snd (assemble_matrix (ShallowShelf.the_assembler loc)
           (Cell.fe_values cell)
           (FullMatrix_clear (ShallowShelf.cell_matrix loc))).
Proof.
  unfold ShallowShelf.assemble_cell.
  destruct (assemble_matrix _ _ _) as [assembler M]. reflexivity.
Qed.

(** The loop over the faces adds the load of the faces on the calving
    front, and of no other face. *)
Lemma add_calving_front_faces (self : ShallowShelf.t double)
  (cell : Cell.t double) (rhs : Vector double) :
  ShallowShelf.add_calving_front self cell rhs
  = fold_left (front_load self)
      (filter calving_front (map (Cell.face cell) (seq 0 faces_per_cell)))
      rhs.
Proof.
  unfold ShallowShelf.add_calving_front.
  rewrite <- (fold_left_filter calving_front (front_load self)).
  rewrite fold_left_map_list.
  reflexivity.
Qed.

Lemma add_calving_front_none (self : ShallowShelf.t double)
  (cell : Cell.t double) (rhs : Vector double) :
  filter calving_front (map (Cell.face cell) (seq 0 faces_per_cell)) = [] ->
  ShallowShelf.add_calving_front self cell rhs = rhs.
Proof.
  intros Hnone. rewrite add_calving_front_faces, Hnone. reflexivity.
Qed.

(** C2. In the global assembly the calving-front load is added for those
    faces of a cell only that lie on the boundary and carry boundary tag 1;
    at a face quadrature point [x] its value is
    [0.5 * g * (rho_ice * h(x)^2 - rho_water * b(x)^2) * n] with the
    thickness [h], the depth [b = surface(x) - thickness(x)] of the ice base
    and the face normal [n]; a cell none of whose faces is such a face
    receives nothing. *)
Theorem calving_front_load {T : Type} {AM : AssembleMatrix double T}
  (self : ShallowShelf.t double) (loc : ShallowShelf.Locals double T)
  (cell : Cell.t double) (rhs : Vector double) :
  let is_front (face : Face.t double) :=
    Face.at_boundary face && Nat.eqb (Face.boundary_indicator face) 1 in
  let load (x : Point double) (n : Tensor1 double) :=
    let h := value (ShallowShelf.thickness self) x 0%nat in
    let b := value (ShallowShelf.surface self) x 0%nat
             - value (ShallowShelf.thickness self) x 0%nat in
    scale (lit 0.5 * gravity * (rho_ice * h * h - rho_water * b * b)) n in
  let face_load (rhs : Vector double) (face : Face.t double) :=
    fold_left (fun rhs q =>
      EllipticSystems.fill_cell_rhs_neumann rhs
        (load (FEFaceValues.quadrature_point (Face.fe_face_values face) q)
              (FEFaceValues.normal_vector (Face.fe_face_values face) q))
        (ShallowShelf.fe self) (Face.fe_face_values face) q
        (fe_dofs_per_cell (ShallowShelf.fe self)))
      (seq 0 (ShallowShelf.face_quadrature_formula self)) rhs in
  let faces := map (Cell.face cell) (seq 0 faces_per_cell) in
  let points := FEValues.get_quadrature_points (Cell.fe_values cell) in
  ShallowShelf.add_calving_front self cell rhs
  = fold_left face_load (filter is_front faces) rhs
  /\ (filter is_front faces = [] ->
      ShallowShelf.add_calving_front self cell rhs = rhs)
  /\ ShallowShelf.cell_rhs (ShallowShelf.assemble_cell self loc cell)
     = ShallowShelf.add_calving_front self cell
         (ShallowShelf.add_driving_stress self (Cell.fe_values cell)
            (value_list (ShallowShelf.thickness self) points)
            (gradient_list (ShallowShelf.surface self) points)
            (Vector_clear (ShallowShelf.cell_rhs loc))).
Proof.
  intros is_front load face_load faces points.
  split; [|split].
  - exact (add_calving_front_faces self cell rhs).
  - exact (add_calving_front_none self cell rhs).
  - apply assemble_cell_rhs.
Qed.

End Loads.

Section VanishingLoads.
Context {double : Type} {A : Arith double}.
Context {F : Classify double} {Z : ZeroArith double}.
Context {PC : PhysicalConstants double} {FEM : DealII double}.
Local Open Scope double_scope.

Lemma finite_values_load (fe_values : FEValues.t double) :
  finite_values fe_values -> finite_load_values fe_values.
Proof.
  intros Hfin i q. destruct (Hfin i q) as [Hshape [HJ _]].
  split; assumption.
Qed.

Lemma fill_cell_rhs_field_null (v : Vector double) (f : Tensor1 double)
  (fe : FiniteElement) (fe_values : FEValues.t double) (q n : nat) :
  (forall c, iszero (tensor_at f c)) ->
  finite_load_values fe_values ->
  null_vector v ->
  null_vector (EllipticSystems.fill_cell_rhs_field v f fe fe_values q n).
Proof.
  intros Hf Hfin Hv i. rewrite vec_at_fill_cell_rhs_field.
  destruct (i <? n); [|apply Hv].
  destruct (Hfin i q) as [Hshape HJ].
  pose proof (Hv i). pose proof (Hf (system_to_component_index fe i)).
  vanish.
Qed.

(** The driving stress vanishes where the surface is flat, and where there
    is no ice. *)
Lemma driving_stress_flat (h : double) (grad_s : Tensor1 double) (c : nat) :
  isfinite (- rho_ice * gravity * h) ->
  null_tensor grad_s ->
  iszero (tensor_at (ShallowShelf.driving_stress h grad_s) c).
Proof.
  intros Hh [H0 H1].
  unfold ShallowShelf.driving_stress, scale, tensor_at.
  destruct c; simpl; vanish.
Qed.


Lemma null_tensor_zero : null_tensor (Tensor1_zero (double := double)).
Proof. split; apply iszero_zero. Qed.


Lemma nth_gradient_list_null (surface : Function2 double)
  (fe_values : FEValues.t double) (q : nat) :
  (forall k, k < FEValues.n_quadrature_points fe_values ->
     null_tensor
       (gradient surface (FEValues.quadrature_point fe_values k) 0%nat)) ->
  null_tensor
    (nth q (gradient_list surface (FEValues.get_quadrature_points fe_values))
       Tensor1_zero).
Proof.
  intros Hz.
  destruct (Nat.lt_ge_cases q (FEValues.n_quadrature_points fe_values))
    as [Hlt|Hge].
  - rewrite nth_gradient_list by exact Hlt. apply Hz. exact Hlt.
  - rewrite nth_overflow; [apply null_tensor_zero|].
    unfold gradient_list, FEValues.get_quadrature_points.
    rewrite !length_map, length_seq. exact Hge.
Qed.


(** The driving-stress loop leaves a null right-hand side null when, at
    every quadrature point it visits, the force it adds has null
    components. *)
Lemma add_driving_stress_null (self : ShallowShelf.t double)
  (fe_values : FEValues.t double) (thickness_values : list double)
  (surface_gradient_values : list (Tensor1 double)) (rhs : Vector double) :
  (forall q c,
     q < ShallowShelf.quadrature_formula self ->
     iszero
       (tensor_at
          (ShallowShelf.driving_stress (nth q thickness_values zero)
             (nth q surface_gradient_values Tensor1_zero)) c)) ->
  finite_load_values fe_values ->
  null_vector rhs ->
  null_vector
    (ShallowShelf.add_driving_stress self fe_values thickness_values
       surface_gradient_values rhs).
Proof.
  intros Hf Hfin Hrhs. unfold ShallowShelf.add_driving_stress.
  apply fold_left_invariant.
  - exact Hrhs.
  - intros v q Hq Hv. apply in_seq in Hq.
    apply fill_cell_rhs_field_null; [|exact Hfin|exact Hv].
    intros c. apply Hf. lia.
Qed.

(** C4, as the code has it. At every quadrature point of every cell the
    body force added to the local load vector is the driving stress
    [- rho_ice * g * h(x) * grad_s(x)]; so on a cell where the surface
    gradient vanishes at all quadrature points the body force adds exactly
    nothing to the load vector for all thickness values that leave the
    factor [- rho_ice * g * h] of the gradient finite, the shape values and
    the quadrature weights being finite.  In doubles a factor that has
    overflowed or is NaN, times zero, is NaN. *)
Theorem driving_stress_load (self : ShallowShelf.t double)
  (cell : Cell.t double) (rhs : Vector double) :
  let fe_values := Cell.fe_values cell in
  let points := FEValues.get_quadrature_points fe_values in
  let x q := FEValues.quadrature_point fe_values q in
  ShallowShelf.quadrature_formula self
    <= FEValues.n_quadrature_points fe_values ->
  ShallowShelf.add_driving_stress self fe_values
    (value_list (ShallowShelf.thickness self) points)
    (gradient_list (ShallowShelf.surface self) points) rhs
  = fold_left (fun rhs q =>
      EllipticSystems.fill_cell_rhs_field rhs
        (scale (- rho_ice * gravity
                * value (ShallowShelf.thickness self) (x q) 0%nat)
               (gradient (ShallowShelf.surface self) (x q) 0%nat))
        (ShallowShelf.fe self) fe_values q
        (fe_dofs_per_cell (ShallowShelf.fe self)))
      (seq 0 (ShallowShelf.quadrature_formula self)) rhs
  /\ ((forall q, q < FEValues.n_quadrature_points fe_values ->
         null_tensor (gradient (ShallowShelf.surface self) (x q) 0%nat)) ->
      finite_load_values fe_values ->
      forall thickness_values,
        (forall q, q < ShallowShelf.quadrature_formula self ->
           isfinite (- rho_ice * gravity * nth q thickness_values zero)) ->
        null_vector
          (ShallowShelf.add_driving_stress self fe_values
             thickness_values
             (gradient_list (ShallowShelf.surface self) points)
             (Vector_clear rhs))).
Proof.
  intros fe_values points x Hn. split.
  - unfold ShallowShelf.add_driving_stress.
    apply fold_left_ext_in. intros v q Hq. apply in_seq in Hq.
    unfold points.
    rewrite nth_value_list, nth_gradient_list by lia.
    reflexivity.
  - intros Hflat Hfin thickness_values Hh.
    apply add_driving_stress_null.
    + intros q c Hq. apply driving_stress_flat.
      * apply Hh. exact Hq.
      * unfold points. apply nth_gradient_list_null. exact Hflat.
    + exact Hfin.
    + apply Vector_clear_null.
Qed.

End VanishingLoads.

Section ExactLoads.
Context {double : Type} {A : Arith double} {E : ExactArith double}.
Context {PC : PhysicalConstants double} {FEM : DealII double}.
Local Open Scope double_scope.

Add Ring double_ring'' : exact_ring.

(** Without rounding, the load the front carries where there is no ice is
    the pressure of the water column: [- 0.5 * g * rho_water * s(x)^2 * n]
    with the surface elevation [s]. *)
Lemma neumann_value_no_ice (self : ShallowShelf.t double) (x : Point double)
  (n : Tensor1 double) :
  value (ShallowShelf.thickness self) x 0%nat = zero ->
  ShallowShelf.neumann_value self x n
  = scale (lit 0.5 * gravity
           * - (rho_water * (value (ShallowShelf.surface self) x 0%nat
                             * value (ShallowShelf.surface self) x 0%nat)))
          n.
Proof.
  intros Hz. unfold ShallowShelf.neumann_value, scale. rewrite Hz.
  f_equal; ring.
Qed.

End ExactLoads.

Section ZeroThickness.
Context {double : Type} {A : Arith double}.
Context {F : Classify double} {Z : ZeroArith double}.
Context {L : Libm double} {PC : PhysicalConstants double}.
Context {FEM : DealII double}.
Local Open Scope double_scope.

Lemma fill_cell_rhs_neumann_null (v : Vector double) (f : Tensor1 double)
  (fe : FiniteElement) (fe_face_values : FEFaceValues.t double) (q n : nat) :
  (forall c, iszero (tensor_at f c)) ->
  finite_face_values fe_face_values ->
  null_vector v ->
  null_vector
    (EllipticSystems.fill_cell_rhs_neumann v f fe fe_face_values q n).
Proof.
  intros Hf Hfin Hv i. rewrite vec_at_fill_cell_rhs_neumann.
  destruct (i <? n); [|apply Hv].
  destruct (Hfin i q) as [Hshape [HJ _]].
  pose proof (Hv i). pose proof (Hf (system_to_component_index fe i)).
  vanish.
Qed.

(** Where there is neither ice nor a surface off sea level, the value of
    the boundary condition vanishes. *)
Lemma neumann_value_open_sea (self : ShallowShelf.t double)
  (x : Point double) (n : Tensor1 double) (c : nat) :
  finite_constants ->
  iszero (value (ShallowShelf.thickness self) x 0%nat) ->
  iszero (value (ShallowShelf.surface self) x 0%nat) ->
  finite_tensor n ->
  iszero (tensor_at (ShallowShelf.neumann_value self x n) c).
Proof.
  intros [Hice [Hwater [Hhalf _]]] Hh Hs [H0 H1].
  unfold ShallowShelf.neumann_value, scale, tensor_at.
  assert (Hb : iszero (value (ShallowShelf.surface self) x 0%nat
                       - value (ShallowShelf.thickness self) x 0%nat))
    by vanish.
  destruct c; simpl; vanish.
Qed.

(** A face on the front over open sea carries no load. *)
Lemma front_load_open_sea (self : ShallowShelf.t double)
  (face : Face.t double) (v : Vector double) :
  finite_constants ->
  open_sea self face ->
  finite_face_values (Face.fe_face_values face) ->
  null_vector v ->
  null_vector (front_load self v face).
Proof.
  intros Hconst Hw Hfin Hv. unfold front_load.
  apply fold_left_invariant.
  - exact Hv.
  - intros w q Hq Hwv. apply in_seq in Hq.
    destruct (Hw q) as [Hh Hs]; [lia|]. cbv zeta in Hh, Hs.
    apply fill_cell_rhs_neumann_null; [|exact Hfin|exact Hwv].
    intros c.
    apply neumann_value_open_sea; [exact Hconst | exact Hh | exact Hs |].
    destruct (Hfin 0%nat q) as [_ [_ Hn]]. exact Hn.
Qed.

Lemma add_calving_front_open_sea (self : ShallowShelf.t double)
  (cell : Cell.t double) (v : Vector double) :
  finite_constants ->
  (forall face,
      In face
        (filter calving_front (map (Cell.face cell) (seq 0 faces_per_cell))) ->
      open_sea self face /\ finite_face_values (Face.fe_face_values face)) ->
  null_vector v ->
  null_vector (ShallowShelf.add_calving_front self cell v).
Proof.
  intros Hconst Hw Hv. rewrite add_calving_front_faces.
  apply fold_left_invariant.
  - exact Hv.
  - intros w face Hface Hwv.
    destruct (Hw face Hface) as [Hsea Hfin].
    apply front_load_open_sea; assumption.
Qed.


End ZeroThickness.

Section ImposedValues.
Context {double : Type} {A : Arith double}.

(** What the loop over the boundary values leaves in the vector. *)
Lemma vec_size_set_boundary_values (boundary_values : list (nat * double))
  (v : Vector double) :
  vec_size (ShallowShelf.set_boundary_values boundary_values v) = vec_size v.
Proof.
  unfold ShallowShelf.set_boundary_values.
  apply (fold_left_invariant (fun w => vec_size w = vec_size v)).
  - reflexivity.
  - intros w dof_val _ Hw. exact Hw.
Qed.

Lemma vec_at_set_boundary_values_other (boundary_values : list (nat * double))
  (v : Vector double) (k : nat) :
  ~ In k (map fst boundary_values) ->
  vec_at (ShallowShelf.set_boundary_values boundary_values v) k = vec_at v k.
Proof.
  unfold ShallowShelf.set_boundary_values.
  revert v. induction boundary_values as [|[dof val] l IH]; intros v Hk.
  - reflexivity.
  - simpl in *. rewrite IH by tauto. simpl.
    destruct (Nat.eqb_spec k dof) as [->|_]; [tauto | reflexivity].
Qed.

Lemma vec_at_set_boundary_values (boundary_values : list (nat * double))
  (v : Vector double) (k : nat) (x : double) :
  NoDup (map fst boundary_values) ->
  In (k, x) boundary_values ->
  vec_at (ShallowShelf.set_boundary_values boundary_values v) k = x.
Proof.
  unfold ShallowShelf.set_boundary_values.
  revert v. induction boundary_values as [|[dof val] l IH]; intros v Hnd Hin.
  - destruct Hin.
  - simpl in *. inversion Hnd as [|? ? Hnotin Hnd']; subst.
    destruct Hin as [Heq|Hin].
    + injection Heq as -> ->.
      fold (ShallowShelf.set_boundary_values l (Vector_set v k x)).
      rewrite vec_at_set_boundary_values_other by exact Hnotin.
      simpl. rewrite Nat.eqb_refl. reflexivity.
    + apply IH; assumption.
Qed.

End ImposedValues.

Section Driver.
Context {double : Type} {A : Arith double} {L : Libm double}.
Context {PC : PhysicalConstants double}.
Context {FEM : DealII double}.
Local Open Scope method_scope.



Lemma picard_iteration_step (iteration : nat) (self : ShallowShelf.t double) :
  ShallowShelf.picard_iteration iteration self = picard_step iteration self.
Proof.
  unfold ShallowShelf.picard_iteration, picard_step, ShallowShelf.bind,
    ShallowShelf.update, ShallowShelf.cg_solve, ShallowShelf.assemble_for,
    ShallowShelf.solver_control.
  destruct iteration as [|k]; cbn [Nat.eqb].
  - generalize (ShallowShelf.assemble_system
                  (AssembleMatrixLinear.new
                     (ShallowShelf.quadrature_formula self)
                     (fe_dofs_per_cell (ShallowShelf.fe self))
                     (ShallowShelf.thickness self)
                     (ConstantFunction nu_guess)) self).
    intros assembled.
    destruct (SolverCG_solve _ _ _ _ _) as [x []]; destruct assembled;
      reflexivity.
  - generalize (ShallowShelf.assemble_system
                  (AssembleMatrixNonLinear.new
                     (ShallowShelf.quadrature_formula self)
                     (fe_dofs_per_cell (ShallowShelf.fe self))
                     (ShallowShelf.thickness self)
                     (ShallowShelf.solution self)) self).
    intros assembled.
    destruct (SolverCG_solve _ _ _ _ _) as [x []]; destruct assembled;
      reflexivity.
Qed.

Lemma solve_unrolled (self : ShallowShelf.t double) :
  ShallowShelf.solve self
  = (ShallowShelf.picard_iteration 0 ;; ShallowShelf.picard_iteration 1 ;;
     ShallowShelf.picard_iteration 2 ;; ShallowShelf.picard_iteration 3 ;;
     ShallowShelf.picard_iteration 4) self.
Proof.
  unfold ShallowShelf.solve. cbn [ShallowShelf.for_loop].
  generalize (ShallowShelf.picard_iteration 0),
    (ShallowShelf.picard_iteration 1), (ShallowShelf.picard_iteration 2),
    (ShallowShelf.picard_iteration 3), (ShallowShelf.picard_iteration 4).
  intros p0 p1 p2 p3 p4.
  unfold ShallowShelf.bind.
  destruct (p0 self) as [[[]|e] s0]; [|reflexivity].
  destruct (p1 s0) as [[[]|e] s1]; [|reflexivity].
  destruct (p2 s1) as [[[]|e] s2]; [|reflexivity].
  destruct (p3 s2) as [[[]|e] s3]; [|reflexivity].
  destruct (p4 s3) as [[[]|e] s4]; reflexivity.
Qed.


(** Unfolding the member updates of an object given by its members. *)
Ltac members :=
  cbv beta iota zeta delta
    [ShallowShelf.setup_system ShallowShelf.refine_grid
     ShallowShelf.set_triangulation ShallowShelf.set_dof_handler
     ShallowShelf.set_hanging_node_constraints
     ShallowShelf.set_sparsity_pattern ShallowShelf.set_system_matrix
     ShallowShelf.set_system_rhs ShallowShelf.set_solution
     ShallowShelf.put_output ShallowShelf.cout ShallowShelf.update
     ShallowShelf.surface ShallowShelf.bed ShallowShelf.thickness
     ShallowShelf.boundary_velocity ShallowShelf.triangulation
     ShallowShelf.dof_handler ShallowShelf.fe
     ShallowShelf.quadrature_formula ShallowShelf.face_quadrature_formula
     ShallowShelf.hanging_node_constraints ShallowShelf.sparsity_pattern
     ShallowShelf.system_matrix ShallowShelf.system_rhs
     ShallowShelf.solution ShallowShelf.output
     fresh_setup refined_setup rebuilt_pattern before_solve].

Lemma run_unrolled (self : ShallowShelf.t double) :
  ShallowShelf.run self
  = (ShallowShelf.run_cycle 0 ;; ShallowShelf.run_cycle 1 ;;
     ShallowShelf.run_cycle 2) self.
Proof.
  unfold ShallowShelf.run. cbn [ShallowShelf.for_loop].
  generalize (ShallowShelf.run_cycle 0), (ShallowShelf.run_cycle 1),
    (ShallowShelf.run_cycle 2).
  intros c0 c1 c2.
  unfold ShallowShelf.bind.
  destruct (c0 self) as [[[]|e] s0]; [|reflexivity].
  destruct (c1 s0) as [[[]|e] s1]; [|reflexivity].
  destruct (c2 s1) as [[[]|e] s2]; reflexivity.
Qed.

(** A cycle brings the object to its state before the solve, then solves
    and writes the result. *)
Lemma run_cycle_before_solve (cycle : nat) (self : ShallowShelf.t double) :
  ShallowShelf.run_cycle cycle self
  = (ShallowShelf.solve ;; ShallowShelf.output_results cycle)
      (before_solve cycle self).
Proof.
  unfold ShallowShelf.run_cycle.
  generalize (ShallowShelf.solve ;; ShallowShelf.output_results cycle).
  intros rest. unfold ShallowShelf.bind at 1 2 3 4 5.
  destruct self, cycle as [|c]; cbn [Nat.eqb]; members;
    rewrite <- !app_assoc; reflexivity.
Qed.

(** The system assembled in iteration 0 is the same whatever the solution
    vector holds. *)
Lemma linear_assembly_ignores_solution (self : ShallowShelf.t double)
  (u : Vector double) :
  let assembled := ShallowShelf.assemble_for 0 self in
  let assembled' :=
    ShallowShelf.assemble_for 0 (ShallowShelf.set_solution self u) in
  ShallowShelf.system_matrix assembled' = ShallowShelf.system_matrix assembled
  /\ ShallowShelf.system_rhs assembled' = ShallowShelf.system_rhs assembled.
Proof.
  destruct self. unfold ShallowShelf.assemble_for. cbn [Nat.eqb].
  unfold ShallowShelf.assemble_system. members.
  split; reflexivity.
Qed.

End Driver.


Section DriverTheorems.
Context {double : Type} {A : Arith double} {L : Libm double}.
Context {PC : PhysicalConstants double}.
Context {FEM : DealII double}.
Local Open Scope double_scope.
Local Open Scope method_scope.

(** C3. The nonlinear solver makes exactly 5 Picard iterations. Iteration 0
    assembles with the constant-viscosity assembler and
    [nu_guess = B * (0.2^2)^(-1/3)], and the system it assembles does not
    depend on the velocity vector; each of iterations 1 to 4 assembles with
    the nonlinear assembler at the velocity left by the iteration before;
    every iteration solves the linear system and then redistributes the
    hanging-node constraints on the solution. *)
Theorem picard_solver (self : ShallowShelf.t double) :
  ShallowShelf.solve self
  = (ShallowShelf.picard_iteration 0 ;; ShallowShelf.picard_iteration 1 ;;
     ShallowShelf.picard_iteration 2 ;; ShallowShelf.picard_iteration 3 ;;
     ShallowShelf.picard_iteration 4) self
  /\ (forall iteration s,
        ShallowShelf.picard_iteration iteration s = picard_step iteration s)
  /\ nu_guess = B * pow (lit 0.2 * lit 0.2) (- lit 1 / lit 3)
  /\ (forall s u,
        let assembled := ShallowShelf.assemble_for 0 s in
        let assembled' :=
          ShallowShelf.assemble_for 0 (ShallowShelf.set_solution s u) in
        ShallowShelf.system_matrix assembled'
        = ShallowShelf.system_matrix assembled
        /\ ShallowShelf.system_rhs assembled'
           = ShallowShelf.system_rhs assembled).
Proof.
  split; [apply solve_unrolled|].
  split; [intros iteration s; apply picard_iteration_step|].
  split; [reflexivity|].
  intros s u. apply linear_assembly_ignores_solution.
Qed.

(** C7. The driver runs exactly 3 cycles. Cycle 0 refines the mesh
    globally and sets the system up afresh: degrees of freedom distributed,
    constraints built, the boundary velocity interpolated as the initial
    guess. Every later cycle estimates the error of each cell from the
    solution of the cycle before, marks the top 30% of the cells for
    refinement and the bottom 3% for coarsening (fixed number),
    interpolates the old solution to the new mesh, imposes the exact
    values on the degrees of freedom of boundary 0, rebuilds the
    hanging-node constraints and reinitialises the global system with the
    dimensions of the new mesh; then the nonlinear solver runs.  The
    solution the solver starts from in a later cycle is the transferred
    one with every degree of freedom of boundary 0 set to its boundary
    value and every other entry kept, after the distribution of the
    constraints. *)
Theorem adaptive_cycles (self : ShallowShelf.t double) :
  ShallowShelf.run self
  = (ShallowShelf.run_cycle 0 ;; ShallowShelf.run_cycle 1 ;;
     ShallowShelf.run_cycle 2) self
  /\ (forall s,
        ShallowShelf.run_cycle 0 s
        = (ShallowShelf.solve ;; ShallowShelf.output_results 0)
            (fresh_setup s))
  /\ (forall cycle s,
        ShallowShelf.run_cycle (S cycle) s
        = (ShallowShelf.solve ;; ShallowShelf.output_results (S cycle))
            (refined_setup (S cycle) s))
  /\ (forall cycle s,
        let refined := refined_setup (S cycle) s in
        let boundary_values :=
          interpolate_boundary_values (ShallowShelf.dof_handler refined) 0
            (ShallowShelf.boundary_velocity s) in
        let transferred :=
          SolutionTransfer_interpolate
            (prepare_for_coarsening_and_refinement
               (SolutionTransfer_new (ShallowShelf.dof_handler s))
               (ShallowShelf.solution s))
            (ShallowShelf.dof_handler refined) (ShallowShelf.solution s)
            (Vector_reinit (n_dofs (ShallowShelf.dof_handler refined))) in
        exists imposed,
          ShallowShelf.solution refined
          = distribute (ShallowShelf.hanging_node_constraints refined)
              imposed
          /\ vec_size imposed = vec_size transferred
          /\ (forall k, ~ In k (map fst boundary_values) ->
                vec_at imposed k = vec_at transferred k)
          /\ (NoDup (map fst boundary_values) ->
              forall dof x, In (dof, x) boundary_values ->
                vec_at imposed dof = x)).
Proof.
  split; [apply run_unrolled|].
  split; [|split].
  - intros s. exact (run_cycle_before_solve 0 s).
  - intros cycle s. exact (run_cycle_before_solve (S cycle) s).
  - intros cycle s refined boundary_values transferred.
    exists (ShallowShelf.set_boundary_values boundary_values transferred).
    split; [reflexivity|]. split; [|split].
    + apply vec_size_set_boundary_values.
    + intros k Hk. apply vec_at_set_boundary_values_other. exact Hk.
    + intros Hnd dof x Hin. apply vec_at_set_boundary_values; assumption.
Qed.


End DriverTheorems.

(* ===================================================================== *)
(** ** The laws on the real numbers and on binary64 numbers *)
(* ===================================================================== *)

Lemma R_ring_theory :
  ring_theory (lit 0) (lit 1) Rplus Rmult Rminus Ropp (@eq R).
Proof.
  simpl. rewrite RMicromega.Q2R_0, RMicromega.Q2R_1. exact RTheory.
Qed.

#[export] Instance R_ExactArith : ExactArith R :=
  {| exact_ring := R_ring_theory |}.

#[export] Instance R_ZeroArith : ZeroArith R.
Proof.
  split; simpl; try rewrite RMicromega.Q2R_0; intros; subst;
    trivial; lra.
Qed.

(** Binary64 numbers: the classification read off the specification of a
    number, and the laws of zero from the specification of the
    operations. *)
Lemma is_zero_spec (x : float) :
  PrimFloat.is_zero x
  = match Prim2SF x with S754_zero _ => true | _ => false end.
Proof.
  unfold PrimFloat.is_zero. rewrite FloatAxioms.eqb_spec.
  change (Prim2SF PrimFloat.zero) with (S754_zero false).
  destruct (Prim2SF x) as [[]| [] | | [] ? ?]; reflexivity.
Qed.

Lemma SFeqb_finite_refl (s : bool) (m : positive) (e : Z) :
  SFeqb (S754_finite s m e) (S754_finite s m e) = true.
Proof.
  unfold SFeqb, SFcompare.
  destruct s; rewrite Z.compare_refl;
    try rewrite Pos.compare_cont_refl; try rewrite Pos.compare_refl;
    reflexivity.
Qed.

Lemma is_finite_spec (x : float) :
  PrimFloat.is_finite x
  = match Prim2SF x with
    | S754_zero _ | S754_finite _ _ _ => true
    | _ => false
    end.
Proof.
  unfold PrimFloat.is_finite, PrimFloat.is_nan, PrimFloat.is_infinity.
  rewrite !FloatAxioms.eqb_spec, FloatAxioms.abs_spec.
  change (Prim2SF infinity) with (S754_infinity false).
  destruct (Prim2SF x) as [[]| [] | | s m e]; try reflexivity.
  rewrite SFeqb_finite_refl. reflexivity.
Qed.

Ltac binary64_cases a b :=
  simpl; rewrite ?is_zero_spec, ?is_finite_spec;
  rewrite ?FloatAxioms.add_spec, ?FloatAxioms.sub_spec,
    ?FloatAxioms.mul_spec;
  destruct (Prim2SF a) as [[]| [] | |], (Prim2SF b) as [[]| [] | |];
  simpl; intros; try discriminate; reflexivity.

#[export] Instance binary64_ZeroArith : ZeroArith float.
Proof.
  split.
  - vm_compute. reflexivity.
  - vm_compute. reflexivity.
  - intros a. simpl. rewrite is_zero_spec, is_finite_spec.
    destruct (Prim2SF a); intros; try discriminate; reflexivity.
  - intros a b. binary64_cases a b.
  - intros a b. binary64_cases a b.
  - intros a b. binary64_cases a b.
  - intros a b. binary64_cases a b.
Qed.

(* ===================================================================== *)
(** ** The real numbers: exact arithmetic on the one-cell shelf *)
(* ===================================================================== *)

(** On the reals [std::max] is the maximum. *)
Lemma std_max_Rmax (a b : R) : std_max a b = Rmax a b.
Proof.
  unfold std_max, Rmax. simpl.
  destruct (Rlt_dec a b) as [Hlt|Hge], (Rle_dec a b) as [Hle|Hnle];
    try reflexivity; lra.
Qed.

Section RealSample.
Local Existing Instance Sample.constants.
Local Open Scope R_scope.







(** The hypotheses of the statements above hold on the one-cell shelf. *)
Lemma nonlinear_assembler_viscosity_witness :
  let self :=
    AssembleMatrixNonLinear.new 1 2 Sample.no_ice (Vector_reinit 2) in
  snd (AssembleMatrixNonLinear.operator_call self Sample.fe_values
         (FullMatrix_new 2 2))
  = stiffness
      (nonlinear_operator Sample.no_ice (Vector_reinit 2) Sample.fe_values)
      Sample.fe_values 1 2 (FullMatrix_clear (FullMatrix_new 2 2)).
Proof.
  intros self.
  exact (proj1 (nonlinear_assembler_viscosity self Sample.fe_values
                  (FullMatrix_new 2 2) (le_n 1))).
Defined.

Lemma assembler_resets_cell_matrix_witness :
  assemble_matrix
    (AssembleMatrixLinear.mk 1 2 Sample.no_ice (ConstantFunction (lit 1))
       [] [])
    Sample.fe_values (FullMatrix_new 2 2)
  = assemble_matrix
      (AssembleMatrixLinear.mk 1 2 Sample.no_ice (ConstantFunction (lit 1))
         [lit 3] [lit 4])
      Sample.fe_values (mkFullMatrix 2 2 (fun _ _ => lit 7)).
Proof.
  exact (proj1 (proj1 (assembler_resets_cell_matrix Sample.fe_values
                         (FullMatrix_new 2 2)
                         (mkFullMatrix 2 2 (fun _ _ => lit 7))
                         eq_refl eq_refl)
                  1%nat 2%nat Sample.no_ice (ConstantFunction (lit 1))
                  [] [] [lit 3] [lit 4])).
Defined.





(** With a solver that converges, the run on the one-cell shelf returns
    after writing one file per cycle. *)
Example sample_run :
  let result := ShallowShelf.run (Sample.bare_ground 100) in
  fst result = ShallowShelf.Returns tt
  /\ Sample.files_written (ShallowShelf.output (snd result))
     = ["solution-0.vtk"; "solution-1.vtk"; "solution-2.vtk"]%string
  /\ n_dofs (ShallowShelf.dof_handler (snd result)) = 4%nat
  /\ vec_size (ShallowShelf.solution (snd result)) = 9%nat.
Proof. vm_compute. repeat split; reflexivity. Qed.

End RealSample.

(* ===================================================================== *)
(** ** Binary64 numbers: the one-cell shelf evaluated *)
(* ===================================================================== *)

Section Binary64Sample.
Local Existing Instance Sample.constants.

(** Over 300 m of ice on a bed 500 m below sea level the surface is the
    flotation height [(1 - 917/1024) * 300]. *)
Example binary64_ice_surface :
  IceSurface.value (double := float) Sample.shelf Sample.origin 0
  = 31.34765625%float.
Proof. vm_compute. reflexivity. Qed.

(** The load vector of the front cell of bare ground, in doubles: the
    calving-front entry of component x, and nothing in component y. *)
Example binary64_front_load :
  let rhs :=
    ShallowShelf.cell_rhs
      (ShallowShelf.assemble_cell (double := float) (Sample.bare_ground 4)
         (Sample.locals 4 (lit 1)) Sample.front_cell) in
  vec_at rhs 0 = (-0x1.39eb851eb851fp+12)%float
  /\ vec_at rhs 1 = 0%float.
Proof. vm_compute. split; reflexivity. Qed.

Lemma binary64_finite_values :
  finite_values (double := float) Sample.fe_values.
Proof.
  intros i q.
  cbv [Sample.fe_values FEValues.shape_value FEValues.JxW
       EllipticSystems.shape_strain FEValues.shape_grad_component].
  destruct (Nat.eqb (i mod 2) 0), (Nat.eqb (i mod 2) 1);
    vm_compute; repeat split; reflexivity.
Qed.

(** Over open water the load vector of the front cell is null. *)
Example binary64_open_water :
  null_vector
    (ShallowShelf.cell_rhs
       (ShallowShelf.assemble_cell (double := float) (Sample.open_water 4)
          (Sample.locals 4 (lit 1)) Sample.front_cell)).
Proof.
  rewrite assemble_cell_rhs.
  apply add_calving_front_open_sea.
  - vm_compute. repeat split; reflexivity.
  - intros face Hface. simpl in Hface. destruct Hface as [<-|[]]. split.
    + intros q _. vm_compute. split; reflexivity.
    + intros i q. vm_compute. repeat split; reflexivity.
  - apply add_driving_stress_null;
      [|exact (finite_values_load binary64_finite_values)
       |apply Vector_clear_null].
    intros q c _. apply driving_stress_flat.
    + destruct q as [|[|q]]; vm_compute; reflexivity.
    + apply nth_gradient_list_null. intros k _. apply null_tensor_zero.
Qed.

(** The hypotheses of the statement on a flat surface hold on the one-cell
    shelf in doubles, with 300 m of ice. *)
Lemma driving_stress_load_witness :
  let self := Sample.bare_ground (double := float) 4 in
  let points :=
    FEValues.get_quadrature_points (Cell.fe_values Sample.front_cell) in
  null_vector
    (ShallowShelf.add_driving_stress self (Cell.fe_values Sample.front_cell)
       [lit 300] (gradient_list (ShallowShelf.surface self) points)
       (Vector_clear (Vector_reinit 2))).
Proof.
  intros self points.
  refine (proj2 (driving_stress_load self Sample.front_cell
                   (Vector_reinit 2) (le_n 1)) _ _ [lit 300] _).
  - intros q _. vm_compute. split; reflexivity.
  - exact (finite_values_load binary64_finite_values).
  - intros q _. destruct q as [|[|q]]; vm_compute; reflexivity.
Defined.

End Binary64Sample.

(* ===================================================================== *)
(** ** Adding the cell contributions to the global system *)
(* ===================================================================== *)

Section Scatter.
Context {double : Type} {A : Arith double} {L : Libm double}.
Context {PC : PhysicalConstants double}.
Context {FEM : DealII double}.
Local Open Scope double_scope.

(** The loop over the local indices as two loops, one for the matrix and
    one for the right-hand side. *)
Lemma add_to_global_split (idx : nat -> nat) (cm : FullMatrix double)
  (rhs : Vector double) (n m : nat)
  (system : SparseMatrix.t double SparsityPattern * Vector double) :
  fold_left (fun system i =>
    (fold_left (fun system_matrix j =>
       SparseMatrix.add_at system_matrix (idx i) (idx j) (fm_at cm i j))
       (seq 0 n) (fst system),
     Vector_add_at (snd system) (idx i) (vec_at rhs i)))
    (seq 0 m) system
  = (fold_left (fun M i =>
       fold_left (fun M j =>
         SparseMatrix.add_at M (idx i) (idx j) (fm_at cm i j))
         (seq 0 n) M)
       (seq 0 m) (fst system),
     fold_left (fun v i => Vector_add_at v (idx i) (vec_at rhs i))
       (seq 0 m) (snd system)).
Proof.
  induction m as [|m IH].
  - destruct system. reflexivity.
  - rewrite !seq_S, !fold_left_app, IH. reflexivity.
Qed.

(** Entries of the right-hand side. *)
Lemma vec_at_scatter_other (idx : nat -> nat) (rhs : Vector double)
  (m k : nat) (v : Vector double) :
  (forall i, i < m -> idx i <> k) ->
  vec_at (fold_left (fun v i => Vector_add_at v (idx i) (vec_at rhs i))
            (seq 0 m) v) k
  = vec_at v k.
Proof.
  induction m as [|m IH]; intros Hk.
  - reflexivity.
  - rewrite seq_S, fold_left_app. simpl.
    destruct (Nat.eqb_spec k (idx m)) as [->|_].
    + exfalso. apply (Hk m); [lia | reflexivity].
    + apply IH. intros i Hi. apply Hk. lia.
Qed.

Lemma vec_at_scatter (idx : nat -> nat) (rhs : Vector double)
  (m i : nat) (v : Vector double) :
  (forall a b, a < m -> b < m -> a <> b -> idx a <> idx b) ->
  i < m ->
  vec_at (fold_left (fun v i => Vector_add_at v (idx i) (vec_at rhs i))
            (seq 0 m) v) (idx i)
  = vec_at v (idx i) + vec_at rhs i.
Proof.
  induction m as [|m IH]; intros Hinj Hi.
  - lia.
  - rewrite seq_S, fold_left_app. simpl.
    destruct (Nat.eq_dec i m) as [->|Hne].
    + rewrite Nat.eqb_refl. f_equal.
      apply vec_at_scatter_other.
      intros a Ha. apply Hinj; lia.
    + destruct (Nat.eqb_spec (idx i) (idx m)) as [Heq|_].
      * exfalso. apply (Hinj i m); [lia | lia | exact Hne | exact Heq].
      * apply IH; [|lia]. intros a b Ha Hb. apply Hinj; lia.
Qed.

Lemma vec_size_scatter (idx : nat -> nat) (rhs : Vector double)
  (m : nat) (v : Vector double) :
  vec_size (fold_left (fun v i => Vector_add_at v (idx i) (vec_at rhs i))
              (seq 0 m) v)
  = vec_size v.
Proof.
  apply (fold_left_invariant (fun w => vec_size w = vec_size v)).
  - reflexivity.
  - intros w i _ Hw. exact Hw.
Qed.

(** Entries of the matrix: one row of the cell, then all of them. *)
Lemma at_scatter_row_other (idx : nat -> nat) (g : nat -> double)
  (r n k l : nat) (M : SparseMatrix.t double SparsityPattern) :
  k <> r \/ (forall j, j < n -> idx j <> l) ->
  SparseMatrix.at_
    (fold_left (fun M j => SparseMatrix.add_at M r (idx j) (g j)) (seq 0 n) M)
    k l
  = SparseMatrix.at_ M k l.
Proof.
  induction n as [|n IH]; intros Hk.
  - reflexivity.
  - rewrite seq_S, fold_left_app. simpl.
    destruct (Nat.eqb_spec k r) as [->|_]; simpl.
    + destruct Hk as [Hk|Hl]; [congruence|].
      destruct (Nat.eqb_spec l (idx n)) as [->|_].
      * exfalso. apply (Hl n); [lia | reflexivity].
      * apply IH. right. intros j Hj. apply Hl. lia.
    + apply IH. destruct Hk as [Hk|Hl]; [left; exact Hk|].
      right. intros j Hj. apply Hl. lia.
Qed.

Lemma at_scatter_row (idx : nat -> nat) (g : nat -> double)
  (r n j : nat) (M : SparseMatrix.t double SparsityPattern) :
  (forall a b, a < n -> b < n -> a <> b -> idx a <> idx b) ->
  j < n ->
  SparseMatrix.at_
    (fold_left (fun M j => SparseMatrix.add_at M r (idx j) (g j)) (seq 0 n) M)
    r (idx j)
  = SparseMatrix.at_ M r (idx j) + g j.
Proof.
  induction n as [|n IH]; intros Hinj Hj.
  - lia.
  - rewrite seq_S, fold_left_app. simpl. rewrite Nat.eqb_refl. simpl.
    destruct (Nat.eq_dec j n) as [->|Hne].
    + rewrite Nat.eqb_refl. f_equal.
      apply at_scatter_row_other. right.
      intros a Ha. apply Hinj; lia.
    + destruct (Nat.eqb_spec (idx j) (idx n)) as [Heq|_].
      * exfalso. apply (Hinj j n); [lia | lia | exact Hne | exact Heq].
      * apply IH; [|lia]. intros a b Ha Hb. apply Hinj; lia.
Qed.

Lemma at_scatter_other (idx : nat -> nat) (cm : FullMatrix double)
  (n m k l : nat) (M : SparseMatrix.t double SparsityPattern) :
  (forall i, i < m -> idx i <> k) \/ (forall j, j < n -> idx j <> l) ->
  SparseMatrix.at_
    (fold_left (fun M i =>
       fold_left (fun M j =>
         SparseMatrix.add_at M (idx i) (idx j) (fm_at cm i j))
         (seq 0 n) M)
       (seq 0 m) M) k l
  = SparseMatrix.at_ M k l.
Proof.
  induction m as [|m IH]; intros Hk.
  - reflexivity.
  - rewrite seq_S, fold_left_app. simpl.
    rewrite at_scatter_row_other.
    + apply IH. destruct Hk as [Hk|Hl]; [left|right; exact Hl].
      intros i Hi. apply Hk. lia.
    + destruct Hk as [Hk|Hl]; [left|right; exact Hl].
      intros Heq. apply (Hk m); [lia | symmetry; exact Heq].
Qed.

Lemma at_scatter (idx : nat -> nat) (cm : FullMatrix double)
  (n m i j : nat) (M : SparseMatrix.t double SparsityPattern) :
  (forall a b, a < m -> b < m -> a <> b -> idx a <> idx b) ->
  (forall a b, a < n -> b < n -> a <> b -> idx a <> idx b) ->
  i < m -> j < n ->
  SparseMatrix.at_
    (fold_left (fun M i =>
       fold_left (fun M j =>
         SparseMatrix.add_at M (idx i) (idx j) (fm_at cm i j))
         (seq 0 n) M)
       (seq 0 m) M) (idx i) (idx j)
  = SparseMatrix.at_ M (idx i) (idx j) + fm_at cm i j.
Proof.
  induction m as [|m IH]; intros Hm Hn Hi Hj.
  - lia.
  - rewrite seq_S, fold_left_app. simpl.
    destruct (Nat.eq_dec i m) as [->|Hne].
    + rewrite (at_scatter_row idx (fun j => fm_at cm m j)) by assumption.
      f_equal. apply at_scatter_other. left.
      intros a Ha. apply Hm; lia.
    + rewrite at_scatter_row_other.
      * apply IH; [|exact Hn|lia|exact Hj].
        intros a b Ha Hb. apply Hm; lia.
      * left. apply Hm; lia.
Qed.

Lemma pattern_scatter (idx : nat -> nat) (cm : FullMatrix double)
  (n m : nat) (M : SparseMatrix.t double SparsityPattern) :
  SparseMatrix.pattern
    (fold_left (fun M i =>
       fold_left (fun M j =>
         SparseMatrix.add_at M (idx i) (idx j) (fm_at cm i j))
         (seq 0 n) M)
       (seq 0 m) M)
  = SparseMatrix.pattern M.
Proof.
  apply (fold_left_invariant
           (fun W => SparseMatrix.pattern W = SparseMatrix.pattern M)).
  - reflexivity.
  - intros W i _ HW.
    apply (fold_left_invariant
             (fun V => SparseMatrix.pattern V = SparseMatrix.pattern M)).
    + exact HW.
    + intros V j _ HV. exact HV.
Qed.

(** X1. Adding a cell to the global system, when the global indices of its
    degrees of freedom are distinct: entry [(idx i, idx j)] of the matrix
    grows by entry [(i, j)] of the cell matrix, entry [idx i] of the
    right-hand side by entry [i] of the cell right-hand side; rows, columns
    and entries of degrees of freedom that are not of the cell are left as
    they were, and so are the sparsity pattern and the size of the
    right-hand side. *)
Theorem add_to_global_entries (self : ShallowShelf.t double)
  (cell : Cell.t double) (cell_matrix : FullMatrix double)
  (cell_rhs : Vector double)
  (system : SparseMatrix.t double SparsityPattern * Vector double) :
  let n := fe_dofs_per_cell (ShallowShelf.fe self) in
  let idx := Cell.get_dof_indices cell in
  let result :=
    ShallowShelf.add_to_global self cell cell_matrix cell_rhs system in
  (forall a b, a < n -> b < n -> a <> b -> idx a <> idx b) ->
  (forall i j, i < n -> j < n ->
     SparseMatrix.at_ (fst result) (idx i) (idx j)
     = SparseMatrix.at_ (fst system) (idx i) (idx j) + fm_at cell_matrix i j)
  /\ (forall i, i < n ->
        vec_at (snd result) (idx i)
        = vec_at (snd system) (idx i) + vec_at cell_rhs i)
  /\ (forall k l,
        (forall i, i < n -> idx i <> k) \/ (forall j, j < n -> idx j <> l) ->
        SparseMatrix.at_ (fst result) k l = SparseMatrix.at_ (fst system) k l)
  /\ (forall k, (forall i, i < n -> idx i <> k) ->
        vec_at (snd result) k = vec_at (snd system) k)
  /\ SparseMatrix.pattern (fst result) = SparseMatrix.pattern (fst system)
  /\ vec_size (snd result) = vec_size (snd system).
Proof.
  intros n idx result Hinj.
  unfold result, ShallowShelf.add_to_global.
  fold n. fold idx.
  rewrite add_to_global_split. cbn [fst snd].
  repeat split.
  - intros i j Hi Hj. apply at_scatter; assumption.
  - intros i Hi. apply vec_at_scatter; assumption.
  - intros k l Hkl. apply at_scatter_other. exact Hkl.
  - intros k Hk. apply vec_at_scatter_other. exact Hk.
  - apply pattern_scatter.
  - apply vec_size_scatter.
Qed.

End Scatter.

(* ===================================================================== *)
(** ** What the assembly and the nonlinear solve leave alone *)
(* ===================================================================== *)

(** Unfolding the member updates and reads of an object. *)
Ltac fields :=
  cbv beta iota zeta delta
    [ShallowShelf.set_triangulation ShallowShelf.set_dof_handler
     ShallowShelf.set_hanging_node_constraints
     ShallowShelf.set_sparsity_pattern ShallowShelf.set_system_matrix
     ShallowShelf.set_system_rhs ShallowShelf.set_solution
     ShallowShelf.put_output
     ShallowShelf.surface ShallowShelf.bed ShallowShelf.thickness
     ShallowShelf.boundary_velocity ShallowShelf.triangulation
     ShallowShelf.dof_handler ShallowShelf.fe
     ShallowShelf.quadrature_formula ShallowShelf.face_quadrature_formula
     ShallowShelf.hanging_node_constraints ShallowShelf.sparsity_pattern
     ShallowShelf.system_matrix ShallowShelf.system_rhs
     ShallowShelf.solution ShallowShelf.output].

Section BoundaryValues.
Context {double : Type} {A : Arith double}.

(** X4. Imposing the boundary values on a vector, as the loop of
    [refine_grid] does with the map of degrees of freedom to values (a map
    holds a key once): every degree of freedom of the map gets its value,
    every other entry is kept, and so is the size. *)
Theorem set_boundary_values_entries (boundary_values : list (nat * double))
  (v : Vector double) :
  NoDup (map fst boundary_values) ->
  (forall dof x, In (dof, x) boundary_values ->
     vec_at (ShallowShelf.set_boundary_values boundary_values v) dof = x)
  /\ (forall k, ~ In k (map fst boundary_values) ->
        vec_at (ShallowShelf.set_boundary_values boundary_values v) k
        = vec_at v k)
  /\ vec_size (ShallowShelf.set_boundary_values boundary_values v)
     = vec_size v.
Proof.
  intros Hnd. repeat split.
  - intros dof x Hin. apply vec_at_set_boundary_values; assumption.
  - intros k Hk. apply vec_at_set_boundary_values_other. exact Hk.
  - apply vec_size_set_boundary_values.
Qed.

End BoundaryValues.

Section SystemFrame.
Context {double : Type} {A : Arith double} {L : Libm double}.
Context {PC : PhysicalConstants double}.
Context {FEM : DealII double}.
Local Open Scope double_scope.

Lemma assemble_system_same_setting {T : Type} {AM : AssembleMatrix double T}
  (assembler : T) (self : ShallowShelf.t double) :
  same_setting self (ShallowShelf.assemble_system assembler self).
Proof.
  destruct self. unfold ShallowShelf.assemble_system, same_setting. fields.
  repeat split.
Qed.

Lemma assemble_system_solution {T : Type} {AM : AssembleMatrix double T}
  (assembler : T) (self : ShallowShelf.t double) :
  ShallowShelf.solution (ShallowShelf.assemble_system assembler self)
  = ShallowShelf.set_boundary_values
      (interpolate_boundary_values (ShallowShelf.dof_handler self) 0
         (ShallowShelf.boundary_velocity self))
      (ShallowShelf.solution self).
Proof.
  destruct self. unfold ShallowShelf.assemble_system. fields. reflexivity.
Qed.

(** X2. [assemble_system] starts from a cleared global matrix and
    right-hand side: the object it leaves is the same whatever entries the
    two held before, for one sparsity pattern and one size. *)
Theorem assemble_system_resets_system {T : Type}
  {AM : AssembleMatrix double T} (assembler : T)
  (self : ShallowShelf.t double) (entries : nat -> nat -> double)
  (values : nat -> double) :
  let stale_matrix :=
    SparseMatrix.mk
      (SparseMatrix.pattern (ShallowShelf.system_matrix self)) entries in
  let stale_rhs :=
    mkVector (vec_size (ShallowShelf.system_rhs self)) values in
  ShallowShelf.assemble_system assembler
    (ShallowShelf.set_system_rhs
       (ShallowShelf.set_system_matrix self stale_matrix) stale_rhs)
  = ShallowShelf.assemble_system assembler self.
Proof.
  destruct self. unfold ShallowShelf.assemble_system. fields.
  unfold SparseMatrix.clear, Vector_clear. cbn [SparseMatrix.pattern vec_size].
  reflexivity.
Qed.

(** X3. [assemble_system] changes the global matrix, the right-hand side
    and the solution only; of the solution it overwrites the degrees of
    freedom on boundary 0 with the boundary velocity and keeps every other
    entry and the size. *)
Theorem assemble_system_frame {T : Type} {AM : AssembleMatrix double T}
  (assembler : T) (self : ShallowShelf.t double) :
  let assembled := ShallowShelf.assemble_system assembler self in
  let boundary_values :=
    interpolate_boundary_values (ShallowShelf.dof_handler self) 0
      (ShallowShelf.boundary_velocity self) in
  same_setting self assembled
  /\ vec_size (ShallowShelf.solution assembled)
     = vec_size (ShallowShelf.solution self)
  /\ (forall k, ~ In k (map fst boundary_values) ->
        vec_at (ShallowShelf.solution assembled) k
        = vec_at (ShallowShelf.solution self) k)
  /\ (NoDup (map fst boundary_values) ->
      forall dof x, In (dof, x) boundary_values ->
        vec_at (ShallowShelf.solution assembled) dof = x).
Proof.
  intros assembled boundary_values. unfold assembled.
  rewrite assemble_system_solution. fold boundary_values.
  split; [apply assemble_system_same_setting|].
  split; [apply vec_size_set_boundary_values|].
  split.
  - intros k Hk. apply vec_at_set_boundary_values_other. exact Hk.
  - intros Hnd dof x Hin. apply vec_at_set_boundary_values; assumption.
Qed.

End SystemFrame.

Section Frame.
Context {double : Type} {A : Arith double} {L : Libm double}.
Context {PC : PhysicalConstants double}.
Context {FEM : DealII double}.
Local Open Scope method_scope.

Lemma same_setting_refl (s : ShallowShelf.t double) : same_setting s s.
Proof. unfold same_setting. repeat split. Qed.

Lemma same_setting_trans (s1 s2 s3 : ShallowShelf.t double) :
  same_setting s1 s2 -> same_setting s2 s3 -> same_setting s1 s3.
Proof.
  unfold same_setting. intros H12 H23.
  decompose [and] H12. decompose [and] H23.
  repeat split; etransitivity; eassumption.
Qed.

Lemma set_solution_same_setting (s : ShallowShelf.t double)
  (x : Vector double) :
  same_setting s (ShallowShelf.set_solution s x).
Proof. destruct s. unfold same_setting. fields. repeat split. Qed.

(** One Picard iteration returns or throws [NoConvergence], and leaves the
    setting alone. *)
Lemma picard_iteration_frame (iteration : nat) (self : ShallowShelf.t double) :
  same_setting self (snd (ShallowShelf.picard_iteration iteration self))
  /\ (fst (ShallowShelf.picard_iteration iteration self)
      = ShallowShelf.Returns tt
      \/ fst (ShallowShelf.picard_iteration iteration self)
         = ShallowShelf.Throws ShallowShelf.NoConvergence).
Proof.
  rewrite picard_iteration_step. unfold picard_step.
  destruct iteration as [|k].
  - pose proof (assemble_system_same_setting
                  (AssembleMatrixLinear.new
                     (ShallowShelf.quadrature_formula self)
                     (fe_dofs_per_cell (ShallowShelf.fe self))
                     (ShallowShelf.thickness self)
                     (ConstantFunction nu_guess)) self) as Hs.
    revert Hs.
    generalize (ShallowShelf.assemble_system
                  (AssembleMatrixLinear.new
                     (ShallowShelf.quadrature_formula self)
                     (fe_dofs_per_cell (ShallowShelf.fe self))
                     (ShallowShelf.thickness self)
                     (ConstantFunction nu_guess)) self).
    intros assembled Hs. cbv zeta.
    destruct (SolverCG_solve _ _ _ _ _) as [x []]; cbn [fst snd]; split;
      try (left; reflexivity); try (right; reflexivity);
      apply (same_setting_trans Hs), set_solution_same_setting.
  - pose proof (assemble_system_same_setting
                  (AssembleMatrixNonLinear.new
                     (ShallowShelf.quadrature_formula self)
                     (fe_dofs_per_cell (ShallowShelf.fe self))
                     (ShallowShelf.thickness self)
                     (ShallowShelf.solution self)) self) as Hs.
    revert Hs.
    generalize (ShallowShelf.assemble_system
                  (AssembleMatrixNonLinear.new
                     (ShallowShelf.quadrature_formula self)
                     (fe_dofs_per_cell (ShallowShelf.fe self))
                     (ShallowShelf.thickness self)
                     (ShallowShelf.solution self)) self).
    intros assembled Hs. cbv zeta.
    destruct (SolverCG_solve _ _ _ _ _) as [x []]; cbn [fst snd]; split;
      try (left; reflexivity); try (right; reflexivity);
      apply (same_setting_trans Hs), set_solution_same_setting.
Qed.

(** A loop of passes that keep a relation to the object they start from,
    and throw nothing but one exception, does the same. *)
Lemma for_loop_frame (R : ShallowShelf.t double -> ShallowShelf.t double -> Prop)
  (e : ShallowShelf.Exception)
  (body : nat -> ShallowShelf.Method double unit) (from count : nat)
  (self : ShallowShelf.t double) :
  (forall s, R s s) ->
  (forall s1 s2 s3, R s1 s2 -> R s2 s3 -> R s1 s3) ->
  (forall i s,
      R s (snd (body i s))
      /\ (fst (body i s) = ShallowShelf.Returns tt
          \/ fst (body i s) = ShallowShelf.Throws e)) ->
  R self (snd (ShallowShelf.for_loop from count body self))
  /\ (fst (ShallowShelf.for_loop from count body self)
      = ShallowShelf.Returns tt
      \/ fst (ShallowShelf.for_loop from count body self)
         = ShallowShelf.Throws e).
Proof.
  intros Hrefl Htrans Hbody.
  revert from self. induction count as [|count IH]; intros from self.
  - simpl. split; [apply Hrefl | left; reflexivity].
  - simpl. unfold ShallowShelf.bind.
    destruct (Hbody from self) as [HR Ho].
    destruct (body from self) as [[[]|e'] s']; cbn [fst snd] in *.
    + destruct (IH (S from) s') as [HR' Ho'].
      split; [exact (Htrans _ _ _ HR HR') | exact Ho'].
    + split; [exact HR | exact Ho].
Qed.

(** Any number of Picard iterations in a row. *)
Lemma picard_loop_frame (from count : nat) (self : ShallowShelf.t double) :
  let result :=
    ShallowShelf.for_loop from count ShallowShelf.picard_iteration self in
  same_setting self (snd result)
  /\ (fst result = ShallowShelf.Returns tt
      \/ fst result = ShallowShelf.Throws ShallowShelf.NoConvergence).
Proof.
  apply for_loop_frame.
  - apply same_setting_refl.
  - apply same_setting_trans.
  - apply picard_iteration_frame.
Qed.

(** X5. [solve], whether it returns or throws, changes the global matrix,
    the right-hand side and the solution only: the mesh, the degrees of
    freedom, the constraints, the sparsity pattern and the output are as
    before. The only exception it throws is [NoConvergence]. *)
Theorem solve_frame (self : ShallowShelf.t double) :
  same_setting self (snd (ShallowShelf.solve self))
  /\ (fst (ShallowShelf.solve self) = ShallowShelf.Returns tt
      \/ fst (ShallowShelf.solve self)
         = ShallowShelf.Throws ShallowShelf.NoConvergence).
Proof.
  exact (picard_loop_frame 0 5 self).
Qed.

End Frame.

(** Running [setup_system] and [refine_grid] on an object given by its
    members. *)
Ltac setup :=
  cbv beta iota zeta delta
    [ShallowShelf.setup_system ShallowShelf.refine_grid
     ShallowShelf.set_triangulation ShallowShelf.set_dof_handler
     ShallowShelf.set_hanging_node_constraints
     ShallowShelf.set_sparsity_pattern ShallowShelf.set_system_matrix
     ShallowShelf.set_system_rhs ShallowShelf.set_solution
     ShallowShelf.surface ShallowShelf.bed ShallowShelf.thickness
     ShallowShelf.boundary_velocity ShallowShelf.triangulation
     ShallowShelf.dof_handler ShallowShelf.fe
     ShallowShelf.quadrature_formula ShallowShelf.face_quadrature_formula
     ShallowShelf.hanging_node_constraints ShallowShelf.sparsity_pattern
     ShallowShelf.system_matrix ShallowShelf.system_rhs
     ShallowShelf.solution ShallowShelf.output].

Section Results.
Context {double : Type} {A : Arith double} {L : Libm double}.
Context {PC : PhysicalConstants double}.
Context {FEM : DealII double}.
Local Open Scope method_scope.

(** X9. [setup_system] builds the sparsity pattern, the matrix and the
    right-hand side from the degrees of freedom and the constraints alone:
    what the three held before does not matter, and a second call with
    [initial_step = false] changes nothing. The call that [run] makes after
    [refine_grid], which ends with one, is of that kind. *)
Theorem setup_system_idempotent (initial_step : bool)
  (self : ShallowShelf.t double) :
  ShallowShelf.setup_system false
    (ShallowShelf.setup_system initial_step self)
  = ShallowShelf.setup_system initial_step self
  /\ ShallowShelf.setup_system false (ShallowShelf.refine_grid self)
     = ShallowShelf.refine_grid self
  /\ (forall pattern matrix rhs,
        ShallowShelf.setup_system initial_step
          (ShallowShelf.set_system_rhs
             (ShallowShelf.set_system_matrix
                (ShallowShelf.set_sparsity_pattern self pattern) matrix) rhs)
        = ShallowShelf.setup_system initial_step self).
Proof.
  destruct self. split; [|split].
  - destruct initial_step; setup; reflexivity.
  - setup. reflexivity.
  - intros pattern matrix rhs.
    destruct initial_step; setup; reflexivity.
Qed.

Lemma results_file_name (cycle : nat) :
  cycle < 10 ->
  (("solution-"
    ++ String (ascii_of_nat (nat_of_ascii "0" + cycle)) EmptyString)
   ++ ".vtk")%string
  = results_file cycle.
Proof.
  intros Hc.
  do 10 (destruct cycle as [|cycle]; [reflexivity|]). lia.
Qed.

Lemma output_results_returns (cycle : nat) (self : ShallowShelf.t double) :
  cycle < 10 ->
  ShallowShelf.output_results cycle self
  = (ShallowShelf.Returns tt,
     ShallowShelf.put_output self
       (ShallowShelf.WriteVtk (results_file cycle)
          (ShallowShelf.dof_handler self) (ShallowShelf.solution self)
          ["x_velocity"; "y_velocity"]%string)).
Proof.
  intros Hc. unfold ShallowShelf.output_results.
  rewrite (results_file_name Hc).
  apply Nat.ltb_lt in Hc. rewrite Hc. reflexivity.
Qed.

(** X8. [output_results] for a cycle below ten returns after writing one
    file, named [solution-] followed by the decimal digit of the cycle and
    [.vtk], with the two components of the solution on the current degrees
    of freedom, and changes nothing else; different cycles below ten give
    different names. *)
Theorem output_results_file (cycle : nat) (self : ShallowShelf.t double) :
  cycle < 10 ->
  ShallowShelf.output_results cycle self
  = (ShallowShelf.Returns tt,
     ShallowShelf.put_output self
       (ShallowShelf.WriteVtk (results_file cycle)
          (ShallowShelf.dof_handler self) (ShallowShelf.solution self)
          ["x_velocity"; "y_velocity"]%string))
  /\ (forall other, other < 10 ->
        results_file cycle = results_file other -> cycle = other).
Proof.
  intros Hc. split.
  - apply output_results_returns. exact Hc.
  - intros other Ho.
    do 10 (destruct cycle as [|cycle];
           [do 10 (destruct other as [|other];
                   [first [reflexivity | discriminate]|]); lia|]).
    lia.
Qed.

Lemma written_files_app (out out' : list (ShallowShelf.Output double)) :
  written_files (out ++ out') = written_files out ++ written_files out'.
Proof. unfold written_files. apply flat_map_app. Qed.

Lemma written_files_before_solve (cycle : nat)
  (self : ShallowShelf.t double) :
  written_files (ShallowShelf.output (before_solve cycle self))
  = written_files (ShallowShelf.output self).
Proof.
  destruct cycle as [|c]; unfold before_solve, fresh_setup, refined_setup;
    cbn [ShallowShelf.output];
    rewrite written_files_app; simpl; apply app_nil_r.
Qed.

(** A cycle below ten returns after writing its file, or throws
    [NoConvergence] before writing one. *)
Lemma run_cycle_files (cycle : nat) (self : ShallowShelf.t double) :
  cycle < 10 ->
  let result := ShallowShelf.run_cycle cycle self in
  (fst result = ShallowShelf.Returns tt
   /\ written_files (ShallowShelf.output (snd result))
      = written_files (ShallowShelf.output self) ++ [results_file cycle])
  \/ (fst result = ShallowShelf.Throws ShallowShelf.NoConvergence
      /\ written_files (ShallowShelf.output (snd result))
         = written_files (ShallowShelf.output self)).
Proof.
  intros Hc result. unfold result.
  rewrite run_cycle_before_solve. unfold ShallowShelf.bind.
  pose proof (written_files_before_solve cycle self) as Hbefore.
  revert Hbefore. generalize (before_solve cycle self). intros s0 Hbefore.
  assert (Hframe :
            same_setting s0 (snd (ShallowShelf.solve s0))
            /\ (fst (ShallowShelf.solve s0) = ShallowShelf.Returns tt
                \/ fst (ShallowShelf.solve s0)
                   = ShallowShelf.Throws ShallowShelf.NoConvergence)).
  { exact (picard_loop_frame 0 5 s0). }
  destruct Hframe as [Hsame Hout].
  assert (Hfiles : ShallowShelf.output (snd (ShallowShelf.solve s0))
                   = ShallowShelf.output s0)
    by (unfold same_setting in Hsame; tauto).
  destruct (ShallowShelf.solve s0) as [[[]|e] s1]; cbn [fst snd] in *.
  - left. rewrite (output_results_returns s1 Hc). cbn [fst snd].
    split; [reflexivity|].
    destruct s1. cbv [ShallowShelf.put_output ShallowShelf.output] in *.
    rewrite written_files_app, Hfiles, Hbefore. reflexivity.
  - right. destruct Hout as [Hout|Hout]; [discriminate|].
    split; [exact Hout|]. rewrite Hfiles. exact Hbefore.
Qed.

(** X6. [run] either returns, having written [solution-0.vtk],
    [solution-1.vtk] and [solution-2.vtk] in that order, or throws
    [NoConvergence], having written those of the cycles before the one that
    failed and no other file: the assertion of [output_results] never
    fails in a run. *)
Theorem run_files (self : ShallowShelf.t double) :
  let result := ShallowShelf.run self in
  let names :=
    ["solution-0.vtk"; "solution-1.vtk"; "solution-2.vtk"]%string in
  (fst result = ShallowShelf.Returns tt
   /\ written_files (ShallowShelf.output (snd result))
      = written_files (ShallowShelf.output self) ++ names)
  \/ (fst result = ShallowShelf.Throws ShallowShelf.NoConvergence
      /\ exists k, k < 3
         /\ written_files (ShallowShelf.output (snd result))
            = written_files (ShallowShelf.output self) ++ firstn k names).
Proof.
  intros result names. unfold result.
  rewrite run_unrolled. unfold ShallowShelf.bind.
  destruct (@run_cycle_files 0 self ltac:(lia)) as [[Ho0 Hf0]|[Ho0 Hf0]];
    destruct (ShallowShelf.run_cycle 0 self) as [o0 s0];
    cbn [fst snd] in Ho0, Hf0; subst o0; cbn [fst snd].
  2:{ right. split; [reflexivity|]. exists 0. split; [lia|].
      rewrite Hf0. simpl. symmetry. apply app_nil_r. }
  destruct (@run_cycle_files 1 s0 ltac:(lia)) as [[Ho1 Hf1]|[Ho1 Hf1]];
    destruct (ShallowShelf.run_cycle 1 s0) as [o1 s1];
    cbn [fst snd] in Ho1, Hf1; subst o1; cbn [fst snd].
  2:{ right. split; [reflexivity|]. exists 1. split; [lia|].
      rewrite Hf1, Hf0. reflexivity. }
  destruct (@run_cycle_files 2 s1 ltac:(lia)) as [[Ho2 Hf2]|[Ho2 Hf2]];
    destruct (ShallowShelf.run_cycle 2 s1) as [o2 s2];
    cbn [fst snd] in Ho2, Hf2; subst o2; cbn [fst snd].
  2:{ right. split; [reflexivity|]. exists 2. split; [lia|].
      rewrite Hf2, Hf1, Hf0, <- app_assoc. reflexivity. }
  left. split; [reflexivity|].
  rewrite Hf2, Hf1, Hf0, <- !app_assoc. reflexivity.
Qed.

End Results.

Section Configuration.
Context {double : Type} {A : Arith double} {L : Libm double}.
Context {PC : PhysicalConstants double}.
Context {FEM : DealII double}.
Local Open Scope method_scope.

Lemma same_configuration_refl (s : ShallowShelf.t double) :
  same_configuration s s.
Proof. unfold same_configuration. repeat split. Qed.

Lemma same_configuration_trans (s1 s2 s3 : ShallowShelf.t double) :
  same_configuration s1 s2 -> same_configuration s2 s3 ->
  same_configuration s1 s3.
Proof.
  unfold same_configuration. intros H12 H23.
  decompose [and] H12. decompose [and] H23.
  repeat split; etransitivity; eassumption.
Qed.

Lemma same_setting_configuration (s s' : ShallowShelf.t double) :
  same_setting s s' -> same_configuration s s'.
Proof.
  unfold same_setting, same_configuration. intros H.
  decompose [and] H. repeat split; assumption.
Qed.

Lemma before_solve_configuration (cycle : nat)
  (self : ShallowShelf.t double) :
  same_configuration self (before_solve cycle self).
Proof.
  destruct cycle; unfold same_configuration, before_solve, fresh_setup,
    refined_setup; cbn; repeat split.
Qed.

Lemma output_results_configuration (cycle : nat)
  (self : ShallowShelf.t double) :
  same_configuration self (snd (ShallowShelf.output_results cycle self)).
Proof.
  destruct (Nat.lt_ge_cases cycle 10) as [Hc|Hc].
  - rewrite (output_results_returns self Hc). destruct self.
    unfold same_configuration. cbn. repeat split.
  - unfold ShallowShelf.output_results.
    apply Nat.ltb_ge in Hc. rewrite Hc. apply same_configuration_refl.
Qed.

Lemma run_cycle_configuration (cycle : nat) (self : ShallowShelf.t double) :
  same_configuration self (snd (ShallowShelf.run_cycle cycle self)).
Proof.
  rewrite run_cycle_before_solve. unfold ShallowShelf.bind.
  apply (same_configuration_trans (before_solve_configuration cycle self)).
  generalize (before_solve cycle self). intros s0.
  assert (Hsolve : same_setting s0 (snd (ShallowShelf.solve s0)))
    by exact (proj1 (picard_loop_frame 0 5 s0)).
  apply same_setting_configuration in Hsolve.
  destruct (ShallowShelf.solve s0) as [[[]|e] s1]; cbn [fst snd] in *.
  - apply (same_configuration_trans Hsolve).
    apply output_results_configuration.
  - exact Hsolve.
Qed.

(** A loop of passes that keep a relation to the object they start from
    keeps it, whether it returns or throws. *)
Lemma for_loop_invariant
  (R : ShallowShelf.t double -> ShallowShelf.t double -> Prop)
  (body : nat -> ShallowShelf.Method double unit) (from count : nat)
  (self : ShallowShelf.t double) :
  (forall s, R s s) ->
  (forall s1 s2 s3, R s1 s2 -> R s2 s3 -> R s1 s3) ->
  (forall i s, R s (snd (body i s))) ->
  R self (snd (ShallowShelf.for_loop from count body self)).
Proof.
  intros Hrefl Htrans Hbody.
  revert from self. induction count as [|count IH]; intros from self.
  - apply Hrefl.
  - simpl. unfold ShallowShelf.bind.
    pose proof (Hbody from self) as HR.
    destruct (body from self) as [[[]|e'] s']; cbn [fst snd] in *.
    + exact (Htrans _ _ _ HR (IH (S from) s')).
    + exact HR.
Qed.

(** X7. Neither [solve] nor [run], returning or throwing, changes the
    surface, bed, thickness and boundary-velocity fields, the element or
    the two quadrature formulas of the object. *)
Theorem run_keeps_configuration (self : ShallowShelf.t double) :
  same_configuration self (snd (ShallowShelf.solve self))
  /\ same_configuration self (snd (ShallowShelf.run self)).
Proof.
  split.
  - apply same_setting_configuration.
    exact (proj1 (picard_loop_frame 0 5 self)).
  - unfold ShallowShelf.run. apply for_loop_invariant.
    + apply same_configuration_refl.
    + apply same_configuration_trans.
    + apply run_cycle_configuration.
Qed.

End Configuration.

(* ===================================================================== *)
(** ** Entries and shape of the cell matrix and the cell right-hand side *)
(* ===================================================================== *)

Section CellEntries.
Context {double : Type} {A : Arith double} {L : Libm double}.
Context {PC : PhysicalConstants double}.
Context {FEM : DealII double}.
Local Open Scope double_scope.

Lemma fill_cell_matrix_shape (M : FullMatrix double)
  (C : SymmetricTensor4 double) (fe_values : FEValues.t double) (q n : nat) :
  fm_rows (EllipticSystems.fill_cell_matrix M C fe_values q n) = fm_rows M
  /\ fm_cols (EllipticSystems.fill_cell_matrix M C fe_values q n) = fm_cols M.
Proof.
  unfold EllipticSystems.fill_cell_matrix.
  apply (fold_left_invariant
           (fun W => fm_rows W = fm_rows M /\ fm_cols W = fm_cols M)).
  - split; reflexivity.
  - intros W i _ HW.
    apply (fold_left_invariant
             (fun V => fm_rows V = fm_rows M /\ fm_cols V = fm_cols M)).
    + exact HW.
    + intros V j _ HV. exact HV.
Qed.

Lemma stiffness_shape (operator : nat -> SymmetricTensor4 double)
  (fe_values : FEValues.t double) (n_q_points n : nat)
  (M : FullMatrix double) :
  fm_rows (stiffness operator fe_values n_q_points n M) = fm_rows M
  /\ fm_cols (stiffness operator fe_values n_q_points n M) = fm_cols M.
Proof.
  unfold stiffness.
  apply (fold_left_invariant
           (fun W => fm_rows W = fm_rows M /\ fm_cols W = fm_cols M)).
  - split; reflexivity.
  - intros W q _ [Hr Hc].
    destruct (fill_cell_matrix_shape W (operator q) fe_values q n)
      as [Hr' Hc'].
    split; congruence.
Qed.

(** Entry (i,j) after the loop over the quadrature points. *)
Lemma fm_at_stiffness (operator : nat -> SymmetricTensor4 double)
  (fe_values : FEValues.t double) (n_q_points n : nat)
  (M : FullMatrix double) (i j : nat) :
  fm_at (stiffness operator fe_values n_q_points n M) i j
  = if Nat.ltb i n && Nat.ltb j n
    then fold_left (fun acc q =>
           acc + stiffness_term (operator q) fe_values q i j)
           (seq 0 n_q_points) (fm_at M i j)
    else fm_at M i j.
Proof.
  unfold stiffness. induction n_q_points as [|m IH].
  - simpl. destruct (_ && _); reflexivity.
  - rewrite seq_S, !fold_left_app. simpl.
    rewrite fm_at_fill_cell_matrix, IH.
    destruct (_ && _); reflexivity.
Qed.

(** The operators of the two loops, without the bound on the number of
    quadrature points: the samples read by index. *)
Lemma linear_call_stiffness (self : AssembleMatrixLinear.t double)
  (fe_values : FEValues.t double) (M : FullMatrix double) :
  snd (AssembleMatrixLinear.operator_call self fe_values M)
  = stiffness
      (fun q =>
         let nu_q :=
           nth q (value_list (AssembleMatrixLinear.nu self)
                    (FEValues.get_quadrature_points fe_values)) zero
           * nth q (value_list (AssembleMatrixLinear.thickness self)
                      (FEValues.get_quadrature_points fe_values)) zero in
         EllipticSystems.stress_strain_tensor (lit 2 * nu_q) nu_q)
      fe_values (AssembleMatrixLinear.n_q_points self)
      (AssembleMatrixLinear.dofs_per_cell self) (FullMatrix_clear M).
Proof. reflexivity. Qed.

Lemma nonlinear_call_stiffness (self : AssembleMatrixNonLinear.t double)
  (fe_values : FEValues.t double) (M : FullMatrix double) :
  snd (AssembleMatrixNonLinear.operator_call self fe_values M)
  = stiffness
      (fun q =>
         let eps :=
           EllipticSystems.get_strain
             (nth q (FEValues.get_function_gradients fe_values
                       (AssembleMatrixNonLinear.solution self)) []) in
         let nu :=
           glen_viscosity eps
           * nth q (value_list (AssembleMatrixNonLinear.thickness self)
                      (FEValues.get_quadrature_points fe_values)) zero in
         EllipticSystems.stress_strain_tensor (lit 2 * nu) nu)
      fe_values (AssembleMatrixNonLinear.n_q_points self)
      (AssembleMatrixNonLinear.dofs_per_cell self) (FullMatrix_clear M).
Proof. reflexivity. Qed.

(** X13. Either assembler writes the block of its [dofs_per_cell] rows and
    columns only: every entry of the cell matrix outside the block is zero
    after the call, and the matrix keeps its shape. *)
Theorem assembler_block (fe_values : FEValues.t double)
  (cell_matrix : FullMatrix double) :
  (forall self : AssembleMatrixLinear.t double,
      let K := snd (assemble_matrix self fe_values cell_matrix) in
      let n := AssembleMatrixLinear.dofs_per_cell self in
      (forall i j, n <= i \/ n <= j -> fm_at K i j = zero)
      /\ fm_rows K = fm_rows cell_matrix
      /\ fm_cols K = fm_cols cell_matrix)
  /\ (forall self : AssembleMatrixNonLinear.t double,
         let K := snd (assemble_matrix self fe_values cell_matrix) in
         let n := AssembleMatrixNonLinear.dofs_per_cell self in
         (forall i j, n <= i \/ n <= j -> fm_at K i j = zero)
         /\ fm_rows K = fm_rows cell_matrix
         /\ fm_cols K = fm_cols cell_matrix).
Proof.
  split; intros self K n; unfold K; cbn [assemble_matrix AssembleMatrix_Linear
    AssembleMatrix_NonLinear].
  - rewrite linear_call_stiffness. split.
    + intros i j Hout. rewrite fm_at_stiffness. fold n.
      replace (Nat.ltb i n && Nat.ltb j n) with false; [reflexivity|].
      symmetry. apply andb_false_iff.
      destruct Hout; [left|right]; apply Nat.ltb_ge; assumption.
    + exact (stiffness_shape _ fe_values _ _ (FullMatrix_clear cell_matrix)).
  - rewrite nonlinear_call_stiffness. split.
    + intros i j Hout. rewrite fm_at_stiffness. fold n.
      replace (Nat.ltb i n && Nat.ltb j n) with false; [reflexivity|].
      symmetry. apply andb_false_iff.
      destruct Hout; [left|right]; apply Nat.ltb_ge; assumption.
    + exact (stiffness_shape _ fe_values _ _ (FullMatrix_clear cell_matrix)).
Qed.

(** X14. In the constant mode, entry (i,j) of the block is the sum over
    the quadrature points, in their order, of
    [eps(phi_i) : C : eps(phi_j) * JxW] with
    [C = stress_strain (2 * nu * h, nu * h)] for the viscosity [nu] and the
    thickness [h] at the point; with the constant viscosity of Picard
    iteration 0, [nu] is [nu_guess] at every point. *)
Theorem linear_assembler_entries (self : AssembleMatrixLinear.t double)
  (fe_values : FEValues.t double) (cell_matrix : FullMatrix double) :
  AssembleMatrixLinear.n_q_points self
    <= FEValues.n_quadrature_points fe_values ->
  let h q :=
    value (AssembleMatrixLinear.thickness self)
      (FEValues.quadrature_point fe_values q) 0%nat in
  let nu q :=
    value (AssembleMatrixLinear.nu self)
      (FEValues.quadrature_point fe_values q) 0%nat in
  (forall i j,
      i < AssembleMatrixLinear.dofs_per_cell self ->
      j < AssembleMatrixLinear.dofs_per_cell self ->
      fm_at (snd (assemble_matrix self fe_values cell_matrix)) i j
      = fold_left (fun acc q =>
          acc + stiffness_term
                  (EllipticSystems.stress_strain_tensor
                     (lit 2 * (nu q * h q)) (nu q * h q))
                  fe_values q i j)
          (seq 0 (AssembleMatrixLinear.n_q_points self)) zero)
  /\ (AssembleMatrixLinear.nu self = ConstantFunction nu_guess ->
      forall q, nu q = nu_guess).
Proof.
  intros Hn h nu. split.
  - intros i j Hi Hj.
    cbn [assemble_matrix AssembleMatrix_Linear].
    rewrite linear_assembler_stiffness by exact Hn.
    rewrite fm_at_stiffness.
    apply Nat.ltb_lt in Hi. apply Nat.ltb_lt in Hj. rewrite Hi, Hj.
    reflexivity.
  - intros Hnu q. unfold nu. rewrite Hnu. reflexivity.
Qed.

(** Entries of the cell right-hand side beyond the degrees of freedom. *)
Lemma add_driving_stress_outside (self : ShallowShelf.t double)
  (fe_values : FEValues.t double) (thickness_values : list double)
  (surface_gradient_values : list (Tensor1 double)) (rhs : Vector double)
  (i : nat) :
  fe_dofs_per_cell (ShallowShelf.fe self) <= i ->
  vec_at (ShallowShelf.add_driving_stress self fe_values thickness_values
            surface_gradient_values rhs) i
  = vec_at rhs i.
Proof.
  intros Hi. unfold ShallowShelf.add_driving_stress.
  apply (fold_left_invariant (fun v => vec_at v i = vec_at rhs i)).
  - reflexivity.
  - intros v q _ Hv. rewrite vec_at_fill_cell_rhs_field.
    apply Nat.ltb_ge in Hi. rewrite Hi. exact Hv.
Qed.

Lemma add_calving_front_outside (self : ShallowShelf.t double)
  (cell : Cell.t double) (rhs : Vector double) (i : nat) :
  fe_dofs_per_cell (ShallowShelf.fe self) <= i ->
  vec_at (ShallowShelf.add_calving_front self cell rhs) i = vec_at rhs i.
Proof.
  intros Hi. rewrite add_calving_front_faces.
  apply (fold_left_invariant (fun v => vec_at v i = vec_at rhs i)).
  - reflexivity.
  - intros v face _ Hv. unfold front_load.
    apply (fold_left_invariant (fun w => vec_at w i = vec_at rhs i)).
    + exact Hv.
    + intros w q _ Hw. rewrite vec_at_fill_cell_rhs_neumann.
      apply Nat.ltb_ge in Hi. rewrite Hi. exact Hw.
Qed.

Lemma vec_size_fill_cell_rhs_field (v : Vector double) (f : Tensor1 double)
  (fe : FiniteElement) (fe_values : FEValues.t double) (q n : nat) :
  vec_size (EllipticSystems.fill_cell_rhs_field v f fe fe_values q n)
  = vec_size v.
Proof.
  unfold EllipticSystems.fill_cell_rhs_field.
  apply (fold_left_invariant (fun w => vec_size w = vec_size v)).
  - reflexivity.
  - intros w i _ Hw. exact Hw.
Qed.

Lemma vec_size_fill_cell_rhs_neumann (v : Vector double) (f : Tensor1 double)
  (fe : FiniteElement) (fe_face_values : FEFaceValues.t double) (q n : nat) :
  vec_size (EllipticSystems.fill_cell_rhs_neumann v f fe fe_face_values q n)
  = vec_size v.
Proof.
  unfold EllipticSystems.fill_cell_rhs_neumann.
  apply (fold_left_invariant (fun w => vec_size w = vec_size v)).
  - reflexivity.
  - intros w i _ Hw. exact Hw.
Qed.

Lemma vec_size_cell_rhs {T : Type} {AM : AssembleMatrix double T}
  (self : ShallowShelf.t double) (loc : ShallowShelf.Locals double T)
  (cell : Cell.t double) :
  vec_size (ShallowShelf.cell_rhs (ShallowShelf.assemble_cell self loc cell))
  = vec_size (ShallowShelf.cell_rhs loc).
Proof.
  rewrite assemble_cell_rhs, add_calving_front_faces.
  apply (fold_left_invariant
           (fun v => vec_size v = vec_size (ShallowShelf.cell_rhs loc))).
  - unfold ShallowShelf.add_driving_stress.
    apply (fold_left_invariant
             (fun v => vec_size v = vec_size (ShallowShelf.cell_rhs loc))).
    + reflexivity.
    + intros v q _ Hv. rewrite vec_size_fill_cell_rhs_field. exact Hv.
  - intros v face _ Hv. unfold front_load.
    apply (fold_left_invariant
             (fun w => vec_size w = vec_size (ShallowShelf.cell_rhs loc))).
    + exact Hv.
    + intros w q _ Hw. rewrite vec_size_fill_cell_rhs_neumann. exact Hw.
Qed.

(** Entry [i] after the loop over the quadrature points of the cell. *)
Lemma vec_at_add_driving_stress (self : ShallowShelf.t double)
  (fe_values : FEValues.t double) (thickness_values : list double)
  (surface_gradient_values : list (Tensor1 double)) (rhs : Vector double)
  (i : nat) :
  i < fe_dofs_per_cell (ShallowShelf.fe self) ->
  vec_at (ShallowShelf.add_driving_stress self fe_values thickness_values
            surface_gradient_values rhs) i
  = fold_left (fun acc q =>
      acc
      + FEValues.shape_value fe_values i q
        * tensor_at
            (ShallowShelf.driving_stress (nth q thickness_values zero)
               (nth q surface_gradient_values Tensor1_zero))
            (system_to_component_index (ShallowShelf.fe self) i)
        * FEValues.JxW fe_values q)
      (seq 0 (ShallowShelf.quadrature_formula self)) (vec_at rhs i).
Proof.
  intros Hi. unfold ShallowShelf.add_driving_stress.
  induction (ShallowShelf.quadrature_formula self) as [|m IH].
  - reflexivity.
  - rewrite seq_S, !fold_left_app. simpl.
    rewrite vec_at_fill_cell_rhs_field, IH.
    apply Nat.ltb_lt in Hi. rewrite Hi. reflexivity.
Qed.

(** X15. The right-hand side of a cell is written at the degrees of
    freedom of the element only: the entries beyond are zero and the size
    is kept, whatever the buffer held. For a cell without a face on the
    calving front, entry [i] is the sum over the quadrature points, in
    their order, of the shape value times the component of the driving
    stress [- rho_ice * g * h * grad_s] of that degree of freedom times the
    quadrature weight. *)
Theorem cell_rhs_entries {T : Type} {AM : AssembleMatrix double T}
  (self : ShallowShelf.t double) (loc : ShallowShelf.Locals double T)
  (cell : Cell.t double) :
  let fe_values := Cell.fe_values cell in
  let n := fe_dofs_per_cell (ShallowShelf.fe self) in
  let rhs :=
    ShallowShelf.cell_rhs (ShallowShelf.assemble_cell self loc cell) in
  let x q := FEValues.quadrature_point fe_values q in
  (forall i, n <= i -> vec_at rhs i = zero)
  /\ vec_size rhs = vec_size (ShallowShelf.cell_rhs loc)
  /\ (filter calving_front (map (Cell.face cell) (seq 0 faces_per_cell)) = [] ->
      ShallowShelf.quadrature_formula self
        <= FEValues.n_quadrature_points fe_values ->
      forall i, i < n ->
        vec_at rhs i
        = fold_left (fun acc q =>
            acc
            + FEValues.shape_value fe_values i q
              * tensor_at
                  (scale (- rho_ice * gravity
                          * value (ShallowShelf.thickness self) (x q) 0%nat)
                     (gradient (ShallowShelf.surface self) (x q) 0%nat))
                  (system_to_component_index (ShallowShelf.fe self) i)
              * FEValues.JxW fe_values q)
            (seq 0 (ShallowShelf.quadrature_formula self)) zero).
Proof.
  intros fe_values n rhs x. unfold rhs.
  split; [|split].
  - intros i Hi. rewrite assemble_cell_rhs.
    rewrite add_calving_front_outside by exact Hi.
    rewrite add_driving_stress_outside by exact Hi.
    reflexivity.
  - apply vec_size_cell_rhs.
  - intros Hnone Hn i Hi. unfold x, n, fe_values in *.
    rewrite assemble_cell_rhs.
    rewrite add_calving_front_none by exact Hnone.
    rewrite vec_at_add_driving_stress by exact Hi.
    apply fold_left_ext_in. intros acc q Hq. apply in_seq in Hq.
    rewrite nth_value_list, nth_gradient_list by lia.
    reflexivity.
Qed.

End CellEntries.

(* ===================================================================== *)
(** ** Exact arithmetic: the global matrix of the cell loop is symmetric *)
(* ===================================================================== *)

Section GlobalSymmetry.
Context {double : Type} {A : Arith double} {E : ExactArith double}.
Context {L : Libm double} {PC : PhysicalConstants double}.
Context {FEM : DealII double}.
Local Open Scope double_scope.

(** A global index is the index of a local degree of freedom of the cell,
    or of none. *)
Lemma dof_index_cases (idx : nat -> nat) (n k : nat) :
  (exists i, i < n /\ idx i = k) \/ (forall i, i < n -> idx i <> k).
Proof.
  induction n as [|n IH].
  - right. intros i Hi. lia.
  - destruct IH as [[i [Hi Hk]]|Hnone].
    + left. exists i. split; [lia | exact Hk].
    + destruct (Nat.eq_dec (idx n) k) as [Hk|Hk].
      * left. exists n. split; [lia | exact Hk].
      * right. intros i Hi.
        destruct (Nat.eq_dec i n) as [->|Hne]; [exact Hk|].
        apply Hnone. lia.
Qed.

(** Adding a symmetric cell matrix keeps a symmetric global matrix
    symmetric. *)
Lemma add_to_global_symmetric (self : ShallowShelf.t double)
  (cell : Cell.t double) (cell_matrix : FullMatrix double)
  (cell_rhs : Vector double)
  (system : SparseMatrix.t double SparsityPattern * Vector double) :
  distinct_dof_indices (fe_dofs_per_cell (ShallowShelf.fe self)) cell ->
  symmetric cell_matrix ->
  symmetric_global (fst system) ->
  symmetric_global
    (fst (ShallowShelf.add_to_global self cell cell_matrix cell_rhs system)).
Proof.
  intros Hinj Hcell Hsys k l.
  unfold ShallowShelf.add_to_global. rewrite add_to_global_split.
  cbn [fst].
  set (n := fe_dofs_per_cell (ShallowShelf.fe self)) in *.
  set (idx := Cell.get_dof_indices cell) in *.
  destruct (dof_index_cases idx n k) as [[i [Hi <-]]|Hk].
  - destruct (dof_index_cases idx n l) as [[j [Hj <-]]|Hl].
    + rewrite !at_scatter by assumption.
      rewrite (Hsys (idx i) (idx j)), (Hcell i j). reflexivity.
    + rewrite !at_scatter_other by (first [right; exact Hl | left; exact Hl]).
      apply Hsys.
  - rewrite !at_scatter_other by (first [left; exact Hk | right; exact Hk]).
    apply Hsys.
Qed.

Lemma linear_call_symmetric (self : AssembleMatrixLinear.t double)
  (fe_values : FEValues.t double) (M : FullMatrix double) :
  symmetric (snd (assemble_matrix self fe_values M)).
Proof.
  simpl. unfold AssembleMatrixLinear.operator_call. simpl.
  apply fold_left_invariant.
  - apply FullMatrix_clear_symmetric.
  - intros K q _ HK. apply fill_cell_matrix_symmetric. exact HK.
Qed.

Lemma nonlinear_call_symmetric (self : AssembleMatrixNonLinear.t double)
  (fe_values : FEValues.t double) (M : FullMatrix double) :
  symmetric (snd (assemble_matrix self fe_values M)).
Proof.
  simpl. unfold AssembleMatrixNonLinear.operator_call. simpl.
  apply fold_left_invariant.
  - apply FullMatrix_clear_symmetric.
  - intros K q _ HK. apply fill_cell_matrix_symmetric. exact HK.
Qed.

Lemma assemble_cell_global_matrix {T : Type} {AM : AssembleMatrix double T}
  (self : ShallowShelf.t double) (loc : ShallowShelf.Locals double T)
  (cell : Cell.t double) :
  ShallowShelf.global_matrix (ShallowShelf.assemble_cell self loc cell)
  = fst (ShallowShelf.add_to_global self cell
           (ShallowShelf.cell_matrix
              (ShallowShelf.assemble_cell self loc cell))
           (ShallowShelf.cell_rhs
              (ShallowShelf.assemble_cell self loc cell))
           (ShallowShelf.global_matrix loc, ShallowShelf.global_rhs loc)).
Proof.
  unfold ShallowShelf.assemble_cell.
  destruct (assemble_matrix _ _ _) as [assembler M]. reflexivity.
Qed.

(** The loop over the cells with an assembler whose cell matrices are
    symmetric. *)
Lemma cell_loop_symmetric {T : Type} {AM : AssembleMatrix double T}
  (self : ShallowShelf.t double) (cells : list (Cell.t double))
  (loc : ShallowShelf.Locals double T) :
  (forall (a : T) fe_values M,
      symmetric (snd (assemble_matrix a fe_values M))) ->
  (forall cell, In cell cells ->
     distinct_dof_indices (fe_dofs_per_cell (ShallowShelf.fe self)) cell) ->
  symmetric_global (ShallowShelf.global_matrix loc) ->
  symmetric_global
    (ShallowShelf.global_matrix
       (fold_left (ShallowShelf.assemble_cell self) cells loc)).
Proof.
  intros Hsym Hcells Hloc.
  apply (fold_left_invariant
           (fun loc => symmetric_global (ShallowShelf.global_matrix loc))).
  - exact Hloc.
  - intros loc' cell Hin Hloc'.
    rewrite assemble_cell_global_matrix.
    apply add_to_global_symmetric.
    + apply Hcells. exact Hin.
    + rewrite assemble_cell_matrix. apply Hsym.
    + exact Hloc'.
Qed.

(** X17. In exact arithmetic, when the local degrees of freedom of every
    cell have distinct global indices, the loop over the cells in
    [assemble_system] keeps the global matrix symmetric, with either
    assembler; it starts from the cleared matrix, which is symmetric. *)
Theorem global_matrix_symmetric (self : ShallowShelf.t double)
  (cells : list (Cell.t double)) :
  (forall cell, In cell cells ->
     distinct_dof_indices (fe_dofs_per_cell (ShallowShelf.fe self)) cell) ->
  (forall loc : ShallowShelf.Locals double (AssembleMatrixLinear.t double),
      symmetric_global (ShallowShelf.global_matrix loc) ->
      symmetric_global
        (ShallowShelf.global_matrix
           (fold_left (ShallowShelf.assemble_cell self) cells loc)))
  /\ (forall loc
        : ShallowShelf.Locals double (AssembleMatrixNonLinear.t double),
         symmetric_global (ShallowShelf.global_matrix loc) ->
         symmetric_global
           (ShallowShelf.global_matrix
              (fold_left (ShallowShelf.assemble_cell self) cells loc)))
  /\ (forall M, symmetric_global (SparseMatrix.clear M)).
Proof.
  intros Hcells. split; [|split].
  - intros loc Hloc. apply cell_loop_symmetric; try assumption.
    apply linear_call_symmetric.
  - intros loc Hloc. apply cell_loop_symmetric; try assumption.
    apply nonlinear_call_symmetric.
  - intros M k l. reflexivity.
Qed.

End GlobalSymmetry.

(* ===================================================================== *)
(** ** Exact arithmetic: flotation, the load at the front, the strain rate *)
(* ===================================================================== *)

Section RealPhysics.
Context {PC : PhysicalConstants R}.
Context {FEM : DealII R}.
Local Open Scope R_scope.

Lemma lit_1 : lit (double := R) 1 = 1.
Proof. apply RMicromega.Q2R_1. Qed.

Lemma ice_surface_cases (self : IceSurface.t R) (x : Point R) (c : nat) :
  0 < rho_water ->
  let h := value (IceSurface.thickness self) x 0%nat in
  let b := value (IceSurface.bed self) x 0%nat in
  (0 <= rho_water * b + rho_ice * h ->
   IceSurface.value self x c = b + h)
  /\ (rho_water * b + rho_ice * h <= 0 ->
      IceSurface.value self x c = (1 - rho_ice / rho_water) * h).
Proof.
  intros Hw h b.
  unfold IceSurface.value. fold h. fold b.
  rewrite std_max_Rmax.
  change (@add R R_Arith) with Rplus. change (@sub R R_Arith) with Rminus.
  change (@mul R R_Arith) with Rmult. change (@div R R_Arith) with Rdiv.
  rewrite lit_1.
  assert (Hdiff : b + h - (1 - rho_ice / rho_water) * h
                  = (rho_water * b + rho_ice * h) / rho_water)
    by (field; lra).
  assert (Hinv : 0 < / rho_water) by (apply Rinv_0_lt_compat; exact Hw).
  split; intros Hsign.
  - apply Rmax_left.
    assert (0 <= (rho_water * b + rho_ice * h) / rho_water)
      by (unfold Rdiv; apply Rmult_le_pos; lra).
    lra.
  - apply Rmax_right.
    assert ((rho_water * b + rho_ice * h) / rho_water <= 0).
    { unfold Rdiv.
      replace 0 with (0 * / rho_water) by ring.
      apply Rmult_le_compat_r; lra. }
    lra.
Qed.

(** X10. In exact arithmetic and for a positive water density,
    [IceSurface::value] is the grounded elevation [bed + thickness] where
    [rho_water * bed + rho_ice * thickness >= 0] and the flotation height
    [(1 - rho_ice/rho_water) * thickness] where that sum is negative or
    zero; the ice base [value - thickness] is never below the bed, and
    where there is no ice the surface is the bed above sea level and the
    sea level 0 below. *)
Theorem ice_surface_flotation (self : IceSurface.t R) (x : Point R)
  (component : nat) :
  0 < rho_water ->
  let h := value (IceSurface.thickness self) x 0%nat in
  let b := value (IceSurface.bed self) x 0%nat in
  (0 <= rho_water * b + rho_ice * h ->
   IceSurface.value self x component = b + h)
  /\ (rho_water * b + rho_ice * h <= 0 ->
      IceSurface.value self x component = (1 - rho_ice / rho_water) * h)
  /\ b <= IceSurface.value self x component - h
  /\ (h = 0 -> IceSurface.value self x component = Rmax b 0).
Proof.
  intros Hw h b.
  destruct (ice_surface_cases self x component Hw) as [Hgrounded Hfloating].
  fold h in Hgrounded, Hfloating. fold b in Hgrounded, Hfloating.
  split; [exact Hgrounded|]. split; [exact Hfloating|]. split.
  - unfold IceSurface.value. fold h. fold b. rewrite std_max_Rmax.
    change (@add R R_Arith) with Rplus.
    pose proof (Rmax_l (b + h) ((lit 1 - rho_ice / rho_water)%D * h)%D).
    lra.
  - intros Hh.
    destruct (Rle_dec 0 b) as [Hb|Hb].
    + rewrite Hgrounded by (rewrite Hh; nra).
      rewrite Rmax_left by lra. lra.
    + rewrite Hfloating by (rewrite Hh; nra).
      rewrite Rmax_right by lra. rewrite Hh. ring.
Qed.

(** X11. In exact arithmetic, with the surface of [IceSurface] and a
    positive water density, the load at a point of the calving front is
    [0.5 * g * rho_ice * (1 - rho_ice/rho_water) * h^2 * n] where the ice
    floats, and [0.5 * g * (rho_ice * h^2 - rho_water * bed^2) * n] where
    it is grounded. *)
Theorem front_load_flotation (self : ShallowShelf.t R)
  (ice : IceSurface.t R) (x : Point R) (n : Tensor1 R) :
  0 < rho_water ->
  let h := value (IceSurface.thickness ice) x 0%nat in
  let b := value (IceSurface.bed ice) x 0%nat in
  value (ShallowShelf.thickness self) x 0%nat = h ->
  value (ShallowShelf.surface self) x 0%nat = IceSurface.value ice x 0 ->
  (rho_water * b + rho_ice * h <= 0 ->
   ShallowShelf.neumann_value self x n
   = scale (0.5 * gravity * rho_ice * (1 - rho_ice / rho_water) * (h * h)) n)
  /\ (0 <= rho_water * b + rho_ice * h ->
      ShallowShelf.neumann_value self x n
      = scale (0.5 * gravity * (rho_ice * (h * h) - rho_water * (b * b))) n).
Proof.
  intros Hw h b Hh Hs.
  destruct (ice_surface_cases ice x 0 Hw) as [Hgrounded Hfloating].
  fold h in Hgrounded, Hfloating. fold b in Hgrounded, Hfloating.
  assert (Hhalf : lit (double := R) 0.5 = 0.5).
  { cbv [lit R_Arith Q2R Qnum Qden]. lra. }
  unfold ShallowShelf.neumann_value, scale. rewrite Hh, Hs.
  change (@add R R_Arith) with Rplus. change (@sub R R_Arith) with Rminus.
  change (@mul R R_Arith) with Rmult.
  rewrite Hhalf.
  split; intros Hsign.
  - rewrite Hfloating by exact Hsign. f_equal; field; lra.
  - rewrite Hgrounded by exact Hsign. f_equal; ring.
Qed.

(** X12. In exact arithmetic the effective strain rate squared that the
    nonlinear assembler raises to the power -1/3 is never negative, and is
    zero for the zero strain rate only; for a positive flow-law factor and
    a strain rate that is not zero the viscosity is positive. *)
Theorem effective_strain_rate_nonnegative (eps : SymmetricTensor2 R) :
  0 <= effective_strain_rate_squared eps
  /\ (effective_strain_rate_squared eps = 0
      <-> s_00 eps = 0 /\ s_11 eps = 0 /\ s_01 eps = 0)
  /\ (0 < A0_cold -> 0 < effective_strain_rate_squared eps ->
      0 < glen_viscosity eps).
Proof.
  unfold effective_strain_rate_squared, first_invariant, second_invariant.
  change (@add R R_Arith) with Rplus. change (@sub R R_Arith) with Rminus.
  change (@mul R R_Arith) with Rmult.
  destruct eps as [a d c]. cbn [s_00 s_11 s_01].
  split; [nra|]. split.
  - split.
    + intros H.
      pose proof (Rle_0_sqr (a + d / 2)) as Had.
      pose proof (Rle_0_sqr a) as Ha. pose proof (Rle_0_sqr d) as Hd.
      pose proof (Rle_0_sqr c) as Hc. unfold Rsqr in Had, Ha, Hd, Hc.
      assert (Hd0 : d * d = 0) by nra.
      assert (Hc0 : c * c = 0) by nra.
      apply Rsqr_0_uniq in Hd0. apply Rsqr_0_uniq in Hc0. subst d c.
      assert (Ha0 : a * a = 0) by nra.
      apply Rsqr_0_uniq in Ha0. auto.
    + intros [-> [-> ->]]. ring.
  - intros _ _. unfold glen_viscosity, B.
    change (@mul R R_Arith) with Rmult.
    change (@pow R R_Libm) with Rpower.
    assert (Hhalf : lit (double := R) 0.5 = 0.5).
    { cbv [lit R_Arith Q2R Qnum Qden]. lra. }
    rewrite Hhalf.
    apply Rmult_lt_0_compat.
    + apply Rmult_lt_0_compat; [lra|]. unfold Rpower. apply exp_pos.
    + unfold Rpower. apply exp_pos.
Qed.

End RealPhysics.

(* ===================================================================== *)
(** ** Exact arithmetic: the cell matrix is positive semi-definite *)
(* ===================================================================== *)

Section Sums.
Local Open Scope R_scope.

Lemma lit_0 : lit (double := R) 0 = 0.
Proof. apply RMicromega.Q2R_0. Qed.

Lemma lit_2 : lit (double := R) 2 = 2.
Proof. cbv [lit R_Arith Q2R Qnum Qden]. lra. Qed.

Lemma fold_left_sum (f : nat -> R) (n : nat) (x : R) :
  fold_left (fun acc i => acc + f i) (seq 0 n) x = x + sum_upto n f.
Proof.
  unfold sum_upto. change (@add R R_Arith) with Rplus. rewrite lit_0.
  induction n as [|n IH].
  - simpl. ring.
  - rewrite seq_S, !fold_left_app. simpl. rewrite IH.
    generalize (fold_left (fun acc i => acc + f i) (seq 0 n) 0).
    intros s. ring.
Qed.

Lemma sum_upto_0 (f : nat -> R) : sum_upto 0 f = 0.
Proof. unfold sum_upto. simpl. apply lit_0. Qed.

Lemma sum_upto_S (f : nat -> R) (n : nat) :
  sum_upto (S n) f = sum_upto n f + f n.
Proof.
  unfold sum_upto at 1. change (@add R R_Arith) with Rplus.
  rewrite seq_S, fold_left_app. cbn [fold_left Nat.add].
  rewrite fold_left_sum, lit_0. ring.
Qed.

Lemma sum_upto_ext (f g : nat -> R) (n : nat) :
  (forall i, (i < n)%nat -> f i = g i) -> sum_upto n f = sum_upto n g.
Proof.
  induction n as [|n IH]; intros H.
  - rewrite !sum_upto_0. reflexivity.
  - rewrite !sum_upto_S, IH, (H n) by (intros; try apply H; lia).
    reflexivity.
Qed.

Lemma sum_upto_plus (f g : nat -> R) (n : nat) :
  sum_upto n (fun i => f i + g i) = sum_upto n f + sum_upto n g.
Proof.
  induction n as [|n IH].
  - rewrite !sum_upto_0. ring.
  - rewrite !sum_upto_S, IH. ring.
Qed.

Lemma sum_upto_scale (c : R) (f : nat -> R) (n : nat) :
  sum_upto n (fun i => c * f i) = c * sum_upto n f.
Proof.
  induction n as [|n IH].
  - rewrite !sum_upto_0. ring.
  - rewrite !sum_upto_S, IH. ring.
Qed.

Lemma sum_upto_swap (f : nat -> nat -> R) (m n : nat) :
  sum_upto m (fun i => sum_upto n (fun j => f i j))
  = sum_upto n (fun j => sum_upto m (fun i => f i j)).
Proof.
  induction m as [|m IH].
  - rewrite sum_upto_0. symmetry.
    rewrite (sum_upto_ext _ (fun _ => 0))
      by (intros; apply sum_upto_0).
    induction n as [|n IHn].
    + apply sum_upto_0.
    + rewrite sum_upto_S, IHn. ring.
  - rewrite sum_upto_S, IH, <- sum_upto_plus.
    apply sum_upto_ext. intros j _. rewrite sum_upto_S. reflexivity.
Qed.

Lemma sum_upto_nonneg (f : nat -> R) (n : nat) :
  (forall i, (i < n)%nat -> 0 <= f i) -> 0 <= sum_upto n f.
Proof.
  induction n as [|n IH]; intros H.
  - rewrite sum_upto_0. lra.
  - rewrite sum_upto_S.
    assert (0 <= sum_upto n f) by (apply IH; intros; apply H; lia).
    assert (0 <= f n) by (apply H; lia).
    lra.
Qed.

(** The double sum of a product of two factors is the square of a sum. *)
Lemma sum_upto_square (v g : nat -> R) (n : nat) :
  sum_upto n (fun i => sum_upto n (fun j => v i * (g i * g j) * v j))
  = sum_upto n (fun i => v i * g i) * sum_upto n (fun i => v i * g i).
Proof.
  rewrite (sum_upto_ext
             (fun i => sum_upto n (fun j => v i * (g i * g j) * v j))
             (fun i => (v i * g i) * sum_upto n (fun j => v j * g j))).
  - rewrite <- sum_upto_scale.
    apply sum_upto_ext. intros i _. ring.
  - intros i _. rewrite <- sum_upto_scale.
    apply sum_upto_ext. intros j _. ring.
Qed.

End Sums.

Section Definite.
Context {PC : PhysicalConstants R}.
Local Open Scope R_scope.

(** The bilinear form of the operator [stress_strain (2 m, m)] on two
    strains, by components. *)
Lemma stiffness_term_components (m : R) (fe_values : FEValues.t R)
  (q i j : nat) :
  let e k := EllipticSystems.shape_strain fe_values k q in
  stiffness_term
    (EllipticSystems.stress_strain_tensor (lit 2 * m)%D m) fe_values q i j
  = (2 * m * FEValues.JxW fe_values q)
    * (s_00 (e i) * s_00 (e j) + s_11 (e i) * s_11 (e j)
       + 2 * (s_01 (e i) * s_01 (e j))
       + (s_00 (e i) + s_11 (e i)) * (s_00 (e j) + s_11 (e j))).
Proof.
  intros e. unfold stiffness_term, scalar_product, contract_2_4,
    EllipticSystems.stress_strain_tensor.
  fold (e i). fold (e j). cbn -[lit].
  change (@add R R_Arith) with Rplus. change (@mul R R_Arith) with Rmult.
  rewrite lit_2, lit_0. ring.
Qed.

(** The quadratic form of the contribution of one quadrature point. *)
Lemma stiffness_term_form (m : R) (fe_values : FEValues.t R)
  (q n : nat) (v : nat -> R) :
  0 <= m -> 0 <= FEValues.JxW fe_values q ->
  0 <= sum_upto n (fun i => sum_upto n (fun j =>
         v i
         * stiffness_term
             (EllipticSystems.stress_strain_tensor (lit 2 * m)%D m)
             fe_values q i j
         * v j)).
Proof.
  intros Hm Hw.
  set (e k := EllipticSystems.shape_strain fe_values k q).
  set (w := 2 * m * FEValues.JxW fe_values q).
  assert (Hw' : 0 <= w) by (unfold w; nra).
  rewrite (sum_upto_ext _
             (fun i =>
                w * sum_upto n (fun j =>
                      v i * (s_00 (e i) * s_00 (e j)) * v j)
                + w * sum_upto n (fun j =>
                        v i * (s_11 (e i) * s_11 (e j)) * v j)
                + (2 * w) * sum_upto n (fun j =>
                              v i * (s_01 (e i) * s_01 (e j)) * v j)
                + w * sum_upto n (fun j =>
                        v i * ((s_00 (e i) + s_11 (e i))
                               * (s_00 (e j) + s_11 (e j))) * v j))).
  - rewrite !sum_upto_plus, !sum_upto_scale, !sum_upto_square.
    repeat apply Rplus_le_le_0_compat;
      apply Rmult_le_pos; try lra; apply Rle_0_sqr.
  - intros i _.
    rewrite <- !sum_upto_scale, <- !sum_upto_plus.
    apply sum_upto_ext. intros j _.
    rewrite stiffness_term_components. fold (e i). fold (e j). fold w.
    ring.
Qed.

(** The quadratic form of a matrix assembled from operators
    [stress_strain (2 m, m)] with [m >= 0] and weights [>= 0]. *)
Lemma stiffness_nonnegative (m : nat -> R) (fe_values : FEValues.t R)
  (n_q_points n : nat) (M : FullMatrix R) (v : nat -> R) :
  (forall q, (q < n_q_points)%nat ->
     0 <= m q /\ 0 <= FEValues.JxW fe_values q) ->
  0 <= quadratic_form
         (stiffness
            (fun q =>
               EllipticSystems.stress_strain_tensor (lit 2 * m q)%D (m q))
            fe_values n_q_points n (FullMatrix_clear M))
         n v.
Proof.
  intros Hq. unfold quadratic_form.
  rewrite (sum_upto_ext _
             (fun i => sum_upto n (fun j =>
                sum_upto n_q_points (fun q =>
                  v i
                  * stiffness_term
                      (EllipticSystems.stress_strain_tensor
                         (lit 2 * m q)%D (m q))
                      fe_values q i j
                  * v j)))).
  - rewrite (sum_upto_ext _
               (fun i => sum_upto n_q_points (fun q =>
                  sum_upto n (fun j =>
                    v i
                    * stiffness_term
                        (EllipticSystems.stress_strain_tensor
                           (lit 2 * m q)%D (m q))
                        fe_values q i j
                    * v j))))
      by (intros i _; apply sum_upto_swap).
    rewrite sum_upto_swap.
    apply sum_upto_nonneg. intros q Hlt.
    destruct (Hq q Hlt) as [Hm Hw].
    apply stiffness_term_form; assumption.
  - intros i Hi. apply sum_upto_ext. intros j Hj.
    rewrite fm_at_stiffness.
    apply Nat.ltb_lt in Hi. apply Nat.ltb_lt in Hj. rewrite Hi, Hj.
    cbn [andb FullMatrix_clear fm_at].
    change (@add R R_Arith) with Rplus.
    rewrite fold_left_sum, lit_0, Rplus_0_l.
    change (@mul R R_Arith) with Rmult.
    rewrite <- sum_upto_scale, Rmult_comm, <- sum_upto_scale.
    apply sum_upto_ext. intros q _. ring.
Qed.

(** X16. In exact arithmetic the cell matrix of either assembler is
    positive semi-definite on the degrees of freedom of the cell when the
    quadrature weights and the viscosity times the thickness are not
    negative at the quadrature points: [sum_ij v_i K_ij v_j >= 0] for every
    vector [v] of local coefficients. *)
Theorem stiffness_matrix_nonnegative (fe_values : FEValues.t R)
  (cell_matrix : FullMatrix R) (v : nat -> R) :
  let x q := FEValues.quadrature_point fe_values q in
  (forall self : AssembleMatrixLinear.t R,
      (AssembleMatrixLinear.n_q_points self
       <= FEValues.n_quadrature_points fe_values)%nat ->
      (forall q, (q < AssembleMatrixLinear.n_q_points self)%nat ->
         0 <= value (AssembleMatrixLinear.nu self) (x q) 0
              * value (AssembleMatrixLinear.thickness self) (x q) 0
         /\ 0 <= FEValues.JxW fe_values q) ->
      0 <= quadratic_form
             (snd (assemble_matrix self fe_values cell_matrix))
             (AssembleMatrixLinear.dofs_per_cell self) v)
  /\ (forall self : AssembleMatrixNonLinear.t R,
         (AssembleMatrixNonLinear.n_q_points self
          <= FEValues.n_quadrature_points fe_values)%nat ->
         (forall q, (q < AssembleMatrixNonLinear.n_q_points self)%nat ->
            0 <= glen_viscosity
                   (EllipticSystems.get_strain
                      (FEValues.function_gradients_at fe_values
                         (AssembleMatrixNonLinear.solution self) q))
                 * value (AssembleMatrixNonLinear.thickness self) (x q) 0
            /\ 0 <= FEValues.JxW fe_values q) ->
         0 <= quadratic_form
                (snd (assemble_matrix self fe_values cell_matrix))
                (AssembleMatrixNonLinear.dofs_per_cell self) v).
Proof.
  intros x. split; intros self Hn Hq;
    cbn [assemble_matrix AssembleMatrix_Linear AssembleMatrix_NonLinear].
  - rewrite linear_assembler_stiffness by exact Hn.
    apply (stiffness_nonnegative
             (fun q => value (AssembleMatrixLinear.nu self) (x q) 0
                       * value (AssembleMatrixLinear.thickness self) (x q) 0)).
    exact Hq.
  - rewrite nonlinear_assembler_stiffness by exact Hn.
    apply (stiffness_nonnegative
             (fun q =>
                glen_viscosity
                  (EllipticSystems.get_strain
                     (FEValues.function_gradients_at fe_values
                        (AssembleMatrixNonLinear.solution self) q))
                * value (AssembleMatrixNonLinear.thickness self) (x q) 0)).
    exact Hq.
Qed.

End Definite.

(* ===================================================================== *)
(** ** The one-cell shelf once more *)
(* ===================================================================== *)

Section FurtherSamples.
Local Existing Instance Sample.constants.
Local Open Scope R_scope.

Lemma add_to_global_entries_witness :
  let system :=
    (SparseMatrix.reinit (0%nat, 0%nat), mkVector 2 (fun k => INR k)) in
  let result :=
    ShallowShelf.add_to_global (Sample.bare_ground 4) Sample.front_cell
      (mkFullMatrix 2 2 (fun i j => INR (i + j)))
      (mkVector 2 (fun i => 10)) system in
  vec_at (snd result) 1 = 1 + 10
  /\ SparseMatrix.at_ (fst result) 0 1 = lit 0 + 1.
Proof.
  intros system result.
  pose proof (add_to_global_entries (Sample.bare_ground 4) Sample.front_cell
                (mkFullMatrix 2 2 (fun i j => INR (i + j)))
                (mkVector 2 (fun i => 10)) system
                (fun a b _ _ H => H)) as H.
  split.
  - exact (proj1 (proj2 H) 1%nat (le_n 2)).
  - exact (proj1 H 0%nat 1%nat (le_S 1 1 (le_n 1)) (le_n 2)).
Defined.

Lemma set_boundary_values_entries_witness :
  vec_at
    (ShallowShelf.set_boundary_values [(0%nat, 1); (2%nat, 3)]
       (Vector_reinit 4)) 2
  = 3.
Proof.
  refine (proj1 (set_boundary_values_entries [(0%nat, 1); (2%nat, 3)]
                   (Vector_reinit 4) _) 2%nat 3 _).
  - simpl. repeat constructor; simpl; intuition discriminate.
  - right. left. reflexivity.
Defined.

Lemma sample_water_density : 0 < rho_water.
Proof. cbv [rho_water Sample.constants lit R_Arith Q2R Qnum Qden]. lra. Qed.

Lemma sample_shelf_floats :
  rho_water * value (IceSurface.bed Sample.shelf) Sample.origin 0
  + rho_ice * value (IceSurface.thickness Sample.shelf) Sample.origin 0
  <= 0.
Proof.
  cbv [rho_water rho_ice Sample.constants Sample.shelf IceSurface.bed
       IceSurface.thickness ConstantFunction value
       lit neg R_Arith Q2R Qnum Qden].
  lra.
Qed.

Lemma ice_surface_flotation_witness :
  IceSurface.value Sample.shelf Sample.origin 0
  = (1 - rho_ice / rho_water)
    * value (IceSurface.thickness Sample.shelf) Sample.origin 0.
Proof.
  exact (proj1 (proj2 (ice_surface_flotation Sample.shelf Sample.origin 0
                         sample_water_density))
           sample_shelf_floats).
Defined.

Lemma front_load_flotation_witness :
  let h := value (IceSurface.thickness Sample.shelf) Sample.origin 0 in
  ShallowShelf.neumann_value (floating_shelf 4) Sample.origin
    (mkTensor1 1 0)
  = scale (0.5 * gravity * rho_ice * (1 - rho_ice / rho_water) * (h * h))
      (mkTensor1 1 0).
Proof.
  intros h.
  exact (proj1 (front_load_flotation (floating_shelf 4) Sample.shelf
                  Sample.origin (mkTensor1 1 0) sample_water_density
                  eq_refl eq_refl)
           sample_shelf_floats).
Defined.

Lemma linear_assembler_entries_witness :
  let self :=
    AssembleMatrixLinear.new 1 2 (ConstantFunction (lit 300))
      (ConstantFunction nu_guess) in
  fm_at (snd (assemble_matrix self Sample.fe_values (FullMatrix_new 2 2)))
    0 1
  = lit 0
    + stiffness_term
        (EllipticSystems.stress_strain_tensor
           (lit 2 * (nu_guess * lit 300)) (nu_guess * lit 300))
        Sample.fe_values 0 0 1.
Proof.
  intros self.
  exact (proj1 (linear_assembler_entries self Sample.fe_values
                  (FullMatrix_new 2 2) (le_n 1))
           0%nat 1%nat (le_S 1 1 (le_n 1)) (le_n 2)).
Defined.

End FurtherSamples.

Section MoreSamples.
Local Existing Instance Sample.constants.
Local Open Scope R_scope.

Lemma sample_nonnegative :
  0 <= value (ConstantFunction (lit (double := R) 1)) Sample.origin 0
       * value (ConstantFunction (lit (double := R) 300)) Sample.origin 0
  /\ 0 <= FEValues.JxW (Sample.fe_values (double := R)) 0.
Proof.
  cbv [ConstantFunction value Sample.fe_values FEValues.JxW
       lit R_Arith Q2R Qnum Qden].
  split; lra.
Qed.

Lemma stiffness_matrix_nonnegative_witness :
  0 <= quadratic_form
         (snd (assemble_matrix
                 (AssembleMatrixLinear.new 1 2 (ConstantFunction (lit 300))
                    (ConstantFunction (lit 1)))
                 Sample.fe_values (FullMatrix_new 2 2)))
         2 (fun i => INR i).
Proof.
  apply (proj1 (stiffness_matrix_nonnegative Sample.fe_values
                  (FullMatrix_new 2 2) (fun i => INR i))
           (AssembleMatrixLinear.new 1 2 (ConstantFunction (lit 300))
              (ConstantFunction (lit 1)))
           (le_n 1)).
  intros q Hq. exact sample_nonnegative.
Defined.

Lemma global_matrix_symmetric_witness :
  symmetric_global
    (ShallowShelf.global_matrix
       (fold_left (ShallowShelf.assemble_cell (Sample.bare_ground 4))
          [Sample.front_cell; Sample.inner_cell]
          (Sample.locals 4 (lit 1)))).
Proof.
  refine (proj1 (global_matrix_symmetric (Sample.bare_ground 4)
                   [Sample.front_cell; Sample.inner_cell] _)
            (Sample.locals 4 (lit 1)) _).
  - intros cell [<-|[<-|[]]] a b _ _ Hab; exact Hab.
  - intros k l. reflexivity.
Defined.

Lemma cell_rhs_entries_witness :
  let rhs :=
    ShallowShelf.cell_rhs
      (ShallowShelf.assemble_cell (Sample.bare_ground 4)
         (Sample.locals 4 (lit 1)) Sample.inner_cell) in
  vec_at rhs 2 = lit 0 /\ vec_size rhs = 2%nat.
Proof.
  intros rhs.
  pose proof (cell_rhs_entries (Sample.bare_ground 4)
                (Sample.locals 4 (lit 1)) Sample.inner_cell) as H.
  split.
  - exact (proj1 H 2%nat (le_n 2)).
  - exact (proj1 (proj2 H)).
Defined.

End MoreSamples.

(* ===================================================================== *)
(** ** The viscosity guess and the nonlinear assembler *)
(* ===================================================================== *)

Section ReferenceStrainRate.
Context {double : Type} {A : Arith double} {L : Libm double}.
Context {PC : PhysicalConstants double}.
Local Open Scope double_scope.

(** X18. The constant viscosity of Picard iteration 0 is the viscosity of
    the flow law at the reference strain rate: for a velocity whose
    effective strain rate squared is [strain_rate * strain_rate] at every
    quadrature point, the nonlinear assembler produces the cell matrix
    that the constant-viscosity assembler produces with [nu_guess]. *)
Theorem nu_guess_reference (fe_values : FEValues.t double)
  (cell_matrix : FullMatrix double) (thickness : Function2 double)
  (u : Vector double) (n_q_points dofs_per_cell : nat) :
  n_q_points <= FEValues.n_quadrature_points fe_values ->
  (forall q, q < n_q_points ->
     let eps :=
       EllipticSystems.get_strain
         (FEValues.function_gradients_at fe_values u q) in
     first_invariant eps * first_invariant eps - second_invariant eps
     = strain_rate * strain_rate) ->
  snd (assemble_matrix
         (AssembleMatrixNonLinear.new n_q_points dofs_per_cell thickness u)
         fe_values cell_matrix)
  = snd (assemble_matrix
           (AssembleMatrixLinear.new n_q_points dofs_per_cell thickness
              (ConstantFunction nu_guess))
           fe_values cell_matrix).
Proof.
  intros Hn Heps.
  cbn [assemble_matrix AssembleMatrix_Linear AssembleMatrix_NonLinear].
  rewrite nonlinear_assembler_stiffness by exact Hn.
  rewrite linear_assembler_stiffness by exact Hn.
  unfold stiffness. apply fold_left_ext_in. intros M q Hq.
  apply in_seq in Hq.
  unfold nonlinear_operator, linear_operator, glen_viscosity,
    effective_strain_rate_squared.
  cbn [AssembleMatrixNonLinear.new AssembleMatrixNonLinear.thickness
       AssembleMatrixNonLinear.solution AssembleMatrixNonLinear.n_q_points
       AssembleMatrixNonLinear.dofs_per_cell
       AssembleMatrixLinear.new AssembleMatrixLinear.thickness
       AssembleMatrixLinear.nu AssembleMatrixLinear.n_q_points
       AssembleMatrixLinear.dofs_per_cell].
  rewrite (Heps q) by (cbn in Hq; lia).
  reflexivity.
Qed.

End ReferenceStrainRate.

Section ReferenceSample.
Local Existing Instance Sample.constants.
Local Open Scope R_scope.

Lemma nu_guess_reference_witness :
  let u := mkVector 2 (fun i => match i with O => 0.2 | _ => 0 end) in
  snd (assemble_matrix
         (AssembleMatrixNonLinear.new 1 2 (ConstantFunction (lit 300)) u)
         Sample.fe_values (FullMatrix_new 2 2))
  = snd (assemble_matrix
           (AssembleMatrixLinear.new 1 2 (ConstantFunction (lit 300))
              (ConstantFunction nu_guess))
           Sample.fe_values (FullMatrix_new 2 2)).
Proof.
  intros u.
  apply (nu_guess_reference Sample.fe_values (FullMatrix_new 2 2)
           (ConstantFunction (lit 300)) u 2 (le_n 1)).
  intros q _.
  cbv [Sample.fe_values FEValues.function_gradients_at
       EllipticSystems.get_strain nth first_invariant second_invariant
       s_00 s_11 s_01 t_0 t_1 u vec_at strain_rate
       add sub mul div lit R_Arith Q2R Qnum Qden].
  field.
Defined.

End ReferenceSample.

(* ===================================================================== *)
(** ** Where the documented statements stop holding *)
(* ===================================================================== *)

Section Limits.
Local Existing Instance Sample.constants.

(** On a flat surface, a finite thickness of [2^1015] m makes
    [- rho_ice * gravity * h] overflow to minus infinity, and minus
    infinity times the zero gradient is NaN: the body force leaves NaN in
    the load vector. *)
Lemma flat_surface_overflow :
  let fe_values := Sample.fe_values (double := float) in
  let points := FEValues.get_quadrature_points fe_values in
  let rhs :=
    ShallowShelf.add_driving_stress heavy_shelf fe_values
      (value_list (ShallowShelf.thickness heavy_shelf) points)
      (gradient_list (ShallowShelf.surface heavy_shelf) points)
      (Vector_clear (Vector_reinit 2)) in
  PrimFloat.is_finite
    (value (ShallowShelf.thickness heavy_shelf) Sample.origin 0) = true
  /\ gradient (ShallowShelf.surface heavy_shelf) Sample.origin 0
     = Tensor1_zero
  /\ finite_load_values fe_values
  /\ PrimFloat.is_nan (vec_at rhs 0) = true
  /\ ~ null_vector rhs.
Proof.
  intros fe_values points rhs.
  split; [vm_compute; reflexivity|].
  split; [reflexivity|].
  split; [exact (finite_values_load binary64_finite_values)|].
  split; [vm_compute; reflexivity|].
  intros Hnull. specialize (Hnull 0). vm_compute in Hnull.
  discriminate Hnull.
Qed.




End Limits.

Section OutputSample.
Local Existing Instance Sample.constants.

Lemma output_results_file_witness :
  fst (ShallowShelf.output_results 2 (Sample.bare_ground (double := R) 4))
  = ShallowShelf.Returns tt.
Proof.
  exact (f_equal fst
           (proj1 (output_results_file (Sample.bare_ground 4)
                     (le_S 3 9 (le_S 3 8 (le_S 3 7 (le_S 3 6 (le_S 3 5
                        (le_S 3 4 (le_S 3 3 (le_n 3))))))))))).
Defined.

End OutputSample.
